(** * cordova-android, [bin/templates/cordova/lib/prepare.js]

    A shallow embedding of the "prepare" step of the Android platform:
    the pure helpers (version code, icon selection) as functions, the
    file-system work as state passing over a finite map from paths to
    nodes, and JavaScript exceptions as an error result that keeps the
    state reached when the exception was raised.

    Conventions of the model.
    - Strings are ASCII strings; white space ([\s]) is the ASCII white space.
    - Numbers are exact: [NaN], [+Infinity] or an integer.  Rounding of
      integers above 2^53 is not modelled.
    - A path is the list of its segments from the file-system root, already
      normalised; [path.join] appends the segments of a relative path string
      and resolves "." and "..".
    - [events.emit] only notifies listeners; it changes neither the file
      system nor the control flow and is left out.
    - Symbolic links, permissions and I/O failures of the disk are left out. *)

From Stdlib Require Import ZArith Ascii String List Lia Bool.
From stdpp Require Import base option strings list gmap fin_maps.

Local Open Scope string_scope.
Local Open Scope Z_scope.
Local Open Scope list_scope.

(* ===================================================================== *)
(** ** JavaScript values used by the module                                *)
(* ===================================================================== *)

Module Js.

(** Truthiness of a string: only the empty string is falsy. *)
Definition truthy_str (s : string) : bool :=
  match s with EmptyString => false | _ => true end.

(** Truthiness of a value that is a string, [undefined] or [null]. *)
Definition truthy (o : option string) : bool :=
  match o with Some s => truthy_str s | None => false end.

(** [a || b] on such values. *)
Definition or_else (a b : option string) : option string :=
  if truthy a then a else b.

(** Numbers: exact integers, [NaN] and [+Infinity] (no negative number
    arises in this module). *)
Inductive number := NaN | PosInf | Fin (z : Z).

Definition truthy_num (n : number) : bool :=
  match n with NaN => false | PosInf => true | Fin z => negb (z =? 0) end.

Definition num_add (a b : number) : number :=
  match a, b with
  | NaN, _ | _, NaN => NaN
  | PosInf, _ | _, PosInf => PosInf
  | Fin x, Fin y => Fin (x + y)
  end.

Definition num_mul (a b : number) : number :=
  match a, b with
  | NaN, _ | _, NaN => NaN
  | Fin x, Fin y => Fin (x * y)
  | PosInf, PosInf => PosInf
  | PosInf, Fin y | Fin y, PosInf => if 0 <? y then PosInf else NaN
  end.

(** *** Characters *)

Definition code (c : ascii) : N := N_of_ascii c.

Definition in_range (lo hi : N) (c : ascii) : bool :=
  ((lo <=? code c) && (code c <=? hi))%N.

(** [\s], ASCII part: TAB, LF, VT, FF, CR, SPACE. *)
Definition is_space (c : ascii) : bool :=
  in_range 9 13 c || (code c =? 32)%N.

Definition is_digit (c : ascii) : bool := in_range 48 57 c.

(** [\w]: letters, digits and underscore. *)
Definition is_word (c : ascii) : bool :=
  in_range 65 90 c || in_range 97 122 c || is_digit c || (code c =? 95)%N.

(** Value of a digit in a base up to 16, if it is one. *)
Definition digit_val (base : Z) (c : ascii) : option Z :=
  let v :=
    if is_digit c then Some (Z.of_N (code c) - 48)
    else if in_range 97 102 c then Some (Z.of_N (code c) - 87)
    else if in_range 65 70 c then Some (Z.of_N (code c) - 55)
    else None in
  match v with
  | Some d => if d <? base then Some d else None
  | None => None
  end.

(** *** Strings *)

Fixpoint strip_prefix (p s : string) : option string :=
  match p, s with
  | EmptyString, _ => Some s
  | String a p', String b s' =>
      if Ascii.eqb a b then strip_prefix p' s' else None
  | String _ _, EmptyString => None
  end.

Definition starts_with (p s : string) : bool :=
  match strip_prefix p s with Some _ => true | None => false end.

Fixpoint rev_string (acc s : string) : string :=
  match s with
  | EmptyString => acc
  | String c s' => rev_string (String c acc) s'
  end.

Definition srev (s : string) : string := rev_string EmptyString s.

(** [/suf$/.exec(s)]: the string ends with [suf]. *)
Definition ends_with (suf s : string) : bool :=
  starts_with (srev suf) (srev s).

(** [s.replace(/suf$/, new)] for a literal suffix. *)
Definition replace_suffix (suf new s : string) : string :=
  match strip_prefix (srev suf) (srev s) with
  | Some r => srev r +:+ new
  | None => s
  end.

(** [s.split(c)] for a one-character separator: never empty. *)
Fixpoint split_go (c : ascii) (cur : string) (s : string) : list string :=
  match s with
  | EmptyString => [srev cur]
  | String a s' =>
      if Ascii.eqb a c then srev cur :: split_go c EmptyString s'
      else split_go c (String a cur) s'
  end.

Definition split (c : ascii) (s : string) : list string :=
  split_go c EmptyString s.

(** [s.replace(/c/g, d)] for single characters. *)
Fixpoint replace_all (c d : ascii) (s : string) : string :=
  match s with
  | EmptyString => EmptyString
  | String a s' =>
      String (if Ascii.eqb a c then d else a) (replace_all c d s')
  end.

Fixpoint drop_spaces (s : string) : string :=
  match s with
  | String c s' => if is_space c then drop_spaces s' else s
  | EmptyString => EmptyString
  end.

Definition trim (s : string) : string :=
  srev (drop_spaces (srev (drop_spaces s))).

(** Digits of [s] in [base], most significant first; [None] when [s] is
    empty or holds another character. *)
Fixpoint digits_go (base : Z) (acc : Z) (s : string) : option Z :=
  match s with
  | EmptyString => Some acc
  | String c s' =>
      match digit_val base c with
      | Some d => digits_go base (acc * base + d) s'
      | None => None
      end
  end.

Definition digits (base : Z) (s : string) : option Z :=
  match s with
  | EmptyString => None
  | _ => digits_go base 0 s
  end.

(** Longest prefix of decimal digits and the rest. *)
Fixpoint span_digits (acc s : string) : string * string :=
  match s with
  | String c s' =>
      if is_digit c then span_digits (String c acc) s' else (srev acc, s)
  | EmptyString => (srev acc, s)
  end.

Definition of_digits (o : option Z) : number :=
  match o with Some z => Fin z | None => NaN end.

(** The unsigned decimal literal [digits (e [+] digits)?]. *)
Definition decimal_literal (s : string) : number :=
  let '(m, rest) := span_digits EmptyString s in
  match digits 10 m, rest with
  | Some v, EmptyString => Fin v
  | Some v, String e r =>
      if Ascii.eqb e "e"%char || Ascii.eqb e "E"%char then
        let r' := match r with
                  | String "+"%char r' => r'
                  | _ => r
                  end in
        match digits 10 r' with
        | Some x => Fin (v * 10 ^ x)
        | None => NaN
        end
      else NaN
  | None, _ => NaN
  end.

(** [+s] (ToNumber) for a string that holds neither '.' nor '-': the
    only strings [default_versionCode] applies it to, as they come out
    of [split('-')[0].split('.')].  White space is trimmed; the empty
    string is 0; the literals are decimal with an optional exponent,
    hexadecimal, octal, binary and [Infinity]. *)
Definition to_number (s : string) : number :=
  let t := trim s in
  match t with
  | EmptyString => Fin 0
  | String "0"%char (String x r) =>
      if Ascii.eqb x "x"%char || Ascii.eqb x "X"%char then of_digits (digits 16 r)
      else if Ascii.eqb x "o"%char || Ascii.eqb x "O"%char then of_digits (digits 8 r)
      else if Ascii.eqb x "b"%char || Ascii.eqb x "B"%char then of_digits (digits 2 r)
      else decimal_literal t
  | String "+"%char r =>
      if String.eqb r "Infinity" then PosInf else decimal_literal r
  | _ =>
      if String.eqb t "Infinity" then PosInf else decimal_literal t
  end.

(** [+x] where [x] may be [undefined] (a missing array element). *)
Definition to_number_opt (o : option string) : number :=
  match o with Some s => to_number s | None => NaN end.

End Js.

(* ===================================================================== *)
(** ** [default_versionCode]                                               *)
(* ===================================================================== *)

(** [default_versionCode(version)]: PATCH + MINOR * 100 + MAJOR * 10000. *)
Definition default_versionCode (version : string) : Js.number :=
  let nums := Js.split "." (hd EmptyString (Js.split "-" version)) in
  let versionCode := Js.Fin 0 in
  let versionCode :=
    if Js.truthy_num (Js.to_number_opt (nums !! 0%nat))
    then Js.num_add versionCode
           (Js.num_mul (Js.to_number_opt (nums !! 0%nat)) (Js.Fin 10000))
    else versionCode in
  let versionCode :=
    if Js.truthy_num (Js.to_number_opt (nums !! 1%nat))
    then Js.num_add versionCode
           (Js.num_mul (Js.to_number_opt (nums !! 1%nat)) (Js.Fin 100))
    else versionCode in
  let versionCode :=
    if Js.truthy_num (Js.to_number_opt (nums !! 2%nat))
    then Js.num_add versionCode (Js.to_number_opt (nums !! 2%nat))
    else versionCode in
  versionCode.

(* ===================================================================== *)
(** ** Paths ([path] of Node.js, POSIX flavour)                            *)
(* ===================================================================== *)

Module Path.

(** An absolute, normalised path: its segments from the root. *)
Abbreviation t := (list string).

(** One normalisation step: "" and "." vanish, ".." removes the segment
    before it (and is dropped at the root). *)
Definition push (acc : t) (seg : string) : t :=
  if String.eqb seg "" || String.eqb seg "." then acc
  else if String.eqb seg ".." then removelast acc
  else acc ++ [seg].

(** [path.join(base, rel)] for an absolute [base]. *)
Definition join (base : t) (rel : string) : t :=
  fold_left push (Js.split "/" rel) base.

(** [path.dirname]; the root is its own parent. *)
Definition dirname (p : t) : t := removelast p.

(** [path.basename]. *)
Definition basename (p : t) : string := List.last p EmptyString.

(** [path.resolve(p, '..')]. *)
Definition parent (p : t) : t := removelast p.

End Path.

(* ===================================================================== *)
(** ** Documents kept in files                                             *)
(* ===================================================================== *)

(** An elementtree element: tag, attributes, text and children. *)
#[warnings="-register-all"]
Inductive element :=
| Element (tag : string) (attrib : list (string * string))
          (text : option string) (children : list element).

Definition tag (e : element) : string :=
  let 'Element t _ _ _ := e in t.
Definition attrib (e : element) : list (string * string) :=
  let 'Element _ a _ _ := e in a.
Definition text (e : element) : option string :=
  let 'Element _ _ x _ := e in x.
Definition children (e : element) : list element :=
  let 'Element _ _ _ c := e in c.

(** [e.attrib[k]]. *)
Fixpoint attr (k : string) (a : list (string * string)) : option string :=
  match a with
  | [] => None
  | (k', v) :: a' => if String.eqb k k' then Some v else attr k a'
  end.

(** A value that is a string or a number (the version code). *)
Inductive strnum := SStr (s : string) | SNum (n : Js.number).

(** Modelled from the spec: [AndroidManifest.js] (required by [prepare.js],
    not among the sources).  The spec only says that the manifest is an XML
    file that stays a valid Android manifest; the model keeps the attributes
    [prepare.js] reads and sets, each setter storing its argument in the
    attribute of its name and returning the manifest. *)
Record AndroidManifest := {
  packageId : string;
  versionName : option string;
  versionCode : option strnum;
  minSdkVersion : option string;
  maxSdkVersion : option string;
  targetSdkVersion : option string;
  orientation : option string;
  launchMode : option string;
  documentLaunchMode : option string
}.

Definition setPackageId (pkg : string) (m : AndroidManifest) : AndroidManifest :=
  {| packageId := pkg; versionName := versionName m;
     versionCode := versionCode m; minSdkVersion := minSdkVersion m;
     maxSdkVersion := maxSdkVersion m; targetSdkVersion := targetSdkVersion m;
     orientation := orientation m; launchMode := launchMode m;
     documentLaunchMode := documentLaunchMode m |}.

Definition setVersionName (v : option string) (m : AndroidManifest) : AndroidManifest :=
  {| packageId := packageId m; versionName := v;
     versionCode := versionCode m; minSdkVersion := minSdkVersion m;
     maxSdkVersion := maxSdkVersion m; targetSdkVersion := targetSdkVersion m;
     orientation := orientation m; launchMode := launchMode m;
     documentLaunchMode := documentLaunchMode m |}.

Definition setVersionCode (v : strnum) (m : AndroidManifest) : AndroidManifest :=
  {| packageId := packageId m; versionName := versionName m;
     versionCode := Some v; minSdkVersion := minSdkVersion m;
     maxSdkVersion := maxSdkVersion m; targetSdkVersion := targetSdkVersion m;
     orientation := orientation m; launchMode := launchMode m;
     documentLaunchMode := documentLaunchMode m |}.

Definition setMinSdkVersion (v : option string) (m : AndroidManifest) : AndroidManifest :=
  {| packageId := packageId m; versionName := versionName m;
     versionCode := versionCode m; minSdkVersion := v;
     maxSdkVersion := maxSdkVersion m; targetSdkVersion := targetSdkVersion m;
     orientation := orientation m; launchMode := launchMode m;
     documentLaunchMode := documentLaunchMode m |}.

Definition setMaxSdkVersion (v : option string) (m : AndroidManifest) : AndroidManifest :=
  {| packageId := packageId m; versionName := versionName m;
     versionCode := versionCode m; minSdkVersion := minSdkVersion m;
     maxSdkVersion := v; targetSdkVersion := targetSdkVersion m;
     orientation := orientation m; launchMode := launchMode m;
     documentLaunchMode := documentLaunchMode m |}.

Definition setTargetSdkVersion (v : option string) (m : AndroidManifest) : AndroidManifest :=
  {| packageId := packageId m; versionName := versionName m;
     versionCode := versionCode m; minSdkVersion := minSdkVersion m;
     maxSdkVersion := maxSdkVersion m; targetSdkVersion := v;
     orientation := orientation m; launchMode := launchMode m;
     documentLaunchMode := documentLaunchMode m |}.

Definition setOrientation (v : string) (m : AndroidManifest) : AndroidManifest :=
  {| packageId := packageId m; versionName := versionName m;
     versionCode := versionCode m; minSdkVersion := minSdkVersion m;
     maxSdkVersion := maxSdkVersion m; targetSdkVersion := targetSdkVersion m;
     orientation := Some v; launchMode := launchMode m;
     documentLaunchMode := documentLaunchMode m |}.

Definition setLaunchMode (v : string) (m : AndroidManifest) : AndroidManifest :=
  {| packageId := packageId m; versionName := versionName m;
     versionCode := versionCode m; minSdkVersion := minSdkVersion m;
     maxSdkVersion := maxSdkVersion m; targetSdkVersion := targetSdkVersion m;
     orientation := orientation m; launchMode := Some v;
     documentLaunchMode := documentLaunchMode m |}.

Definition setDocumentLaunchMode (v : string) (m : AndroidManifest) : AndroidManifest :=
  {| packageId := packageId m; versionName := versionName m;
     versionCode := versionCode m; minSdkVersion := minSdkVersion m;
     maxSdkVersion := maxSdkVersion m; targetSdkVersion := targetSdkVersion m;
     orientation := orientation m; launchMode := launchMode m;
     documentLaunchMode := Some v |}.

(** What a regular file holds: text (sources, images), or a document in
    parsed form.  Parsing and serialising XML are not modelled: a file
    written from a document holds that document. *)
Inductive data :=
| Raw (s : string)
| Xml (root : element)
| Manifest (m : AndroidManifest).

(* ===================================================================== *)
(** ** The file system                                                     *)
(* ===================================================================== *)

Inductive node := File (d : data) | Dir.

Abbreviation FS := (gmap Path.t node).

Module Fs.

Definition existsSync (fs : FS) (p : Path.t) : bool :=
  match fs !! p with Some _ => true | None => false end.

Definition is_dir (fs : FS) (p : Path.t) : bool :=
  match fs !! p with Some Dir => true | _ => false end.

Definition is_file (fs : FS) (p : Path.t) : bool :=
  match fs !! p with Some (File _) => true | _ => false end.

(** [p] is an entry of directory [d]. *)
Definition child_of (d p : Path.t) : Prop :=
  p ≠ [] ∧ Path.dirname p = d.

#[export] Instance child_of_dec d p : Decision (child_of d p).
Proof. unfold child_of. apply _. Defined.

(** The entries of a directory, as paths. *)
Definition entries (fs : FS) (d : Path.t) : list Path.t :=
  (map_to_list (filter (λ kv, child_of d kv.1) fs)).*1.

(** [fs.readdirSync(d)] for a directory. *)
Definition readdir (fs : FS) (d : Path.t) : list string :=
  Path.basename <$> entries fs d.

(** Removal of [p] and of everything below it. *)
Definition remove_tree (p : Path.t) (fs : FS) : FS :=
  filter (λ kv, ¬ p `prefix_of` kv.1) fs.

(** Every entry but the root lies in a directory, and the root is one. *)
Definition wf (fs : FS) : Prop :=
  fs !! [] = Some Dir ∧
  ∀ p n, fs !! p = Some n → p ≠ [] → fs !! Path.dirname p = Some Dir.

End Fs.

(* ===================================================================== *)
(** ** Results and the state monad of the module                           *)
(* ===================================================================== *)

(** What can stop a run: the module's own [CordovaError], a [TypeError]
    of the language, an [Error] thrown by Node's [fs] or by a constructor,
    the exit of the process that shelljs performs on an internal error, and
    [Unmodelled] where the model of an external library does not say what
    happens. *)
Inductive exn :=
| CordovaError (msg : string)
| TypeError
| Error (code : string)
| ProcessExit
| Unmodelled.

Inductive res (A : Type) :=
| Ok (a : A)
| Throw (e : exn).
Arguments Ok {A} a.
Arguments Throw {A} e.

(** A computation on a state [S].  The state that comes with [Throw] is
    the one reached when the exception was raised: what was written before
    stays written. *)
Definition St (S A : Type) : Type := S → res A * S.

#[export] Instance St_ret {S} : MRet (St S) := λ A a s, (Ok a, s).

#[export] Instance St_bind {S} : MBind (St S) := λ A B f m s,
  match m s with
  | (Ok a, s') => f a s'
  | (Throw e, s') => (Throw e, s')
  end.

Definition throw {S A} (e : exn) : St S A := λ s, (Throw e, s).

(** The computations of the module: on the file system. *)
Abbreviation M := (St FS).

Definition get_fs : M FS := λ fs, (Ok fs, fs).
Definition modify (f : FS → FS) : M unit := λ fs, (Ok tt, f fs).

(** [xs.forEach(f)] and the [for] loops over an array. *)
Fixpoint forEach {A} (f : A → M unit) (xs : list A) : M unit :=
  match xs with
  | [] => mret tt
  | x :: xs' => f x ;; forEach f xs'
  end.

(* ===================================================================== *)
(** ** Node's [fs] module                                                  *)
(* ===================================================================== *)

Module NodeFs.

(** [fs.mkdirSync(p)]: not recursive. *)
Definition mkdirSync (p : Path.t) : M unit := λ fs,
  if Fs.existsSync fs p then (Throw (Error "EEXIST"), fs)
  else if Fs.is_dir fs (Path.dirname p) then (Ok tt, <[p := Dir]> fs)
  else (Throw (Error "ENOENT"), fs).

(** [fs.writeFileSync(p, d)]. *)
Definition writeFileSync (p : Path.t) (d : data) : M unit := λ fs,
  if Fs.is_dir fs p then (Throw (Error "EISDIR"), fs)
  else if Fs.is_dir fs (Path.dirname p) then (Ok tt, <[p := File d]> fs)
  else (Throw (Error "ENOENT"), fs).

(** [fs.readdirSync(p)]. *)
Definition readdirSync (p : Path.t) : M (list string) := λ fs,
  match fs !! p with
  | Some Dir => (Ok (Fs.readdir fs p), fs)
  | Some (File _) => (Throw (Error "ENOTDIR"), fs)
  | None => (Throw (Error "ENOENT"), fs)
  end.

(** [fs.rmdirSync(p)]: only an empty directory goes. *)
Definition rmdirSync (p : Path.t) : M unit := λ fs,
  match fs !! p with
  | Some Dir =>
      match Fs.readdir fs p with
      | [] => (Ok tt, delete p fs)
      | _ => (Throw (Error "ENOTEMPTY"), fs)
      end
  | Some (File _) => (Throw (Error "ENOTDIR"), fs)
  | None => (Throw (Error "ENOENT"), fs)
  end.

End NodeFs.

(* ===================================================================== *)
(** ** Regular expressions of the module                                   *)
(* ===================================================================== *)

Module Re.

(** [/extends\s+CordovaActivity/] matched at the start of [s]. *)
Definition extends_here (s : string) : bool :=
  match Js.strip_prefix "extends" s with
  | Some (String c r) =>
      Js.is_space c && Js.starts_with "CordovaActivity" (Js.drop_spaces r)
  | _ => false
  end.

(** [line.match(/extends\s+CordovaActivity/g)] is not null. *)
Fixpoint extends_CordovaActivity (s : string) : bool :=
  extends_here s ||
  match s with
  | String _ r => extends_CordovaActivity r
  | EmptyString => false
  end.

(** Longest prefix of [\w] and '.' characters, and the rest. *)
Fixpoint span_name (acc s : string) : string * string :=
  match s with
  | String c s' =>
      if Js.is_word c || Ascii.eqb c "."%char
      then span_name (String c acc) s' else (Js.srev acc, s)
  | EmptyString => (Js.srev acc, s)
  end.

(** [/package [\w\.]*;/] matched at the start of [s]: the text matched
    and what follows it. *)
Definition package_here (s : string) : option (string * string) :=
  match Js.strip_prefix "package " s with
  | Some r =>
      match span_name EmptyString r with
      | (name, String ";"%char after) =>
          Some ("package " +:+ name +:+ ";", after)
      | _ => None
      end
  | None => None
  end.

(** First match of [/package [\w\.]*;/] in [s]: the text before it, the
    text matched and the text after it. *)
Fixpoint find_package (before s : string) : option (string * string * string) :=
  match package_here s with
  | Some (m, after) => Some (Js.srev before, m, after)
  | None =>
      match s with
      | String c r => find_package (String c before) r
      | EmptyString => None
      end
  end.

(** The replacement text of [String.prototype.replace] for a pattern
    without groups: "$$" is a dollar, "$&" the match, "$`" the text
    before it and "$'" the text after it. *)
Fixpoint expand (before m after : string) (repl : string) : string :=
  match repl with
  | String "$"%char (String c r as tl) =>
      if Ascii.eqb c "$"%char then String "$"%char (expand before m after r)
      else if Ascii.eqb c "&"%char then m +:+ expand before m after r
      else if Ascii.eqb c "`"%char then before +:+ expand before m after r
      else if Ascii.eqb c "'"%char then after +:+ expand before m after r
      else String "$"%char (expand before m after tl)
  | String c r => String c (expand before m after r)
  | EmptyString => EmptyString
  end.

(** [s.replace(/package [\w\.]*;/, repl)]. *)
Definition replace_package (repl : string) (s : string) : string :=
  match find_package EmptyString s with
  | Some (before, m, after) => before +:+ expand before m after repl +:+ after
  | None => s
  end.

(** [s.split(/\r*\n/)]. *)
Fixpoint drop_cr (s : string) : string :=
  match s with
  | String c s' => if (Js.code c =? 13)%N then drop_cr s' else s
  | EmptyString => EmptyString
  end.

Definition strip_cr (s : string) : string := Js.srev (drop_cr (Js.srev s)).

Fixpoint strip_cr_but_last (ls : list string) : list string :=
  match ls with
  | [] => []
  | [l] => [l]
  | l :: ls' => strip_cr l :: strip_cr_but_last ls'
  end.

Definition lines (s : string) : list string :=
  strip_cr_but_last (Js.split "010"%char s).

End Re.

(* ===================================================================== *)
(** ** shelljs, as far as the module uses it                               *)
(* ===================================================================== *)

(** A shelljs command reports its own errors on the console and returns; it
    never throws to its caller.  An error raised by Node inside a command is
    an "internal error" and ends the process. *)
Module Shell.

(** A name that the wildcard [*] matches: not a hidden one. *)
Definition visible (name : string) : bool := negb (Js.starts_with "." name).

(** [p] lies below [src], its first segment below [src] being visible:
    what [src/*] and the recursion into directories reach. *)
Definition reached (src p : Path.t) : Prop :=
  src `prefix_of` p ∧
  match drop (length src) p with
  | [] => False
  | n :: _ => visible n = true
  end.

#[export] Instance reached_dec src p : Decision (reached src p).
Proof. unfold reached. destruct (drop (length src) p); apply _. Defined.

(** The path below [dest] that corresponds to [p] below [src]. *)
Definition retarget (src dest p : Path.t) : Path.t :=
  dest ++ drop (length src) p.

(** The entries that [cp -r src/* dest] writes, at their targets. *)
Definition layer (src dest : Path.t) (fs : FS) : FS :=
  list_to_map
    (prod_map (retarget src dest) id
       <$> map_to_list (filter (λ kv, reached src kv.1) fs)).

(** One entry copied over what is there: a file replaces a file, a
    directory that exists is kept ([EEXIST] is ignored). *)
Definition cp_merge (new old : option node) : option node :=
  match new, old with
  | Some (File d), _ => Some (File d)
  | Some Dir, Some x => Some x
  | Some Dir, None => Some Dir
  | None, x => x
  end.

Definition merged (l fs : FS) : FS := merge cp_merge l fs.

(** An entry that cannot be written: a file onto a directory, or an entry
    whose parent is not a directory. *)
Definition clash_at (l fs : FS) (q : Path.t) (n : node) : bool :=
  match n with
  | File _ => Fs.is_dir fs q
  | Dir => false
  end || negb (Fs.is_dir (merged l fs) (Path.dirname q)).

Definition clash (l fs : FS) : bool :=
  existsb (λ kv, clash_at l fs kv.1 kv.2) (map_to_list l).

(** [shell.cp('-rf', path.join(src, '*'), dest)].  shelljs first tries to
    create [dest]; a missing [src] is reported and nothing is copied; a
    [src] that is a file makes [readdirSync] fail inside the command.
    When an entry cannot be written shelljs stops in the middle of the
    copy, at a point that depends on the order of [readdirSync]: the
    model does not follow it there. *)
Definition cp_rf_star (src dest : Path.t) : M unit := λ fs,
  let fs1 :=
    match NodeFs.mkdirSync dest fs with
    | (Ok _, fs') => fs'
    | (Throw _, _) => fs
    end in
  match fs1 !! src with
  | None => (Ok tt, fs1)
  | Some (File _) => (Throw ProcessExit, fs1)
  | Some Dir =>
      let l := layer src dest fs1 in
      if clash l fs1 then (Throw Unmodelled, fs1)
      else (Ok tt, merged l fs1)
  end.

(** [shell.cp('-f', src, dest)] for one source: a missing source and a
    directory are reported and skipped; into an existing directory the
    file keeps its name; a target that cannot be written is reported. *)
Definition cp_f (src dest : Path.t) : M unit := λ fs,
  match fs !! src with
  | Some (File d) =>
      let thisDest :=
        if Fs.is_dir fs dest then dest ++ [Path.basename src]
        else dest in
      if Fs.is_dir fs thisDest then (Ok tt, fs)
      else if Fs.is_dir fs (Path.dirname thisDest)
           then (Ok tt, <[thisDest := File d]> fs)
           else (Ok tt, fs)
  | _ => (Ok tt, fs)
  end.

(** [shell.rm('-f', p)] for one path: only a regular file goes. *)
Definition rm_f1 (p : Path.t) : M unit := λ fs,
  if Fs.is_file fs p then (Ok tt, delete p fs) else (Ok tt, fs).

(** [shell.rm('-f', [p1, p2, ...])]. *)
Definition rm_f (ps : list Path.t) : M unit := forEach rm_f1 ps.

(** [shell.rm('-rf', p)] and [shell.rm('-Rf', p)]. *)
Definition rm_rf (p : Path.t) : M unit := modify (Fs.remove_tree p).

(** Directories created from the root downwards, for [mkdir -p]. *)
Fixpoint mkdirs (made : Path.t) (todo : list string) : M unit := λ fs,
  match todo with
  | [] => (Ok tt, fs)
  | n :: rest =>
      let p := made ++ [n] in
      match fs !! p with
      | Some Dir => mkdirs p rest fs
      | Some (File _) => (Throw ProcessExit, fs)
      | None => mkdirs p rest (<[p := Dir]> fs)
      end
  end.

(** [shell.mkdir('-p', p)]: nothing to do when [p] exists; otherwise the
    missing directories are created; a file on the way makes
    [mkdirSync] fail inside the command. *)
Definition mkdir_p (p : Path.t) : M unit := λ fs,
  if Fs.existsSync fs p then (Ok tt, fs) else mkdirs [] p fs.

(** A name matched by the pattern [pre*suf]. *)
Definition glob (pre suf name : string) : bool :=
  visible name && Js.starts_with pre name && Js.ends_with suf name
  && (String.length pre + String.length suf <=? String.length name)%nat.

(** [shell.ls(path.join(dir, pre + '*' + suf))]: the matching entries of
    [dir], as paths; none when [dir] does not exist. *)
Definition ls (dir : Path.t) (pre suf : string) : M (list Path.t) := λ fs,
  match fs !! dir with
  | Some Dir =>
      (Ok (List.filter (λ p, glob pre suf (Path.basename p)) (Fs.entries fs dir)), fs)
  | Some (File _) => (Throw ProcessExit, fs)
  | None => (Ok [], fs)
  end.

(** [shell.grep(re, file)]: the matching lines, each followed by a line
    feed; a missing file is reported and gives the empty string; a
    directory makes [readFileSync] fail inside the command. *)
Definition grep (re : string → bool) (file : Path.t) : M string := λ fs,
  match fs !! file with
  | Some (File (Raw s)) =>
      (Ok (String.concat ""
             ((λ l, l +:+ String "010"%char "") <$> List.filter re (Re.lines s))), fs)
  | Some (File _) => (Throw Unmodelled, fs)
  | Some Dir => (Throw ProcessExit, fs)
  | None => (Ok "", fs)
  end.

(** [shell.sed(/package [\w\.]*;/, repl, file)]: the text of the file
    after the replacement, [None] (JavaScript's [null]) when the file is
    missing. *)
Definition sed_package (repl : string) (file : Path.t) : M (option string) := λ fs,
  match fs !! file with
  | Some (File (Raw s)) => (Ok (Some (Re.replace_package repl s)), fs)
  | Some (File _) => (Throw Unmodelled, fs)
  | Some Dir => (Throw ProcessExit, fs)
  | None => (Ok None, fs)
  end.

(** [s.to(file)]: nothing is written when the directory of [file] does
    not exist or the file cannot be written. *)
Definition to (s : string) (file : Path.t) : M unit := λ fs,
  if Fs.is_dir fs file then (Ok tt, fs)
  else if Fs.is_dir fs (Path.dirname file)
       then (Ok tt, <[file := File (Raw s)]> fs)
       else (Ok tt, fs).

End Shell.

(* ===================================================================== *)
(** ** cordova-common: what the module takes from it                       *)
(* ===================================================================== *)

(** An icon or splash screen as [ConfigParser] returns it.  A width or
    height is a non-zero number or [undefined]; a width that is not an
    integer behaves like any size absent from the density table. *)
Record resource := {
  src : string;
  density : option string;
  platform : option string;
  width : option Z;
  height : option Z
}.

(** The array returned by [getIcons] and [getSplashScreens], with its
    [defaultResource] property. *)
Record resources := {
  items : list resource;
  defaultResource : option resource
}.

(** A [ConfigParser] object: the path of its file and its document. *)
Record ConfigParser := {
  path : Path.t;
  doc : element
}.

(** The methods of [ConfigParser] that the module calls, as functions of
    the document root, and [xmlHelpers.mergeXml], which returns the merged
    destination root here (in JavaScript it updates it in place).  Both are
    code of cordova-common: every definition and theorem below holds for
    any implementation of them. *)
Class CordovaCommon := {
  name : element → option string;
  packageName : element → option string;
  android_packageName : element → option string;
  version : element → option string;
  android_versionCode : element → option string;
  getPreference : element → string → option string → option string;
  getIcons : element → string → resources;
  getSplashScreens : element → string → resources;
  mergeXml : element → element → string → bool → element
}.

(** The [ConfigChanges] object of the platform: what
    [reapply_global_munge().save_all()] does to the files. *)
Record ConfigChanges := {
  reapply_global_munge_save_all : FS → FS
}.

(** [xmlHelpers.parseElementtreeSync(p)]. *)
Definition parseElementtreeSync (p : Path.t) : M element := λ fs,
  match fs !! p with
  | Some (File (Xml root)) => (Ok root, fs)
  | Some (File _) => (Throw (Error "parse"), fs)
  | Some Dir => (Throw (Error "EISDIR"), fs)
  | None => (Throw (Error "ENOENT"), fs)
  end.

(** [new ConfigParser(p)]. *)
Definition new_ConfigParser (p : Path.t) : M ConfigParser :=
  root ← parseElementtreeSync p;
  mret {| path := p; doc := root |}.

(** [config.write()]. *)
Definition ConfigParser_write (c : ConfigParser) : M unit :=
  NodeFs.writeFileSync (path c) (Xml (doc c)).

(** Modelled from the spec: the constructor of [AndroidManifest.js], which
    is not among the sources; it reads the manifest file and fails when the
    file is not a manifest. *)
Definition new_AndroidManifest (p : Path.t) : M AndroidManifest := λ fs,
  match fs !! p with
  | Some (File (Manifest m)) => (Ok m, fs)
  | Some (File _) => (Throw (Error "manifest"), fs)
  | Some Dir => (Throw (Error "EISDIR"), fs)
  | None => (Throw (Error "ENOENT"), fs)
  end.

(** Modelled from the spec: [manifest.write()] of [AndroidManifest.js],
    which writes the manifest back to its file. *)
Definition AndroidManifest_write (p : Path.t) (m : AndroidManifest) : M unit :=
  NodeFs.writeFileSync p (Manifest m).

(** [strings.find('string[@name="app_name"]').text = name]: the first
    child of the root with that tag and attribute; [None] when [find]
    returns [null]. *)
Definition is_app_name (e : element) : bool :=
  String.eqb (tag e) "string" &&
  match attr "name" (attrib e) with
  | Some v => String.eqb v "app_name"
  | None => false
  end.

Fixpoint set_first_text (new : option string) (es : list element) : option (list element) :=
  match es with
  | [] => None
  | e :: es' =>
      if is_app_name e
      then Some (Element (tag e) (attrib e) new (children e) :: es')
      else cons e <$> set_first_text new es'
  end.

Definition set_app_name (new : option string) (root : element) : option element :=
  Element (tag root) (attrib root) (text root) <$> set_first_text new (children root).

(* ===================================================================== *)
(** ** The project and the platform                                        *)
(* ===================================================================== *)

(** The [locations] map of the platform. *)
Record Locations := {
  root : Path.t;
  www : Path.t;
  platformWww : Path.t;
  configXml : Path.t;
  defaultConfigXml : Path.t;
  strings : Path.t;
  manifest : Path.t
}.

(** The [cordovaProject] object: its root, its [locations.www] and its
    [projectConfig]. *)
Record CordovaProject := {
  project_root : Path.t;
  project_www : Path.t;
  projectConfig : ConfigParser
}.

(** The platform object on which [prepare] is called ([this]). *)
Record Api := {
  _munger : ConfigChanges;
  locations : Locations;
  api_root : Path.t;
  _config : option ConfigParser
}.

(* ===================================================================== *)
(** ** JavaScript objects used as maps                                     *)
(* ===================================================================== *)

(** An object with string keys, its properties in creation order.  (The
    key ["__proto__"], which is no ordinary property, is outside the
    model.) *)
Module Obj.

Section Obj.
Context {V : Type}.

Definition t := list (string * V).

(** [o[k]]. *)
Fixpoint get (k : string) (o : list (string * V)) : option V :=
  match o with
  | [] => None
  | (k', v) :: o' => if String.eqb k k' then Some v else get k o'
  end.

(** [o[k] = v]: an existing property keeps its place. *)
Fixpoint set (k : string) (v : V) (o : list (string * V)) : list (string * V) :=
  match o with
  | [] => [(k, v)]
  | (k', v') :: o' =>
      if String.eqb k k' then (k, v) :: o' else (k', v') :: set k v o'
  end.

(** The value of a key that is an array index: a canonical decimal
    numeral below 2^32 - 1. *)
Definition array_index (k : string) : option Z :=
  match k with
  | String "0"%char (String _ _) => None
  | _ =>
      match Js.digits 10 k with
      | Some n => if n <? 4294967295 then Some n else None
      | None => None
      end
  end.

Fixpoint insert_by_index (n : Z) (kv : string * V) (l : list (Z * (string * V)))
  : list (Z * (string * V)) :=
  match l with
  | [] => [(n, kv)]
  | (m, kv') :: l' =>
      if n <? m then (n, kv) :: l else (m, kv') :: insert_by_index n kv l'
  end.

Definition indexed (o : list (string * V)) : list (Z * (string * V)) :=
  omap (λ kv, (λ n, (n, kv)) <$> array_index kv.1) o.

Definition named (o : list (string * V)) : list (string * V) :=
  List.filter (λ kv, match array_index kv.1 with None => true | Some _ => false end) o.

(** The properties in the order of [for (k in o)]: array indices in
    ascending order, then the other keys in creation order. *)
Definition for_in (o : list (string * V)) : list (string * V) :=
  (foldr (λ e acc, insert_by_index e.1 e.2 acc) [] (indexed o)).*2 ++ named o.

End Obj.

End Obj.

(* ===================================================================== *)
(** ** [prepare.js]                                                        *)
(* ===================================================================== *)

(** [s.toLowerCase()], ASCII. *)
Fixpoint toLowerCase (s : string) : string :=
  match s with
  | EmptyString => EmptyString
  | String c s' =>
      String (if Js.in_range 65 90 c then ascii_of_N (Js.code c + 32) else c)
             (toLowerCase s')
  end.

(** [a.indexOf(x) >= 0]. *)
Definition includes (x : string) (a : list string) : bool :=
  existsb (String.eqb x) a.

(** [copyImage(src, resourcesDir, density, name)].  The source is a path
    without a trailing slash, so that it ends in [.9.png] when its last
    segment does. *)
Definition copyImage (src resourcesDir : Path.t) (density name : string) : M unit :=
  let destFolder :=
    Path.join resourcesDir
      ((if Js.truthy_str density then "drawable-" else "drawable") +:+ density) in
  let isNinePatch := Js.ends_with ".9.png" (Path.basename src) in
  let ninePatchName := Js.replace_suffix ".png" ".9.png" name in
  fs ← get_fs;
  (if negb (Fs.existsSync fs destFolder)
   then NodeFs.mkdirSync destFolder else mret tt);;
  let destFilePath :=
    Path.join destFolder (if isNinePatch then ninePatchName else name) in
  Shell.cp_f src destFilePath.

(** [deleteDefaultResourceAt(baseDir, resourceName)]. *)
Definition deleteDefaultResourceAt (baseDir : Path.t) (resourceName : string) : M unit :=
  folders ← Shell.ls (Path.join baseDir "res") "drawable-" "";
  forEach (λ drawableFolder,
    let imagePath := Path.join drawableFolder resourceName in
    Shell.rm_f [imagePath;
                Path.join drawableFolder
                  (Js.replace_suffix ".png" ".9.png" resourceName)])
    folders.

(** The table [sizeToDensityMap] of [handleIcons], read at a size that may
    be [undefined]. *)
Definition sizeToDensityMap (icon_size : option Z) : option string :=
  match icon_size with
  | Some 36 => Some "ldpi"
  | Some 48 => Some "mdpi"
  | Some 72 => Some "hdpi"
  | Some 96 => Some "xhdpi"
  | Some 144 => Some "xxhdpi"
  | Some 192 => Some "xxxhdpi"
  | _ => None
  end.

(** Truthiness of a size. *)
Definition truthy_size (s : option Z) : bool :=
  match s with Some z => negb (z =? 0) | None => false end.

(** [parseIcon(icon, icon_size)] of [handleIcons], on the object
    [android_icons] that it updates. *)
Definition parseIcon (android_icons : list (string * resource))
    (icon : resource) (icon_size : option Z) : list (string * resource) :=
  let density := Js.or_else (density icon) (sizeToDensityMap icon_size) in
  match density with
  | Some d =>
      if negb (Js.truthy_str d) then android_icons
      else
        let previous := Obj.get d android_icons in
        match previous with
        | Some prev =>
            if Js.truthy (platform prev) then android_icons
            else Obj.set d icon android_icons
        | None => Obj.set d icon android_icons
        end
  | None => android_icons
  end.

(** The first loop of [handleIcons]: [android_icons] and [default_icon]
    after the icons [icons]. *)
Fixpoint scanIcons (icons : list resource)
    (android_icons : list (string * resource)) (default_icon : option resource)
  : list (string * resource) * option resource :=
  match icons with
  | [] => (android_icons, default_icon)
  | icon :: rest =>
      let size := width icon in
      let size := if negb (truthy_size size) then height icon else size in
      if negb (truthy_size size) && negb (Js.truthy (density icon)) then
        match default_icon with
        | Some _ => scanIcons rest android_icons default_icon
        | None => scanIcons rest android_icons (Some icon)
        end
      else scanIcons rest (parseIcon android_icons icon size) default_icon
  end.

Section Prepare.

Context {CC : CordovaCommon}.

(** [handleIcons(projectConfig, platformRoot)]. *)
Definition handleIcons (projectConfig : ConfigParser) (platformRoot : Path.t) : M unit :=
  let icons := items (getIcons (doc projectConfig) "android") in
  match icons with
  | [] => mret tt
  | _ =>
      deleteDefaultResourceAt platformRoot "icon.png";;
      let '(android_icons, default_icon) := scanIcons icons [] None in
      let projectRoot := Path.dirname (path projectConfig) in
      let destination := Path.join platformRoot "res" in
      forEach (λ kv : string * resource,
                 copyImage (Path.join projectRoot (src kv.2)) destination kv.1 "icon.png")
              (Obj.for_in android_icons);;
      match default_icon, Obj.get "mdpi" android_icons with
      | Some default_icon, None =>
          copyImage (Path.join projectRoot (src default_icon)) destination "mdpi" "icon.png"
      | _, _ => mret tt
      end
  end.

(** The body of the [forEach] of [handleSplashes]; it returns the new
    value of [hadMdpi]. *)
Definition splashStep (projectRoot destination : Path.t)
    (hadMdpi : bool) (resource : resource) : M bool :=
  match density resource with
  | Some d =>
      if negb (Js.truthy_str d) then mret hadMdpi
      else
        let hadMdpi := if String.eqb d "mdpi" then true else hadMdpi in
        copyImage (Path.join projectRoot (src resource)) destination d "screen.png";;
        mret hadMdpi
  | None => mret hadMdpi
  end.

Fixpoint splashLoop (projectRoot destination : Path.t)
    (hadMdpi : bool) (rs : list resource) : M bool :=
  match rs with
  | [] => mret hadMdpi
  | r :: rs' =>
      h ← splashStep projectRoot destination hadMdpi r;
      splashLoop projectRoot destination h rs'
  end.

(** [handleSplashes(projectConfig, platformRoot)]. *)
Definition handleSplashes (projectConfig : ConfigParser) (platformRoot : Path.t) : M unit :=
  let resources := getSplashScreens (doc projectConfig) "android" in
  match items resources with
  | [] => mret tt
  | _ =>
      deleteDefaultResourceAt platformRoot "screen.png";;
      let projectRoot := Path.dirname (path projectConfig) in
      let destination := Path.join platformRoot "res" in
      hadMdpi ← splashLoop projectRoot destination false (items resources);
      match hadMdpi, defaultResource resources with
      | false, Some default =>
          copyImage (Path.join projectRoot (src default)) destination "mdpi" "screen.png"
      | _, _ => mret tt
      end
  end.

(** [findAndroidLaunchModePreference(platformConfig)]. *)
Definition findAndroidLaunchModePreference (platformConfig : ConfigParser) : string :=
  let launchMode := getPreference (doc platformConfig) "AndroidLaunchMode" None in
  match launchMode with
  | Some m => if Js.truthy_str m then m else "singleTop"
  | None => "singleTop"
  end.

(** [findOrientationValue(platformConfig)]. *)
Definition findOrientationValue (platformConfig : ConfigParser) : string :=
  let ORIENTATION_DEFAULT := "default" in
  let orientation := getPreference (doc platformConfig) "orientation" None in
  match orientation with
  | Some o =>
      if negb (Js.truthy_str o) then ORIENTATION_DEFAULT
      else if includes (toLowerCase o) ["default"; "portrait"; "landscape"]
           then o else ORIENTATION_DEFAULT
  | None => ORIENTATION_DEFAULT
  end.

(** [findAndroidDocumentLaunchModePreference(platformConfig)]. *)
Definition findAndroidDocumentLaunchModePreference (platformConfig : ConfigParser) : string :=
  let launchMode := getPreference (doc platformConfig) "AndroidDocumentLaunchMode" None in
  match launchMode with
  | Some m => if Js.truthy_str m then m else "none"
  | None => "none"
  end.

(** [updateConfigFilesFrom(sourceConfig, configMunger, locations)]. *)
Definition updateConfigFilesFrom (sourceConfig : ConfigParser)
    (configMunger : ConfigChanges) (locations : Locations) : M ConfigParser :=
  Shell.cp_f (defaultConfigXml locations) (configXml locations);;
  modify (reapply_global_munge_save_all configMunger);;
  config ← new_ConfigParser (configXml locations);
  let config :=
    {| path := path config;
       doc := mergeXml (doc sourceConfig) (doc config) "android" true |} in
  ConfigParser_write config;;
  mret config.

(** [updateWwwFrom(cordovaProject, destinations)]. *)
Definition updateWwwFrom (cordovaProject : CordovaProject) (destinations : Locations) : M unit :=
  Shell.rm_rf (www destinations);;
  Shell.mkdir_p (www destinations);;
  Shell.cp_rf_star (project_www cordovaProject) (www destinations);;
  Shell.cp_rf_star (platformWww destinations) (www destinations);;
  let merges_path := Path.join (Path.join (project_root cordovaProject) "merges") "android" in
  fs ← get_fs;
  if Fs.existsSync fs merges_path
  then Shell.cp_rf_star merges_path (www destinations)
  else mret tt.

(** The [while] loop of [updateProjectAccordingTo] that removes the
    directories left empty, on the segments of [currentDir] in reverse
    order.  At the root [path.resolve(currentDir, '..')] is the root
    again, which no longer exists once removed: the loop ends there. *)
Fixpoint removeEmptyDirs (sourcesRoot : Path.t) (currentDir_rev : list string) : M unit :=
  let currentDir := rev currentDir_rev in
  if decide (currentDir = sourcesRoot) then mret tt
  else
    fs ← get_fs;
    if Fs.existsSync fs currentDir then
      names ← NodeFs.readdirSync currentDir;
      match names with
      | [] =>
          NodeFs.rmdirSync currentDir;;
          match currentDir_rev with
          | [] => mret tt
          | _ :: up => removeEmptyDirs sourcesRoot up
          end
      | _ => mret tt
      end
    else mret tt.

(** [xs.filter(f)] for a callback that reads the file system. *)
Fixpoint filterM {A} (f : A → M bool) (xs : list A) : M (list A) :=
  match xs with
  | [] => mret []
  | x :: xs' =>
      b ← f x;
      r ← filterM f xs';
      mret (if b : bool then x :: r else r)
  end.

(** The package identifier that [updateProjectAccordingTo] derives;
    [None] when [replace] is called on [undefined]. *)
Definition derived_pkg (platformConfig : ConfigParser) : option string :=
  match Js.or_else (android_packageName (doc platformConfig))
                   (packageName (doc platformConfig)) with
  | Some s => Some (Js.replace_all "-" "_" s)
  | None => None
  end.

(** The second half of [updateProjectAccordingTo], from
    [var javaPattern] to the end: the main activity is written into the
    directory of the package [pkg] and, when the package has changed,
    removed from the directory of [orig_pkg]. *)
Definition relocateMainActivity (locations : Locations)
    (orig_pkg pkg : string) : M unit :=
  let sources := Path.join (root locations) "src" in
  let javaDir := Path.join sources (Js.replace_all "." "/" orig_pkg) in
  candidates ← Shell.ls javaDir "" ".java";
  java_files ← filterM (λ f, g ← Shell.grep Re.extends_CordovaActivity f;
                             mret (Js.truthy_str g)) candidates;
  match java_files with
  | [] => throw (CordovaError "No Java files found which extend CordovaActivity.")
  | java_file :: _ =>
      let destFile :=
        Path.join (Path.join sources (Js.replace_all "." "/" pkg))
                  (Path.basename java_file) in
      Shell.mkdir_p (Path.dirname destFile);;
      sed ← Shell.sed_package ("package " +:+ pkg +:+ ";") java_file;
      match sed with
      | Some s => Shell.to s destFile
      | None => throw TypeError
      end;;
      if negb (String.eqb orig_pkg pkg) then
        Shell.rm_rf java_file;;
        let currentDir := Path.dirname java_file in
        let sourcesRoot := Path.join (root locations) "src" in
        removeEmptyDirs sourcesRoot (rev currentDir)
      else mret tt
  end.

(** The value passed to [setVersionCode]; [None] when [split] is called
    on [undefined]. *)
Definition versionCode_of (platformConfig : ConfigParser) : option strnum :=
  if Js.truthy (android_versionCode (doc platformConfig))
  then SStr <$> android_versionCode (doc platformConfig)
  else SNum ∘ default_versionCode <$> version (doc platformConfig).

(** The manifest as [updateProjectAccordingTo] writes it. *)
Definition updateManifest (platformConfig : ConfigParser) (pkg : string)
    (versionCode : strnum) (manifest_obj : AndroidManifest) : AndroidManifest :=
  let manifest_obj :=
    setDocumentLaunchMode (findAndroidDocumentLaunchModePreference platformConfig)
      (setLaunchMode (findAndroidLaunchModePreference platformConfig)
         (setOrientation (findOrientationValue platformConfig) manifest_obj)) in
  setTargetSdkVersion (getPreference (doc platformConfig) "android-targetSdkVersion" (Some "android"))
    (setMaxSdkVersion (getPreference (doc platformConfig) "android-maxSdkVersion" (Some "android"))
       (setMinSdkVersion (getPreference (doc platformConfig) "android-minSdkVersion" (Some "android"))
          (setPackageId pkg
             (setVersionCode versionCode
                (setVersionName (version (doc platformConfig)) manifest_obj))))).

(** [updateProjectAccordingTo(platformConfig, locations)]. *)
Definition updateProjectAccordingTo (platformConfig : ConfigParser)
    (locations : Locations) : M unit :=
  let name := name (doc platformConfig) in
  strings_doc ← parseElementtreeSync (strings locations);
  strings_doc ← match set_app_name name strings_doc with
                | Some d => mret d
                | None => throw TypeError
                end;
  NodeFs.writeFileSync (strings locations) (Xml strings_doc);;
  pkg ← match derived_pkg platformConfig with
        | Some pkg => mret pkg
        | None => throw TypeError
        end;
  manifest_obj ← new_AndroidManifest (manifest locations);
  let orig_pkg := packageId manifest_obj in
  versionCode ← match versionCode_of platformConfig with
                | Some v => mret v
                | None => throw TypeError
                end;
  AndroidManifest_write (manifest locations)
    (updateManifest platformConfig pkg versionCode manifest_obj);;
  relocateMainActivity locations orig_pkg pkg.

End Prepare.

(* ===================================================================== *)
(** ** Promises of Q and [prepare]                                         *)
(* ===================================================================== *)

(** A settled promise. *)
Inductive promise (A : Type) :=
| Fulfilled (a : A)
| Rejected (e : exn).
Arguments Fulfilled {A} a.
Arguments Rejected {A} e.

(** [Q.when(v)] for a value that is no promise. *)
Definition Q_when {A} (v : A) : promise A := Fulfilled v.

(** [p.then(f)]: the callback runs once [p] is fulfilled, and what it throws
    rejects the promise returned; a rejection skips the callback.  The end
    of the process, and a step outside the model, are no exceptions that a
    promise catches.  Q runs a callback in a later turn of the event loop;
    the module has no other work queued, so the model runs it at once. *)
Definition then_ {S A B} (p : promise A) (f : A → St S B) : St S (promise B) := λ s,
  match p with
  | Fulfilled a =>
      match f a s with
      | (Ok b, s') => (Ok (Fulfilled b), s')
      | (Throw ProcessExit, s') => (Throw ProcessExit, s')
      | (Throw Unmodelled, s') => (Throw Unmodelled, s')
      | (Throw e, s') => (Ok (Rejected e), s')
      end
  | Rejected e => (Ok (Rejected e), s)
  end.

(** The body of [prepare] over its five calls: [config] stands for
    [updateConfigFilesFrom(...)], whose result is kept in [this._config],
    [wwwFrom] for [updateWwwFrom(...)], the argument of [Q.when], and the
    others for the calls made in the callbacks. *)
Definition prepare_with {S} (config : St S ConfigParser) (wwwFrom : St S unit)
    (projectAccordingTo : ConfigParser → St S unit)
    (icons splashes : St S unit) : St S (ConfigParser * promise unit) :=
  _config ← config;
  w ← wwwFrom;
  p ← then_ (Q_when w) (λ _, projectAccordingTo _config);
  p ← then_ p (λ _, icons;; splashes);
  p ← then_ p (λ _, mret tt);
  mret (_config, p).

Section PrepareEntry.

Context {CC : CordovaCommon}.

(** [prepare(cordovaProject)] on the platform object [self]: the
    platform object with its [_config] set, and the promise returned. *)
Definition prepare (self : Api) (cordovaProject : CordovaProject)
  : M (Api * promise unit) :=
  r ← prepare_with
        (updateConfigFilesFrom (projectConfig cordovaProject)
           (_munger self) (locations self))
        (updateWwwFrom cordovaProject (locations self))
        (λ _config, updateProjectAccordingTo _config (locations self))
        (handleIcons (projectConfig cordovaProject) (api_root self))
        (handleSplashes (projectConfig cordovaProject) (api_root self));
  mret ({| _munger := _munger self; locations := locations self;
           api_root := api_root self; _config := Some r.1 |}, r.2).

End PrepareEntry.

(** *** The phases of [prepare], observed *)

Inductive phase := MergeConfig | CopyWww | UpdateProject | CopyIcons | CopySplashes.

Inductive mark := Enter (ph : phase) | Leave (ph : phase).

(** A call that notes its beginning and, when it returns, its end, in a
    log kept beside the file system. *)
Definition observed {A} (ph : phase) (m : M A) : St (FS * list mark) A := λ s,
  match m s.1 with
  | (Ok a, fs') => (Ok a, (fs', s.2 ++ [Enter ph; Leave ph]))
  | (Throw e, fs') => (Throw e, (fs', s.2 ++ [Enter ph]))
  end.

Section PrepareObserved.

Context {CC : CordovaCommon}.

(** [prepare] with each of its five calls observed. *)
Definition prepare_observed (self : Api) (cordovaProject : CordovaProject)
  : St (FS * list mark) (ConfigParser * promise unit) :=
  prepare_with
    (observed MergeConfig
       (updateConfigFilesFrom (projectConfig cordovaProject)
          (_munger self) (locations self)))
    (observed CopyWww (updateWwwFrom cordovaProject (locations self)))
    (λ _config, observed UpdateProject
                  (updateProjectAccordingTo _config (locations self)))
    (observed CopyIcons (handleIcons (projectConfig cordovaProject) (api_root self)))
    (observed CopySplashes (handleSplashes (projectConfig cordovaProject) (api_root self))).

End PrepareObserved.

(** The marks of a run in which every phase returns. *)
Definition phases_in_order : list mark :=
  [Enter MergeConfig; Leave MergeConfig; Enter CopyWww; Leave CopyWww;
   Enter UpdateProject; Leave UpdateProject; Enter CopyIcons; Leave CopyIcons;
   Enter CopySplashes; Leave CopySplashes].

(* ===================================================================== *)
(** * Notions used in the statements                                   *)
(* ===================================================================== *)

(** A string without '/'. *)
Fixpoint no_slash (s : string) : bool :=
  match s with
  | EmptyString => true
  | String c s' => negb (Ascii.eqb c "/"%char) && no_slash s'
  end.

(** A single path segment: not empty, not "." or "..", without '/'. *)
Definition plain (s : string) : bool :=
  no_slash s && negb (String.eqb s "") && negb (String.eqb s ".")
  && negb (String.eqb s "..").

(** The name of the folder of density [d]. *)
Definition drawable_name (d : string) : string :=
  (if Js.truthy_str d then "drawable-" else "drawable") +:+ d.

(** The folder of density [d] below [res]. *)
Definition drawable (res : Path.t) (d : string) : Path.t :=
  res ++ [drawable_name d].

(** The name under which [copyImage] stores [src] when asked for [n]. *)
Definition stored_name (src : Path.t) (n : string) : string :=
  if Js.ends_with ".9.png" (Path.basename src)
  then Js.replace_suffix ".png" ".9.png" n else n.

(** The operations of the monad, unfolded. *)
Ltac munfold :=
  unfold mbind, St_bind, mret, St_ret, get_fs, modify, throw.


(** The size of an icon: its width or, if the width is absent, its height. *)
Definition icon_size (i : resource) : option Z :=
  if truthy_size (width i) then width i else height i.

(** The density of an icon: its density attribute if present, otherwise the
    density of its size in the table; [None] when it has neither. *)
Definition icon_density (i : resource) : option string :=
  if Js.truthy (density i) then density i else sizeToDensityMap (icon_size i).

(** The icon [i] has density [d]. *)
Definition has_density (d : string) (i : resource) : bool :=
  match icon_density i with Some d' => String.eqb d d' | None => false end.

(** The icon has a truthy [platform] field. *)
Definition has_platform (i : resource) : bool := Js.truthy (platform i).

(** The icon that wins density [d]: the first icon of that density with a
    platform, otherwise the last icon of that density. *)
Definition winner (d : string) (icons : list resource) : option resource :=
  let cands := List.filter (has_density d) icons in
  match List.find has_platform cands with
  | Some p => Some p
  | None => last cands
  end.

(** One icon recorded over what is recorded. *)
Definition record (prev : option resource) (i : resource) : option resource :=
  match prev with
  | Some p => if has_platform p then Some p else Some i
  | None => Some i
  end.


(** What a component contributes: its value as a number, and 0 when it is
    missing or not numeric. *)
Definition contribution (c : option string) : Js.number :=
  match c with
  | None => Js.Fin 0
  | Some s =>
      match Js.to_number s with
      | Js.NaN => Js.Fin 0
      | n => n
      end
  end.


(** The file that holds the image of density [d] copied from [source]
    under the name [n]. *)
Definition image_target (res : Path.t) (d : string) (source : Path.t) (n : string) : Path.t :=
  drawable res d ++ [stored_name source n].

(** The images of the list [l], read from [source] and stored below [res]
    under the name [n], can all be written in [fs]. *)
Definition ready (res : Path.t) (n : string) (source : resource → Path.t)
    (l : list (string * resource)) (fs : FS) : Prop :=
  ∀ d w, (d, w) ∈ l →
    no_slash d = true
    ∧ (fs !! drawable res d = None ∨ fs !! drawable res d = Some Dir)
    ∧ fs !! image_target res d (source w) n ≠ Some Dir
    ∧ ¬ res `prefix_of` source w.

(** A relative path that [src/*] reaches: not empty, its first segment
    visible. *)
Definition shown (r : list string) : bool :=
  match r with
  | [] => false
  | x :: _ => Shell.visible x
  end.

(** Two entries of the same kind, or one of them missing. *)
Definition kinds_agree (a b : option node) : Prop :=
  match a, b with
  | Some (File _), Some Dir | Some Dir, Some (File _) => False
  | _, _ => True
  end.

(** The directories that [mkdir -p] creates on the way from [made] to
    [made ++ todo]. *)
Definition on_the_way (made todo q : Path.t) : Prop :=
  ∃ s, q = made ++ s ∧ s ≠ [] ∧ s `prefix_of` todo.

(** Two paths neither of which lies below the other. *)
Definition apart (a b : Path.t) : Prop :=
  ¬ a `prefix_of` b ∧ ¬ b `prefix_of` a.

(** The directory [merges/android] of a project. *)
Definition merges_android (proj : CordovaProject) : Path.t :=
  project_root proj ++ ["merges"; "android"].

(** The characters of a string. *)
Definition chars (s : string) : list ascii := list_ascii_of_string s.

(** The directory of a package below the sources root. *)
Definition package_dir (sources : Path.t) (pkg : string) : Path.t :=
  Path.join sources (Js.replace_all "." "/" pkg).


(** A computation whose final state is related to its initial state by
    [R], whether it returns or throws. *)
Definition changes {A : Type} (R : FS → FS → Prop) (m : M A) : Prop :=
  ∀ fs, R fs (m fs).2.

(** The files outside [sources] stay as they are. *)
Definition outside_kept (sources : Path.t) (fs fs' : FS) : Prop :=
  ∀ p c, ¬ sources `prefix_of` p → fs !! p = Some (File c) → fs' !! p = Some (File c).

#[export] Instance outside_kept_preorder sources : PreOrder (outside_kept sources).
Proof.
  split.
  - by intros fs p c.
  - intros fs1 fs2 fs3 H12 H23 p c Hp H. by apply H23, H12.
Qed.

(** No regular file disappears. *)
Definition files_kept (fs fs' : FS) : Prop :=
  ∀ p, Fs.is_file fs p = true → Fs.is_file fs' p = true.

#[export] Instance files_kept_preorder : PreOrder files_kept.
Proof.
  split.
  - by intros fs p.
  - intros fs1 fs2 fs3 H12 H23 p H. by apply H23, H12.
Qed.

(** The file [p] holds a line that matches [/extends\s+CordovaActivity/]. *)
Definition extends_activity (fs : FS) (p : Path.t) : bool :=
  match fs !! p with
  | Some (File (Raw s)) => existsb Re.extends_CordovaActivity (Re.lines s)
  | _ => false
  end.

(** The Java files of the directory [javaDir] that extend
    [CordovaActivity], in the order of [shell.ls]. *)
Definition activity_files (fs : FS) (javaDir : Path.t) : list Path.t :=
  List.filter (extends_activity fs)
    (List.filter (λ p, Shell.glob "" ".java" (Path.basename p)) (Fs.entries fs javaDir)).

(** Every Java file of the directory is a file with text. *)
Definition java_sources_are_text (fs : FS) (javaDir : Path.t) : Prop :=
  ∀ p, p ∈ Fs.entries fs javaDir →
       Shell.glob "" ".java" (Path.basename p) = true →
       ∃ s, fs !! p = Some (File (Raw s)).

(** The callback of the [filter] of [updateProjectAccordingTo]. *)
Definition is_activity (f : Path.t) : M bool :=
  g ← Shell.grep Re.extends_CordovaActivity f; mret (Js.truthy_str g).

(** The names of the files in the file system are single segments. *)
Definition plain_names (fs : FS) : Prop :=
  ∀ p x, is_Some (fs !! (p ++ [x])) → plain x = true.

Section ProjectDefinitions.

Context {CC : CordovaCommon}.

(** The project is in the state that [updateProjectAccordingTo] expects:
    the string resources hold an [app_name] entry, the manifest is a
    manifest, and the configuration gives a package and a version. *)
Record project_ready (cfg : ConfigParser) (loc : Locations) (fs : FS)
    (pkg : string) (m : AndroidManifest) : Prop := {
  ready_wf : Fs.wf fs;
  ready_strings :
    ∃ sroot, fs !! strings loc = Some (File (Xml sroot))
             ∧ is_Some (set_app_name (name (doc cfg)) sroot);
  ready_pkg : derived_pkg cfg = Some pkg;
  ready_manifest : fs !! manifest loc = Some (File (Manifest m));
  ready_distinct : strings loc ≠ manifest loc;
  ready_version : is_Some (versionCode_of cfg)
}.

(** The file system once [updateProjectAccordingTo] has written the
    string resources and the manifest. *)
Definition manifest_written (cfg : ConfigParser) (loc : Locations) (fs : FS)
    (pkg : string) (m : AndroidManifest) : FS :=
  match fs !! strings loc, versionCode_of cfg with
  | Some (File (Xml sroot)), Some vc =>
      match set_app_name (name (doc cfg)) sroot with
      | Some sroot' =>
          <[manifest loc := File (Manifest (updateManifest cfg pkg vc m))]>
            (<[strings loc := File (Xml sroot')]> fs)
      | None => fs
      end
  | _, _ => fs
  end.

End ProjectDefinitions.










(* ===================================================================== *)
(** ** Checks of the side conditions, by computation                       *)
(* ===================================================================== *)

(** The paths of a file system. *)
Definition paths (fs : FS) : list Path.t := (map_to_list fs).*1.

(** [Fs.wf], decided. *)
Definition wf_check (fs : FS) : bool :=
  Fs.is_dir fs [] &&
  forallb (λ p, match p with [] => true | _ => Fs.is_dir fs (Path.dirname p) end)
          (paths fs).

(** [plain_names], decided. *)
Definition plain_names_check (fs : FS) : bool :=
  forallb (λ p, match p with [] => true | _ => plain (Path.basename p) end) (paths fs).

(** No file stands at [p] or above it. *)
Definition no_file_on (fs : FS) (p : Path.t) : bool :=
  forallb (λ k, negb (Fs.is_file fs (take k p))) (seq 0 (S (length p))).

(** [java_sources_are_text], decided. *)
Definition text_check (fs : FS) (javaDir : Path.t) : bool :=
  forallb (λ p, implb (Shell.glob "" ".java" (Path.basename p))
                  match fs !! p with Some (File (Raw _)) => true | _ => false end)
          (Fs.entries fs javaDir).

(** [kinds_agree], decided. *)
Definition kinds_agree_b (a b : option node) : bool :=
  match a, b with
  | Some (File _), Some Dir | Some Dir, Some (File _) => false
  | _, _ => true
  end.

(** The entries below [a] agree in kind with their counterparts below [b]. *)
Definition layers_check (fs : FS) (a b : Path.t) : bool :=
  forallb (λ p, if decide (a `prefix_of` p)
                then kinds_agree_b (fs !! p) (fs !! (b ++ drop (length a) p))
                else true)
          (paths fs).


(* ===================================================================== *)
(** ** A sample project                                                    *)
(* ===================================================================== *)

(** The application "Hello" and its Android platform, as [cordova create]
    and [cordova platform add android] leave them, with icons and a splash
    screen declared in [config.xml]. *)
Module Hello.

(** A stand-in for cordova-common, for the examples only: the name is the
    text of the [name] element, the identifiers and the version are
    attributes of the root, a preference is a [preference] element, icons
    and splash screens are the [icon] and [splash] elements, and merging
    puts the attributes and children of the source before those of the
    destination. *)
Definition child (t : string) (e : element) : option element :=
  List.find (λ c, String.eqb (tag c) t) (children e).

Definition preference (e : element) (n : string) (platform : option string)
  : option string :=
  c ← List.find (λ c, String.eqb (tag c) "preference"
                      && bool_decide (attr "name" (attrib c) = Some n)) (children e);
  attr "value" (attrib c).

Definition resource_of (e : element) : resource :=
  {| src := default "" (attr "src" (attrib e));
     density := attr "density" (attrib e);
     platform := attr "platform" (attrib e);
     width := attr "width" (attrib e) ≫= Js.digits 10;
     height := attr "height" (attrib e) ≫= Js.digits 10 |}.

Definition static_resources (t : string) (e : element) (platform : string) : resources :=
  let rs := resource_of <$> List.filter (λ c, String.eqb (tag c) t) (children e) in
  {| items := rs;
     defaultResource :=
       List.find (λ r, negb (Js.truthy (density r)) && negb (truthy_size (width r))
                       && negb (truthy_size (height r))) rs |}.

Definition common : CordovaCommon :=
  {| name := λ e, child "name" e ≫= text;
     packageName := λ e, attr "id" (attrib e);
     android_packageName := λ e, attr "android-packageName" (attrib e);
     version := λ e, attr "version" (attrib e);
     android_versionCode := λ e, attr "android-versionCode" (attrib e);
     getPreference := preference;
     getIcons := static_resources "icon";
     getSplashScreens := static_resources "splash";
     mergeXml := λ source dest platform clobber,
       Element (tag dest)
         (if clobber then attrib source ++ attrib dest else attrib dest ++ attrib source)
         (text dest) (children source ++ children dest) |}.

Definition app : Path.t := ["home"; "hello"].

Definition platform_dir : Path.t := app ++ ["platforms"; "android"].

Definition java_dir : Path.t := platform_dir ++ ["src"; "io"; "cordova"; "hello"].

(** [config.xml] of the application: a nine-patch icon for 48 pixels, an
    icon for [hdpi], a default icon and a splash screen. *)
Definition widget : element :=
  Element "widget" [("id", "io.cordova.hello-app"); ("version", "1.2.3")] None
    [ Element "name" [] (Some "Hello") [];
      Element "icon" [("src", "res/logo.9.png"); ("width", "48")] None [];
      Element "icon" [("src", "res/logo.png"); ("density", "hdpi")] None [];
      Element "icon" [("src", "res/any.png")] None [];
      Element "splash" [("src", "res/splash.png"); ("density", "hdpi")] None [] ].

Definition defaults : element :=
  Element "widget" [("version", "1.0.0")] None
    [ Element "preference" [("name", "loglevel"); ("value", "DEBUG")] None [] ].

Definition string_resources : element :=
  Element "resources" [] None
    [ Element "string" [("name", "launcher_name")] (Some "@string/app_name") [];
      Element "string" [("name", "app_name")] (Some "Template") [] ].

Definition android_manifest : AndroidManifest :=
  {| packageId := "io.cordova.hello";
     versionName := Some "1.0";
     versionCode := Some (SStr "1");
     minSdkVersion := Some "14";
     maxSdkVersion := None;
     targetSdkVersion := Some "22";
     orientation := None;
     launchMode := Some "singleTop";
     documentLaunchMode := None |}.

Definition main_activity : string :=
  "package io.cordova.hello;
import org.apache.cordova.*;
public class MainActivity extends CordovaActivity
{
}
".

Definition tree : list (Path.t * node) :=
  [ ([], Dir);
    (["home"], Dir);
    (app, Dir);
    (app ++ ["config.xml"], File (Xml widget));
    (app ++ ["www"], Dir);
    (app ++ ["www"; "index.html"], File (Raw "the page"));
    (app ++ ["www"; "js"], Dir);
    (app ++ ["www"; "js"; "index.js"], File (Raw "the script"));
    (app ++ ["www"; "cordova.js"], File (Raw "a placeholder"));
    (app ++ ["merges"], Dir);
    (app ++ ["merges"; "android"], Dir);
    (app ++ ["merges"; "android"; "index.html"], File (Raw "the page for Android"));
    (app ++ ["res"], Dir);
    (app ++ ["res"; "logo.9.png"], File (Raw "a nine-patch logo"));
    (app ++ ["res"; "logo.png"], File (Raw "a logo"));
    (app ++ ["res"; "any.png"], File (Raw "a logo of no density"));
    (app ++ ["res"; "splash.png"], File (Raw "a splash screen"));
    (app ++ ["platforms"], Dir);
    (platform_dir, Dir);
    (platform_dir ++ ["AndroidManifest.xml"], File (Manifest android_manifest));
    (platform_dir ++ ["cordova"], Dir);
    (platform_dir ++ ["cordova"; "defaults.xml"], File (Xml defaults));
    (platform_dir ++ ["platform_www"], Dir);
    (platform_dir ++ ["platform_www"; "cordova.js"], File (Raw "cordova for Android"));
    (platform_dir ++ ["assets"], Dir);
    (platform_dir ++ ["assets"; "www"], Dir);
    (platform_dir ++ ["assets"; "www"; "stale.js"], File (Raw "from the last build"));
    (platform_dir ++ ["res"], Dir);
    (platform_dir ++ ["res"; "drawable-mdpi"], Dir);
    (platform_dir ++ ["res"; "drawable-mdpi"; "icon.png"], File (Raw "the template icon"));
    (platform_dir ++ ["res"; "values"], Dir);
    (platform_dir ++ ["res"; "values"; "strings.xml"], File (Xml string_resources));
    (platform_dir ++ ["res"; "xml"], Dir);
    (platform_dir ++ ["res"; "xml"; "config.xml"], File (Xml defaults));
    (platform_dir ++ ["src"], Dir);
    (platform_dir ++ ["src"; "io"], Dir);
    (platform_dir ++ ["src"; "io"; "cordova"], Dir);
    (java_dir, Dir);
    (java_dir ++ ["MainActivity.java"], File (Raw main_activity)) ].

Definition fs : FS := list_to_map tree.

(** The same, with a second activity in the package. *)
Definition fs_two_activities : FS :=
  <[java_dir ++ ["Launcher.java"] :=
      File (Raw "package io.cordova.hello;
public class Launcher extends  CordovaActivity {}
")]> fs.

Definition config : ConfigParser :=
  {| path := app ++ ["config.xml"]; doc := widget |}.

Definition project : CordovaProject :=
  {| project_root := app; project_www := app ++ ["www"]; projectConfig := config |}.

Definition locs : Locations :=
  {| root := platform_dir;
     www := platform_dir ++ ["assets"; "www"];
     platformWww := platform_dir ++ ["platform_www"];
     configXml := platform_dir ++ ["res"; "xml"; "config.xml"];
     defaultConfigXml := platform_dir ++ ["cordova"; "defaults.xml"];
     strings := platform_dir ++ ["res"; "values"; "strings.xml"];
     manifest := platform_dir ++ ["AndroidManifest.xml"] |}.

(** A plugin that adds a feature to the platform's [config.xml]. *)
Definition munger : ConfigChanges :=
  {| reapply_global_munge_save_all := λ fs,
       match fs !! configXml locs with
       | Some (File (Xml r)) =>
           <[configXml locs :=
               File (Xml (Element (tag r) (attrib r) (text r)
                            (children r ++ [Element "feature" [("name", "Device")] None []])))]> fs
       | _ => fs
       end |}.

(** The platform object on which [prepare] is called. *)
Definition api : Api :=
  {| _munger := munger; locations := locs; api_root := platform_dir; _config := None |}.

End Hello.

Section AsSpecifiedDefinitions.

Context {CC : CordovaCommon}.


End AsSpecifiedDefinitions.

(** A decidable proposition, decided by evaluation. *)
Ltac by_computation := apply (bool_decide_unpack _); vm_compute; exact I.

(** A number that is neither [NaN] nor negative. *)
Definition not_negative (n : Js.number) : Prop :=
  match n with
  | Js.NaN => False
  | Js.PosInf => True
  | Js.Fin z => 0 ≤ z
  end.

(** The orientations that [findOrientationValue] accepts. *)
Definition GLOBAL_ORIENTATIONS : list string := ["default"; "portrait"; "landscape"].

(** An exception that a promise catches. *)
Definition caught (e : exn) : Prop := e ≠ ProcessExit ∧ e ≠ Unmodelled.

(** [p] lies below [d], and is not [d] itself. *)
Definition below (d p : Path.t) : Prop := d `prefix_of` p ∧ p ≠ d.

(** Only entries below [d] differ between [fs] and [fs']. *)
Definition only_below (d : Path.t) (fs fs' : FS) : Prop :=
  ∀ p, ¬ below d p → fs' !! p = fs !! p.

(** Such changes compose. *)
#[export] Instance only_below_preorder d : PreOrder (only_below d).
Proof.
  split.
  - by intros fs p.
  - intros fs1 fs2 fs3 H12 H23 p Hp. by rewrite H23, H12.
Qed.

(** The value a run returns, or [d] when it throws. *)
Definition returned {A : Type} (d : A) (r : res A * FS) : A :=
  match r.1 with Ok a => a | Throw _ => d end.

(** No density attribute of the resources holds a '/'. *)
Definition densities_check (rs : list resource) : bool :=
  forallb (λ r, match density r with Some d => no_slash d | None => true end) rs.


(** The sample project with another [config.xml]: no image for [mdpi],
    and a default icon and a default splash screen. *)
Module HelloDefaults.

Definition widget : element :=
  Element "widget" [("id", "io.cordova.hello-app"); ("version", "1.2.3")] None
    [ Element "name" [] (Some "Hello") [];
      Element "icon" [("src", "res/logo.png"); ("density", "hdpi")] None [];
      Element "icon" [("src", "res/any.png")] None [];
      Element "splash" [("src", "res/splash.png"); ("density", "hdpi")] None [];
      Element "splash" [("src", "res/any.png")] None [] ].

Definition config : ConfigParser :=
  {| path := Hello.app ++ ["config.xml"]; doc := widget |}.

(** A platform object whose root is not where the platform is. *)
Definition misplaced : Api :=
  {| _munger := Hello.munger; locations := Hello.locs;
     api_root := ["elsewhere"]; _config := None |}.

End HelloDefaults.

(* ===================================================================== *)
(** * Lemmas and theorems                                              *)
(* ===================================================================== *)

(** ** The definitions at work *)

Example default_versionCode_plain : default_versionCode "1.2.3" = Js.Fin 10203.
Proof. reflexivity. Qed.

Example default_versionCode_prerelease :
  default_versionCode "1.2.3-beta.4" = Js.Fin 10203.
Proof. reflexivity. Qed.

Example default_versionCode_short : default_versionCode "2" = Js.Fin 20000.
Proof. reflexivity. Qed.

Example default_versionCode_not_numeric :
  default_versionCode " 7 .x.1e2" = Js.Fin 70100.
Proof. reflexivity. Qed.

Example default_versionCode_hexadecimal :
  default_versionCode "0x10.1" = Js.Fin 160100.
Proof. reflexivity. Qed.

Example join_normalises : Path.join ["a"; "b"] "../c/./d" = ["a"; "c"; "d"].
Proof. reflexivity. Qed.

Example for_in_indices_first :
  Obj.for_in [("b", 1); ("10", 2); ("2", 3)] = [("2", 3); ("10", 2); ("b", 1)].
Proof. reflexivity. Qed.

Example extends_with_blanks :
  Re.extends_CordovaActivity "public class A extends   CordovaActivity {" = true
  ∧ Re.extends_CordovaActivity "public class A extendsCordovaActivity {" = false.
Proof. split; reflexivity. Qed.

Example replace_first_package :
  Re.replace_package "package org.new_one;" "// package a; package b.c;"
    = "// package org.new_one; package b.c;".
Proof. reflexivity. Qed.

Section HelloRuns.

#[local] Existing Instance Hello.common.

(** [prepare] on the sample project: the promise is fulfilled, the
    configuration is kept, and every phase has run. *)
Example prepare_hello :
  let run := prepare_observed Hello.api Hello.project (Hello.fs, []) in
  (∃ c, run.1 = Ok (c, Fulfilled tt)) ∧ run.2.2 = phases_in_order.
Proof. split; [eexists|]; vm_compute; reflexivity. Qed.

(** What [prepare] leaves below the platform: the merged page, the
    renamed package, the icons and the splash screen. *)
Example prepare_hello_files :
  let fs' := (prepare Hello.api Hello.project Hello.fs).2 in
  let p := Hello.platform_dir in
  fs' !! (p ++ ["assets"; "www"; "index.html"]) = Some (File (Raw "the page for Android"))
  ∧ fs' !! (p ++ ["assets"; "www"; "cordova.js"]) = Some (File (Raw "cordova for Android"))
  ∧ fs' !! (p ++ ["assets"; "www"; "stale.js"]) = None
  ∧ fs' !! (p ++ ["src"; "io"; "cordova"; "hello"]) = None
  ∧ Fs.is_file fs' (p ++ ["src"; "io"; "cordova"; "hello_app"; "MainActivity.java"]) = true
  ∧ fs' !! (p ++ ["res"; "drawable-hdpi"; "icon.png"]) = Some (File (Raw "a logo"))
  ∧ fs' !! (p ++ ["res"; "drawable-mdpi"; "icon.png"]) = None
  ∧ fs' !! (p ++ ["res"; "drawable-hdpi"; "screen.png"]) = Some (File (Raw "a splash screen")).
Proof. by vm_compute. Qed.

(** With two activities in the package the first is moved and the other
    stays; without any, a [CordovaError] is thrown. *)
Example hello_two_activities :
  let fs := Hello.fs_two_activities in
  let run := updateProjectAccordingTo Hello.config Hello.locs fs in
  activity_files fs Hello.java_dir
    = [Hello.java_dir ++ ["MainActivity.java"]; Hello.java_dir ++ ["Launcher.java"]]
  ∧ run.1 = Ok tt
  ∧ Fs.entries run.2 (Hello.platform_dir ++ ["src"; "io"; "cordova"; "hello_app"])
      = [Hello.platform_dir ++ ["src"; "io"; "cordova"; "hello_app"; "MainActivity.java"]]
  ∧ Fs.entries run.2 Hello.java_dir = [Hello.java_dir ++ ["Launcher.java"]].
Proof. by vm_compute. Qed.

Example hello_no_activity :
  (updateProjectAccordingTo Hello.config Hello.locs
     (delete (Hello.java_dir ++ ["MainActivity.java"]) Hello.fs)).1
    = Throw (CordovaError "No Java files found which extend CordovaActivity.").
Proof. by vm_compute. Qed.

End HelloRuns.

(** ** Strings and path segments *)

Lemma append_nil_l (s : string) : "" +:+ s = s.
Proof. reflexivity. Qed.

Lemma append_cons c (a b : string) : String c a +:+ b = String c (a +:+ b).
Proof. reflexivity. Qed.

Lemma append_assoc (a b c : string) : (a +:+ b) +:+ c = a +:+ (b +:+ c).
Proof.
  induction a as [|x a IH]; [done|]. by rewrite !append_cons, IH.
Qed.

Lemma append_nil_r s : s +:+ "" = s.
Proof. induction s as [|c s IH]; [done|]. by rewrite append_cons, IH. Qed.

Lemma length_append (a b : string) :
  String.length (a +:+ b) = (String.length a + String.length b)%nat.
Proof.
  induction a as [|x a IH]; [done|]. rewrite append_cons. simpl. by rewrite IH.
Qed.

Lemma eqb_length_ne (s t : string) :
  String.length s ≠ String.length t → String.eqb s t = false.
Proof. intros H. apply String.eqb_neq. intros ->. done. Qed.

Lemma rev_string_app acc s : Js.rev_string acc s = Js.srev s +:+ acc.
Proof.
  unfold Js.srev. revert acc. induction s as [|c s IH]; intros acc; [done|].
  simpl. rewrite (IH (String c acc)), (IH (String c EmptyString)).
  by rewrite append_assoc.
Qed.

Lemma srev_cons c s : Js.srev (String c s) = Js.srev s +:+ String c "".
Proof. unfold Js.srev at 1. simpl. apply rev_string_app. Qed.

Lemma srev_app a b : Js.srev (a +:+ b) = Js.srev b +:+ Js.srev a.
Proof.
  induction a as [|c a IH].
  - rewrite append_nil_l. change (Js.srev "") with "". by rewrite append_nil_r.
  - by rewrite append_cons, !srev_cons, IH, append_assoc.
Qed.

Lemma srev_involutive s : Js.srev (Js.srev s) = s.
Proof.
  induction s as [|c s IH]; [done|].
  by rewrite srev_cons, srev_app, IH.
Qed.

Lemma split_go_no_sep c cur s :
  (∀ a, a ∈ list_ascii_of_string s → a ≠ c) →
  Js.split_go c cur s = [Js.srev cur +:+ s].
Proof.
  revert cur. induction s as [|a s IH]; intros cur H; simpl.
  - by rewrite append_nil_r.
  - destruct (Ascii.eqb_spec a c) as [->|Hne].
    + exfalso. apply (H c); [|done]. simpl. apply elem_of_cons. by left.
    + rewrite IH.
      * by rewrite srev_cons, append_assoc.
      * intros b Hb. apply H. simpl. apply elem_of_cons. by right.
Qed.

Lemma no_slash_spec s :
  no_slash s = true → ∀ a, a ∈ list_ascii_of_string s → a ≠ "/"%char.
Proof.
  induction s as [|c s IH]; simpl; intros H a Ha.
  - by apply elem_of_nil in Ha.
  - apply andb_true_iff in H as [H1 H2].
    apply elem_of_cons in Ha as [->|Ha]; [|by apply IH].
    intros ->. by rewrite Ascii.eqb_refl in H1.
Qed.

Lemma split_plain s : no_slash s = true → Js.split "/" s = [s].
Proof.
  intros H. unfold Js.split. rewrite split_go_no_sep; [done|].
  by apply no_slash_spec.
Qed.

Lemma join_plain base s : plain s = true → Path.join base s = base ++ [s].
Proof.
  unfold plain. rewrite !andb_true_iff, !negb_true_iff.
  intros [[[H1 H2] H3] H4]. unfold Path.join. rewrite split_plain by done.
  simpl. unfold Path.push. by rewrite H2, H3, H4.
Qed.

Lemma no_slash_app a b : no_slash (a +:+ b) = no_slash a && no_slash b.
Proof.
  induction a as [|c a IH]; [done|].
  rewrite append_cons. simpl. by rewrite IH, andb_assoc.
Qed.

Lemma no_slash_srev s : no_slash (Js.srev s) = no_slash s.
Proof.
  induction s as [|c s IH]; [done|].
  rewrite srev_cons, no_slash_app, IH. simpl.
  rewrite andb_true_r. apply andb_comm.
Qed.

Lemma strip_prefix_Some p s r : Js.strip_prefix p s = Some r → s = p +:+ r.
Proof.
  revert s. induction p as [|a p IH]; intros s H; simpl in *.
  - by simplify_eq.
  - destruct s as [|b s]; [done|].
    destruct (Ascii.eqb_spec a b) as [->|]; [|done].
    rewrite append_cons. f_equal. by apply IH.
Qed.

Lemma strip_prefix_app p r : Js.strip_prefix p (p +:+ r) = Some r.
Proof.
  induction p as [|a p IH]; [done|].
  rewrite append_cons. simpl. by rewrite Ascii.eqb_refl.
Qed.

(** The drawable folder of a density is a single segment. *)
Lemma plain_drawable d :
  no_slash d = true → plain ("drawable-" +:+ d) = true.
Proof.
  intros H. unfold plain. rewrite !append_cons, append_nil_l. simpl. by rewrite H.
Qed.

Lemma plain_long s :
  no_slash s = true → (3 ≤ String.length s)%nat → plain s = true.
Proof.
  intros H Hl. unfold plain. rewrite H.
  rewrite !eqb_length_ne; [done|simpl; lia..].
Qed.

Lemma plain_nine_patch n :
  plain n = true → plain (Js.replace_suffix ".png" ".9.png" n) = true.
Proof.
  intros Hn. unfold Js.replace_suffix.
  destruct (Js.strip_prefix _ _) as [r|] eqn:E; [|done].
  apply strip_prefix_Some in E.
  assert (n = Js.srev r +:+ ".png") as Hn'.
  { by rewrite <- (srev_involutive n), E, srev_app. }
  unfold plain in Hn. rewrite !andb_true_iff in Hn. destruct Hn as [[[H1 _] _] _].
  rewrite Hn', no_slash_app, andb_true_iff in H1. destruct H1 as [H1 _].
  apply plain_long.
  - by rewrite no_slash_app, H1.
  - rewrite length_append. simpl. lia.
Qed.

Lemma dirname_snoc (p : Path.t) x : Path.dirname (p ++ [x]) = p.
Proof. apply removelast_last. Qed.

Lemma basename_snoc (p : Path.t) x : Path.basename (p ++ [x]) = x.
Proof. apply last_last. Qed.

(** ** One image copied *)

Lemma plain_drawable_name d : no_slash d = true → plain (drawable_name d) = true.
Proof.
  intros H. unfold drawable_name. destruct d as [|c d]; [done|].
  cbn [Js.truthy_str]. by apply plain_drawable.
Qed.

Lemma plain_stored_name src n : plain n = true → plain (stored_name src n) = true.
Proof.
  intros H. unfold stored_name. destruct (Js.ends_with _ _); [|done].
  by apply plain_nine_patch.
Qed.

Lemma is_dir_true (fs : FS) (p : Path.t) : Fs.is_dir fs p = true ↔ fs !! p = Some Dir.
Proof. unfold Fs.is_dir. destruct (fs !! p) as [[]|]; naive_solver. Qed.

Lemma is_dir_false (fs : FS) (p : Path.t) : Fs.is_dir fs p = false ↔ fs !! p ≠ Some Dir.
Proof. unfold Fs.is_dir. destruct (fs !! p) as [[]|]; naive_solver. Qed.

Lemma snoc_ne_self {A} (l : list A) x : l ++ [x] ≠ l.
Proof. intros H. apply (f_equal length) in H. rewrite length_app in H. simpl in H. lia. Qed.

(** What [copyImage] does when the resources directory exists, the folder
    of the density is a directory or missing and the target is no
    directory: the folder exists afterwards and, when the source is a
    regular file, the target holds its content. *)
Lemma copyImage_run (src res : Path.t) (d n : string) (fs : FS) :
  no_slash d = true → plain n = true →
  fs !! res = Some Dir →
  (fs !! drawable res d = None ∨ fs !! drawable res d = Some Dir) →
  fs !! (drawable res d ++ [stored_name src n]) ≠ Some Dir →
  copyImage src res d n fs =
    (Ok tt,
     match fs !! src with
     | Some (File c) =>
         <[drawable res d ++ [stored_name src n] := File c]> (<[drawable res d := Dir]> fs)
     | _ => <[drawable res d := Dir]> fs
     end).
Proof.
  intros Hd Hn Hres Hfolder Htarget.
  unfold copyImage. fold (drawable_name d). fold (stored_name src n).
  rewrite (join_plain _ _ (plain_drawable_name d Hd)). fold (drawable res d).
  rewrite (join_plain _ _ (plain_stored_name src n Hn)).
  set (folder := drawable res d) in *. set (target := folder ++ _) in *.
  munfold.
  assert (∃ fs1, (if negb (Fs.existsSync fs folder)
                  then NodeFs.mkdirSync folder else λ s, (Ok (), s)) fs = (Ok tt, fs1)
                 ∧ fs1 = <[folder := Dir]> fs) as (fs1 & -> & Hfs1).
  { unfold Fs.existsSync, NodeFs.mkdirSync, Fs.existsSync.
    destruct Hfolder as [E|E]; rewrite E; simpl.
    - replace (Path.dirname folder) with res
        by (symmetry; apply dirname_snoc).
      rewrite (proj2 (is_dir_true _ _) Hres), E. by eexists.
    - eexists; split; [done|]. by rewrite insert_id. }
  assert (fs1 !! target ≠ Some Dir) as Ht1.
  { rewrite Hfs1, lookup_insert_ne; [done|]. unfold target. symmetry. apply snoc_ne_self. }
  assert (fs1 !! folder = Some Dir) as Hf1.
  { by rewrite Hfs1, lookup_insert_eq. }
  unfold Shell.cp_f.
  assert (fs1 !! src = match fs !! src with Some (File c) => Some (File c) | _ => fs1 !! src end
          ∧ match fs !! src with Some (File c) => True | _ => ∀ c, fs1 !! src ≠ Some (File c) end)
    as [Hs1 Hs2].
  { rewrite Hfs1. destruct (decide (folder = src)) as [<-|Hne].
    - rewrite lookup_insert_eq. destruct Hfolder as [E|E]; rewrite E; done.
    - rewrite lookup_insert_ne by done. destruct (fs !! src) as [[c|]|]; done. }
  destruct (fs !! src) as [[c|]|] eqn:Esrc.
  - rewrite Hs1. rewrite (proj2 (is_dir_false _ _) Ht1).
    replace (Path.dirname target) with folder
      by (symmetry; apply dirname_snoc).
    rewrite (proj2 (is_dir_true _ _) Hf1).
    rewrite (proj2 (is_dir_false _ _) Ht1). by rewrite Hfs1.
  - destruct (fs1 !! src) as [[c|]|] eqn:E1; [by destruct (Hs2 c)|by rewrite Hfs1..].
  - destruct (fs1 !! src) as [[c|]|] eqn:E1; [by destruct (Hs2 c)|by rewrite Hfs1..].
Qed.

(** ** The default images removed *)

Lemma elem_of_entries (fs : FS) (d p : Path.t) :
  p ∈ Fs.entries fs d ↔ Fs.child_of d p ∧ is_Some (fs !! p).
Proof.
  unfold Fs.entries. rewrite list_elem_of_fmap. split.
  - intros ([q n] & -> & H). apply elem_of_map_to_list in H.
    apply map_lookup_filter_Some in H as [H1 H2]. simpl in *. eauto.
  - intros [H1 [n H2]]. exists (p, n). split; [done|].
    apply elem_of_map_to_list. by apply map_lookup_filter_Some.
Qed.

Lemma child_of_snoc (d p : Path.t) : Fs.child_of d p ↔ ∃ x, p = d ++ [x].
Proof.
  unfold Fs.child_of, Path.dirname. split.
  - intros [Hne <-]. exists (List.last p EmptyString).
    by apply app_removelast_last.
  - intros [x ->]. split; [by destruct d|]. apply removelast_last.
Qed.





Lemma rm_f1_run (p : Path.t) (fs : FS) :
  Shell.rm_f1 p fs = (Ok tt, if Fs.is_file fs p then delete p fs else fs).
Proof. unfold Shell.rm_f1. by destruct (Fs.is_file fs p). Qed.



(** ** The icon recorded for a density *)

Lemma Obj_get_set_eq {V} k (v : V) o : Obj.get k (Obj.set k v o) = Some v.
Proof.
  induction o as [|[k' v'] o IH]; simpl.
  - by rewrite String.eqb_refl.
  - destruct (String.eqb_spec k k') as [->|Hne]; simpl.
    + by rewrite String.eqb_refl.
    + destruct (String.eqb_spec k k'); [done|]. exact IH.
Qed.

Lemma Obj_get_set_ne {V} k k' (v : V) o :
  k ≠ k' → Obj.get k (Obj.set k' v o) = Obj.get k o.
Proof.
  intros Hne. induction o as [|[k'' v''] o IH]; simpl.
  - destruct (String.eqb_spec k k'); [done|done].
  - destruct (String.eqb_spec k' k'') as [->|Hne']; simpl.
    + destruct (String.eqb_spec k k''); [done|done].
    + destruct (String.eqb_spec k k''); [done|]. exact IH.
Qed.

Lemma table_truthy s d : sizeToDensityMap s = Some d → Js.truthy_str d = true.
Proof.
  unfold sizeToDensityMap. intros H.
  repeat match type of H with
  | match ?x with _ => _ end = _ => destruct x
  end; by simplify_eq.
Qed.

Lemma icon_density_truthy i d : icon_density i = Some d → Js.truthy_str d = true.
Proof.
  unfold icon_density. destruct (Js.truthy (density i)) eqn:E.
  - intros H. rewrite H in E. exact E.
  - apply table_truthy.
Qed.

(** [parseIcon] records the icon under its density and leaves the other
    densities alone. *)
Lemma parseIcon_get d o i s :
  Js.or_else (density i) (sizeToDensityMap s) = icon_density i →
  Obj.get d (parseIcon o i s) =
    if has_density d i then record (Obj.get d o) i else Obj.get d o.
Proof.
  intros Hd. unfold parseIcon, has_density. rewrite Hd.
  destruct (icon_density i) as [d'|] eqn:E; [|done].
  rewrite (icon_density_truthy _ _ E). simpl.
  destruct (String.eqb_spec d d') as [->|Hne].
  - unfold record. destruct (Obj.get d' o) as [p|] eqn:Ep.
    + unfold has_platform. destruct (Js.truthy (platform p)); [done|].
      apply Obj_get_set_eq.
    + apply Obj_get_set_eq.
  - destruct (Obj.get d' o) as [p|].
    + destruct (Js.truthy (platform p)); [done|]. by apply Obj_get_set_ne.
    + by apply Obj_get_set_ne.
Qed.

Lemma scanIcons_get d icons o dflt :
  Obj.get d (scanIcons icons o dflt).1 =
    fold_left record (List.filter (has_density d) icons) (Obj.get d o).
Proof.
  revert o dflt. induction icons as [|i icons IH]; intros o dflt; [done|].
  cbn [scanIcons List.filter].
  destruct (truthy_size (width i)) eqn:Ew; cbn [negb].
  - (* the width is the size *)
    rewrite Ew. cbn [negb andb]. rewrite IH, parseIcon_get.
    + destruct (has_density d i); done.
    + unfold icon_density, icon_size, Js.or_else. by rewrite Ew.
  - destruct (truthy_size (height i)) eqn:Eh; cbn [negb andb].
    + rewrite IH, parseIcon_get.
      * destruct (has_density d i); done.
      * unfold icon_density, icon_size, Js.or_else. by rewrite Ew.
    + destruct (Js.truthy (density i)) eqn:Ed; cbn [negb].
      * rewrite IH, parseIcon_get.
        -- destruct (has_density d i); done.
        -- unfold icon_density, icon_size, Js.or_else. by rewrite Ew.
      * assert (has_density d i = false) as ->.
        { unfold has_density, icon_density, icon_size. rewrite Ed, Ew.
          destruct (height i) as [z|] eqn:Ehh; [|done]. simpl in Eh.
          destruct (Z.eqb_spec z 0) as [Hz|Hz]; [by rewrite Hz|done]. }
        destruct dflt; apply IH.
Qed.

Lemma fold_record_platform p cands :
  has_platform p = true → fold_left record cands (Some p) = Some p.
Proof.
  intros Hp. induction cands as [|c cands IH]; [done|].
  simpl. by rewrite Hp.
Qed.

Lemma fold_record_plain prev cands :
  match prev with Some p => has_platform p = false | None => True end →
  fold_left record cands prev =
    match List.find has_platform cands with
    | Some q => Some q
    | None => match cands with [] => prev | _ => last cands end
    end.
Proof.
  revert prev. induction cands as [|c cands IH]; intros prev Hprev; [done|].
  cbn [fold_left List.find].
  assert (record prev c = Some c) as ->.
  { destruct prev as [p|]; simpl; [by rewrite Hprev|done]. }
  destruct (has_platform c) eqn:Ec.
  - by apply fold_record_platform.
  - rewrite IH by done. destruct (List.find has_platform cands); [done|].
    destruct cands; done.
Qed.

Lemma scanIcons_winner d icons :
  Obj.get d (scanIcons icons [] None).1 = winner d icons.
Proof.
  rewrite scanIcons_get. simpl. rewrite fold_record_plain by done.
  unfold winner. destruct (List.find _ _); [done|].
  by destruct (List.filter _ _).
Qed.

(** ** The version code *)

Lemma contribution_cases c :
  (Js.truthy_num (Js.to_number_opt c) = true ∧ contribution c = Js.to_number_opt c) ∨
  (Js.truthy_num (Js.to_number_opt c) = false ∧ contribution c = Js.Fin 0).
Proof.
  destruct c as [s|]; simpl; [|by right].
  destruct (Js.to_number s) as [| |z] eqn:E; simpl; [by right|by left|].
  destruct (Z.eqb_spec z 0) as [->|]; simpl; [by right|by left].
Qed.


(** ** Objects as maps: keys and their order *)



Lemma Obj_elem_get {V} k (v : V) (o : list (string * V)) :
  NoDup o.*1 → (k, v) ∈ o → Obj.get k o = Some v.
Proof.
  induction o as [|[k' v'] o IH]; simpl; intros Hnd Hin.
  - by apply elem_of_nil in Hin.
  - apply NoDup_cons in Hnd as [Hk' Hnd].
    apply elem_of_cons in Hin as [[= -> ->]|Hin].
    + by rewrite String.eqb_refl.
    + destruct (String.eqb_spec k k') as [->|Hne]; [|by apply IH].
      exfalso. apply Hk'. apply list_elem_of_fmap. by exists (k', v).
Qed.

Lemma Obj_set_keys {V} k k2 (v : V) (o : list (string * V)) :
  k2 ∈ (Obj.set k v o).*1 ↔ k2 = k ∨ k2 ∈ o.*1.
Proof.
  induction o as [|[k' v'] o IH]; simpl.
  - rewrite list_elem_of_singleton. split; [by left|].
    intros [?|H]; [done|]. by apply elem_of_nil in H.
  - destruct (String.eqb_spec k k') as [->|Hne]; simpl.
    + rewrite !elem_of_cons. tauto.
    + rewrite !elem_of_cons, IH. tauto.
Qed.

Lemma Obj_set_NoDup {V} k (v : V) (o : list (string * V)) :
  NoDup o.*1 → NoDup (Obj.set k v o).*1.
Proof.
  induction o as [|[k' v'] o IH]; simpl; intros Hnd.
  - apply NoDup_singleton.
  - apply NoDup_cons in Hnd as [Hk' Hnd].
    destruct (String.eqb_spec k k') as [->|Hne]; simpl.
    + by apply NoDup_cons.
    + apply NoDup_cons. split; [|by apply IH].
      rewrite Obj_set_keys. intros [->|?]; done.
Qed.

Lemma parseIcon_NoDup o i s : NoDup o.*1 → NoDup (parseIcon o i s).*1.
Proof.
  intros H. unfold parseIcon. destruct (Js.or_else _ _) as [d|]; [|done].
  destruct (negb _); [done|].
  destruct (Obj.get d o) as [p|]; [destruct (Js.truthy _); [done|]|];
    by apply Obj_set_NoDup.
Qed.

Lemma scanIcons_NoDup icons o dflt :
  NoDup o.*1 → NoDup (scanIcons icons o dflt).1.*1.
Proof.
  revert o dflt. induction icons as [|i icons IH]; intros o dflt H; [done|].
  cbn [scanIcons]. destruct (_ && _).
  - destruct dflt; by apply IH.
  - apply IH. by apply parseIcon_NoDup.
Qed.

Lemma insert_by_index_perm {V} n (kv : string * V) l :
  Obj.insert_by_index n kv l ≡ₚ (n, kv) :: l.
Proof.
  induction l as [|[m kv'] l IH]; simpl; [done|].
  destruct (n <? m); [done|]. rewrite IH. apply Permutation_swap.
Qed.

Lemma for_in_perm {V} (o : list (string * V)) : Obj.for_in o ≡ₚ o.
Proof.
  unfold Obj.for_in.
  assert (foldr (λ e acc, Obj.insert_by_index e.1 e.2 acc) [] (Obj.indexed o)
          ≡ₚ Obj.indexed o) as ->.
  { induction (Obj.indexed o) as [|[n kv] l IH]; simpl; [done|].
    by rewrite insert_by_index_perm, IH. }
  unfold Obj.indexed, Obj.named.
  induction o as [|[k v] o IH]; simpl; [done|].
  destruct (Obj.array_index k) as [n|]; simpl.
  - by rewrite IH.
  - rewrite <- Permutation_middle. by rewrite IH.
Qed.

(** ** Images copied side by side *)









Section CopyAll.

Context (res : Path.t) (n : string) (source : resource → Path.t).

Hypothesis plain_n : plain n = true.


End CopyAll.

(** ** One layer of a recursive copy *)

Lemma reached_app (src r : Path.t) : Shell.reached src (src ++ r) ↔ shown r = true.
Proof.
  unfold Shell.reached. rewrite drop_app_length. split.
  - intros [_ H]. by destruct r.
  - intros H. split; [by apply prefix_app_r|]. by destruct r.
Qed.

Lemma reached_inv (src p : Path.t) :
  Shell.reached src p → ∃ r, p = src ++ r ∧ shown r = true.
Proof.
  intros [[r ->] H]. exists r. split; [done|].
  rewrite drop_app_length in H. by destruct r.
Qed.

Lemma retarget_app (src dest r : Path.t) : Shell.retarget src dest (src ++ r) = dest ++ r.
Proof. unfold Shell.retarget. by rewrite drop_app_length. Qed.

(** What the layer of a copy holds. *)
Lemma lookup_layer_app (src dest : Path.t) (fs : FS) (r : list string) :
  Shell.layer src dest fs !! (dest ++ r) =
    if shown r then fs !! (src ++ r) else None.
Proof.
  unfold Shell.layer.
  set (l := map_to_list (filter (λ kv, Shell.reached src kv.1) fs)).
  assert (NoDup (prod_map (Shell.retarget src dest) id <$> l).*1) as Hnd.
  { rewrite <- list_fmap_compose.
    apply (NoDup_fmap_2_strong _ l).
    - intros [p1 n1] [p2 n2] H1 H2 Heq. simpl in Heq.
      apply elem_of_map_to_list, map_lookup_filter_Some in H1 as [H1 R1].
      apply elem_of_map_to_list, map_lookup_filter_Some in H2 as [H2 R2].
      simpl in *. apply reached_inv in R1 as (r1 & -> & _).
      apply reached_inv in R2 as (r2 & -> & _).
      rewrite !retarget_app in Heq. apply app_inv_head in Heq as ->.
      congruence.
    - apply NoDup_map_to_list. }
  destruct (shown r) eqn:Er.
  - destruct (fs !! (src ++ r)) as [n|] eqn:E.
    + apply elem_of_list_to_map; [done|].
      apply list_elem_of_fmap. exists (src ++ r, n). simpl.
      rewrite retarget_app. split; [done|].
      apply elem_of_map_to_list, map_lookup_filter_Some. split; [done|].
      by apply reached_app.
    + apply not_elem_of_list_to_map. intros Hin.
      apply list_elem_of_fmap in Hin as ([q n] & Hq & Hin). simpl in Hq.
      apply list_elem_of_fmap in Hin as ([p n'] & [= -> ->] & Hin).
      apply elem_of_map_to_list, map_lookup_filter_Some in Hin as [Hp R].
      simpl in *. apply reached_inv in R as (r' & -> & _).
      rewrite retarget_app in Hq. apply app_inv_head in Hq as ->. congruence.
  - apply not_elem_of_list_to_map. intros Hin.
    apply list_elem_of_fmap in Hin as ([q n] & Hq & Hin). simpl in Hq.
    apply list_elem_of_fmap in Hin as ([p n'] & [= -> ->] & Hin).
    apply elem_of_map_to_list, map_lookup_filter_Some in Hin as [Hp R].
    simpl in *. apply reached_inv in R as (r' & -> & Hr').
    rewrite retarget_app in Hq. apply app_inv_head in Hq as ->. congruence.
Qed.

Lemma lookup_layer_other (src dest : Path.t) (fs : FS) (q : Path.t) :
  ¬ dest `prefix_of` q → Shell.layer src dest fs !! q = None.
Proof.
  intros Hq. unfold Shell.layer. apply not_elem_of_list_to_map. intros Hin.
  apply list_elem_of_fmap in Hin as ([q' n] & Hq' & Hin). simpl in Hq'.
  apply list_elem_of_fmap in Hin as ([p n'] & [= -> ->] & Hin).
  apply Hq. rewrite Hq'. unfold Shell.retarget. by apply prefix_app_r.
Qed.

Lemma lookup_merged (l fs : FS) (q : Path.t) :
  Shell.merged l fs !! q = Shell.cp_merge (l !! q) (fs !! q).
Proof.
  unfold Shell.merged. rewrite lookup_merge.
  by destruct (l !! q), (fs !! q).
Qed.

(** ** Well-formed file systems under a recursive copy *)

Lemma wf_parent (fs : FS) (p : Path.t) (x : string) :
  Fs.wf fs → is_Some (fs !! (p ++ [x])) → fs !! p = Some Dir.
Proof.
  intros [_ H] [n Hn]. apply H in Hn; [|by destruct p].
  by rewrite dirname_snoc in Hn.
Qed.

Lemma wf_ancestor (fs : FS) (p r : Path.t) :
  Fs.wf fs → is_Some (fs !! (p ++ r)) → r ≠ [] → fs !! p = Some Dir.
Proof.
  intros Hwf. induction r as [|x r IH] using rev_ind; [done|].
  intros Hs _. rewrite app_assoc in Hs. apply wf_parent in Hs; [|done].
  destruct r as [|y r'] using rev_ind.
  - by rewrite app_nil_r in Hs.
  - apply IH; [by rewrite Hs|]. by destruct r'.
Qed.

Lemma shown_snoc (r : list string) x : r ≠ [] → shown (r ++ [x]) = shown r.
Proof. by destruct r. Qed.

Lemma cp_merge_union (a b : option node) :
  kinds_agree a b → Shell.cp_merge a b = a ∪ b.
Proof. destruct a as [[]|], b as [[]|]; done. Qed.

(** One recursive copy into an existing directory, from a source that is a
    directory or missing and whose entries agree in kind with what the
    target holds: every entry the copy reaches is written over the target,
    and nothing else changes. *)
Lemma cp_rf_star_run (src dest : Path.t) (fs : FS) :
  Fs.wf fs →
  fs !! dest = Some Dir →
  Fs.is_file fs src = false →
  (∀ r, shown r = true → kinds_agree (fs !! (src ++ r)) (fs !! (dest ++ r))) →
  ∃ fs', Shell.cp_rf_star src dest fs = (Ok tt, fs')
    ∧ (∀ r, fs' !! (dest ++ r) =
              (if shown r then fs !! (src ++ r) else None) ∪ fs !! (dest ++ r))
    ∧ (∀ q, ¬ dest `prefix_of` q → fs' !! q = fs !! q).
Proof.
  intros Hwf Hdest Hsrc Hagree.
  unfold Shell.cp_rf_star, NodeFs.mkdirSync, Fs.existsSync. rewrite Hdest.
  destruct (fs !! src) as [[c|]|] eqn:Es.
  - unfold Fs.is_file in Hsrc. by rewrite Es in Hsrc.
  - assert (Shell.clash (Shell.layer src dest fs) fs = false) as ->.
    { unfold Shell.clash. apply not_true_is_false. intros Hex.
      apply existsb_exists in Hex as ([q n] & Hin & Hc). simpl in Hc.
      apply list_elem_of_In, elem_of_map_to_list in Hin.
      destruct (decide (dest `prefix_of` q)) as [[r ->]|Hq];
        [|by rewrite lookup_layer_other in Hin].
      rewrite lookup_layer_app in Hin.
      destruct (shown r) eqn:Er; [|done].
      unfold Shell.clash_at in Hc. apply orb_true_iff in Hc as [Hc|Hc].
      - destruct n as [c|]; [|done]. apply is_dir_true in Hc.
        specialize (Hagree r Er). by rewrite Hin, Hc in Hagree.
      - apply negb_true_iff, is_dir_false in Hc. apply Hc. clear Hc.
        destruct r as [|x r _] using rev_ind; [done|].
        rewrite app_assoc, dirname_snoc, lookup_merged.
        destruct (decide (r = [])) as [->|Hr].
        + rewrite lookup_layer_app. simpl. by rewrite app_nil_r, Hdest.
        + rewrite lookup_layer_app. rewrite shown_snoc in Er by done. rewrite Er.
          assert (fs !! (src ++ r) = Some Dir) as Hd.
          { apply (wf_parent fs _ x Hwf). rewrite <- app_assoc. by rewrite Hin. }
          rewrite Hd. specialize (Hagree r Er). rewrite Hd in Hagree.
          by destruct (fs !! (dest ++ r)) as [[]|]. }
    eexists. split; [done|]. split.
    + intros r. rewrite lookup_merged, lookup_layer_app.
      destruct (shown r) eqn:Er; [|by destruct (fs !! (dest ++ r))].
      by apply cp_merge_union, Hagree.
    + intros q Hq. rewrite lookup_merged, lookup_layer_other by done.
      by destruct (fs !! q).
  - eexists. split; [done|]. split; [|done].
    intros r. destruct (shown r) eqn:Er; [|by destruct (fs !! (dest ++ r))].
    destruct (fs !! (src ++ r)) as [n|] eqn:E; [|by destruct (fs !! (dest ++ r))].
    assert (fs !! src = Some Dir); [|congruence].
    apply (wf_ancestor fs src r Hwf); [by rewrite E|by destruct r].
Qed.

(** A file system that agrees with [fs'] is well formed when the new
    entries lie in directories. *)
Lemma cp_rf_star_wf (src dest : Path.t) (fs fs' : FS) :
  Fs.wf fs →
  fs !! dest = Some Dir →
  (∀ r, shown r = true → kinds_agree (fs !! (src ++ r)) (fs !! (dest ++ r))) →
  (∀ r, fs' !! (dest ++ r) =
          (if shown r then fs !! (src ++ r) else None) ∪ fs !! (dest ++ r)) →
  (∀ q, ¬ dest `prefix_of` q → fs' !! q = fs !! q) →
  Fs.wf fs'.
Proof.
  intros Hwf Hdest Hagree Hin Hout. split.
  - destruct (decide (dest = [])) as [->|Hne].
    + rewrite <- (app_nil_r []) at 1. rewrite (Hin []). simpl.
      destruct Hwf as [-> _]. done.
    + rewrite Hout; [apply Hwf|]. intros Hp. apply prefix_nil_inv in Hp. done.
  - intros q n Hq Hne.
    destruct q as [|x q _] using rev_ind; [done|]. rewrite dirname_snoc.
    destruct (decide (dest `prefix_of` (q ++ [x]))) as [[r Hr]|Hq'].
    + destruct r as [|y r _] using rev_ind.
      * rewrite app_nil_r in Hr. rewrite <- Hr in *.
        rewrite Hout.
        -- apply (wf_parent fs q x Hwf). by rewrite Hdest.
        -- intros Hp. apply prefix_length in Hp. rewrite length_app in Hp.
           simpl in Hp. lia.
      * rewrite app_assoc in Hr. apply app_inj_tail in Hr as [-> ->].
        rewrite <- app_assoc in Hq. rewrite Hin in Hq. rewrite Hin.
        destruct (decide (r = [])) as [->|Hrne].
        -- simpl. rewrite app_nil_r. by rewrite Hdest.
        -- rewrite shown_snoc in Hq by done.
           destruct (shown r) eqn:Er.
           ++ destruct (fs !! (src ++ r ++ [y])) as [m|] eqn:E.
              ** assert (fs !! (src ++ r) = Some Dir) as ->;
                   [|by destruct (fs !! (dest ++ r))].
                 apply (wf_parent fs _ y Hwf). rewrite <- app_assoc. by rewrite E.
              ** assert (fs !! (dest ++ r) = Some Dir) as Hd.
                 { apply (wf_parent fs _ y Hwf). rewrite <- app_assoc.
                   by destruct (fs !! (dest ++ r ++ [y])). }
                 specialize (Hagree r Er). rewrite Hd in Hagree. rewrite Hd.
                 by destruct (fs !! (src ++ r)) as [[]|].
           ++ simpl in *. rewrite (left_id None _) in Hq |- *.
              apply (wf_parent fs _ y Hwf). rewrite <- app_assoc. by rewrite Hq.
    + rewrite Hout in Hq by done.
      assert (fs !! q = Some Dir) as Hd.
      { apply (wf_parent fs q x Hwf). by rewrite Hq. }
      destruct (decide (dest `prefix_of` q)) as [[r ->]|Hq2]; [|by rewrite Hout].
      exfalso. apply Hq'. rewrite <- app_assoc. by apply prefix_app_r.
Qed.

(** ** Trees removed and directories created *)

Lemma lookup_remove_tree (p : Path.t) (fs : FS) (q : Path.t) :
  Fs.remove_tree p fs !! q = if decide (p `prefix_of` q) then None else fs !! q.
Proof.
  unfold Fs.remove_tree. destruct (decide (p `prefix_of` q)) as [H|H].
  - apply map_lookup_filter_None. right. intros n _ Hn. by apply Hn.
  - destruct (fs !! q) as [n|] eqn:E.
    + by apply map_lookup_filter_Some.
    + apply map_lookup_filter_None. by left.
Qed.


Lemma remove_tree_wf (p : Path.t) (fs : FS) :
  Fs.wf fs → p ≠ [] → Fs.wf (Fs.remove_tree p fs).
Proof.
  intros Hwf Hp. split.
  - rewrite lookup_remove_tree. destruct (decide _) as [H|H].
    + by apply prefix_nil_inv in H.
    + apply Hwf.
  - intros q n Hq Hne. rewrite lookup_remove_tree in Hq.
    destruct (decide (p `prefix_of` q)) as [|Hpq]; [done|].
    destruct q as [|x q _] using rev_ind; [done|]. rewrite dirname_snoc.
    rewrite lookup_remove_tree. destruct (decide (p `prefix_of` q)) as [H|H].
    + exfalso. apply Hpq. by apply prefix_app_r.
    + apply (wf_parent fs q x Hwf). by rewrite Hq.
Qed.

Lemma on_the_way_cons (made : Path.t) (n : string) (rest q : Path.t) :
  on_the_way made (n :: rest) q ↔
  q = made ++ [n] ∨ on_the_way (made ++ [n]) rest q.
Proof.
  split.
  - intros (s & -> & Hs & [t Ht]). destruct s as [|x s]; [done|].
    simplify_eq/=. destruct s as [|y s].
    + by left.
    + right. exists (y :: s). rewrite <- app_assoc. split; [done|].
      split; [done|]. by exists t.
  - intros [->|(s & -> & Hs & [t ->])].
    + exists [n]. split; [done|]. split; [done|]. by exists rest.
    + exists (n :: s). rewrite <- app_assoc. split; [done|]. split; [done|].
      by exists t.
Qed.

Lemma mkdirs_run (made todo : Path.t) (fs : FS) :
  (∀ q, on_the_way made todo q → Fs.is_file fs q = false) →
  ∃ fs', Shell.mkdirs made todo fs = (Ok tt, fs')
    ∧ (∀ q, on_the_way made todo q → fs' !! q = Some Dir)
    ∧ (∀ q, ¬ on_the_way made todo q → fs' !! q = fs !! q).
Proof.
  revert made fs. induction todo as [|n rest IH]; intros made fs Hfile.
  - exists fs. split; [done|]. split; [|done].
    intros q (s & -> & Hs & Hp). apply prefix_nil_inv in Hp. done.
  - cbn [Shell.mkdirs].
    assert (Fs.is_file fs (made ++ [n]) = false) as Hn.
    { apply Hfile. apply on_the_way_cons. by left. }
    assert (∀ fs1 : FS, fs1 !! (made ++ [n]) = Some Dir →
              (∀ q, q ≠ made ++ [n] → fs1 !! q = fs !! q) →
              ∃ fs', Shell.mkdirs (made ++ [n]) rest fs1 = (Ok (), fs')
                ∧ (∀ q, on_the_way made (n :: rest) q → fs' !! q = Some Dir)
                ∧ (∀ q, ¬ on_the_way made (n :: rest) q → fs' !! q = fs !! q)) as Hstep.
    { intros fs1 Hd Ho. destruct (IH (made ++ [n]) fs1) as (fs' & E & H1 & H2).
      - intros q Hq. destruct (decide (q = made ++ [n])) as [->|Hne].
        + unfold Fs.is_file. by rewrite Hd.
        + unfold Fs.is_file. rewrite Ho by done. apply Hfile.
          apply on_the_way_cons. by right.
      - exists fs'. split; [done|]. split.
        + intros q Hq. apply on_the_way_cons in Hq as [->|Hq]; [|by apply H1].
          rewrite H2; [done|]. intros (s & Hs & Hne & _).
          rewrite <- (app_nil_r (made ++ [n])) in Hs at 1.
          apply app_inv_head in Hs. done.
        + intros q Hq. rewrite on_the_way_cons in Hq.
          rewrite H2 by tauto. apply Ho. tauto. }
    unfold Fs.is_file in Hn.
    destruct (fs !! (made ++ [n])) as [[c|]|] eqn:E; [done|..].
    + by apply Hstep.
    + apply Hstep.
      * by rewrite lookup_insert_eq.
      * intros q Hq. by rewrite lookup_insert_ne.
Qed.

(** ** The web assets *)

Lemma apart_below (a b r : Path.t) : apart a b → ¬ a `prefix_of` b ++ r.
Proof.
  intros [H1 H2] H. destruct (prefix_weak_total a b (b ++ r)); [done| |done..].
  by apply prefix_app_r.
Qed.

Lemma apart_above (a b r q : Path.t) : apart a b → q `prefix_of` a → q ≠ b ++ r.
Proof.
  intros [H1 H2] Hq ->. apply H2. etrans; [|done]. by apply prefix_app_r.
Qed.

Lemma kinds_agree_union (a b c : option node) :
  kinds_agree a b → kinds_agree a c → kinds_agree a (b ∪ c).
Proof. destruct a as [[]|], b as [[]|], c as [[]|]; done. Qed.

Lemma kinds_agree_None_r (a : option node) : kinds_agree a None.
Proof. by destruct a as [[]|]. Qed.

Lemma wf_missing_below (fs : FS) (p r : Path.t) :
  Fs.wf fs → fs !! p = None → r ≠ [] → fs !! (p ++ r) = None.
Proof.
  intros Hwf Hp Hr. destruct (fs !! (p ++ r)) as [n|] eqn:E; [|done].
  assert (fs !! p = Some Dir); [|congruence].
  apply (wf_ancestor fs p r Hwf); [by rewrite E|done].
Qed.

Section Www.

Context {CC : CordovaCommon}.

(** Claim C6.  [updateWwwFrom] empties the platform's [www] and creates it
    again, then fills it from the project's [www], [platform_www] and
    [merges/android] (when that exists): an entry of the result is the
    one of [merges/android] if there is one, else the one of
    [platform_www], else the one of the project's [www]; hidden
    top-level names are not copied, and nothing outside [www] changes. *)
Theorem updateWwwFrom_layers (proj : CordovaProject) (loc : Locations) (fs : FS) :
  Fs.wf fs →
  apart (www loc) (project_www proj) →
  apart (www loc) (platformWww loc) →
  apart (www loc) (merges_android proj) →
  (∀ q, q `prefix_of` www loc → q ≠ www loc → Fs.is_file fs q = false) →
  Fs.is_file fs (project_www proj) = false →
  Fs.is_file fs (platformWww loc) = false →
  Fs.is_file fs (merges_android proj) = false →
  (∀ r, shown r = true →
     kinds_agree (fs !! (platformWww loc ++ r)) (fs !! (project_www proj ++ r))
     ∧ kinds_agree (fs !! (merges_android proj ++ r)) (fs !! (platformWww loc ++ r))
     ∧ kinds_agree (fs !! (merges_android proj ++ r)) (fs !! (project_www proj ++ r))) →
  ∃ fs', updateWwwFrom proj loc fs = (Ok tt, fs')
    ∧ fs' !! www loc = Some Dir
    ∧ (∀ r, r ≠ [] →
         fs' !! (www loc ++ r) =
           if shown r
           then fs !! (merges_android proj ++ r)
                ∪ fs !! (platformWww loc ++ r)
                ∪ fs !! (project_www proj ++ r)
           else None)
    ∧ (∀ q, ¬ www loc `prefix_of` q → ¬ q `prefix_of` www loc → fs' !! q = fs !! q).
Proof.
  set (D := www loc). set (W := project_www proj). set (P := platformWww loc).
  set (Mg := merges_android proj).
  intros Hwf HW HP HM Hanc HfW HfP HfM Hagree.
  assert (D ≠ []) as HD.
  { intros E. apply (proj1 HW). rewrite E. apply prefix_nil. }
  (* rm -rf *)
  set (fs1 := Fs.remove_tree D fs).
  assert (Fs.wf fs1) as Hwf1 by by apply remove_tree_wf.
  (* mkdir -p *)
  destruct (mkdirs_run [] D fs1) as (fs2 & E2 & Hway & Hnot).
  { intros q (s & -> & Hs & Hp). simpl. unfold Fs.is_file, fs1.
    rewrite lookup_remove_tree. destruct (decide _) as [|Hq]; [done|].
    apply Hanc; [done|]. intros ->. by apply Hq. }
  assert (∀ q, on_the_way [] D q ↔ q ≠ [] ∧ q `prefix_of` D) as Hotw.
  { intros q. unfold on_the_way. simpl. split.
    - by intros (s & -> & ? & ?).
    - intros [? ?]. by exists q. }
  assert (fs2 !! D = Some Dir) as HD2.
  { apply Hway, Hotw. done. }
  assert (∀ r, r ≠ [] → fs2 !! (D ++ r) = None) as Hin2.
  { intros r Hr. rewrite Hnot.
    - unfold fs1. rewrite lookup_remove_tree.
      destruct (decide _) as [|Hq]; [done|]. destruct Hq. by apply prefix_app_r.
    - rewrite Hotw. intros [_ Hp]. apply prefix_length in Hp.
      rewrite length_app in Hp. destruct r; [done|]. simpl in Hp. lia. }
  assert (∀ X r, apart D X → fs2 !! (X ++ r) = fs !! (X ++ r)) as Hsrc2.
  { intros X r HX. rewrite Hnot.
    - unfold fs1. rewrite lookup_remove_tree.
      destruct (decide _) as [Hq|]; [|done]. by apply apart_below in Hq.
    - rewrite Hotw. intros [_ Hp]. by eapply (apart_above D X r). }
  assert (∀ q, ¬ D `prefix_of` q → ¬ q `prefix_of` D → fs2 !! q = fs !! q) as Hout2.
  { intros q H1 H2. rewrite Hnot.
    - unfold fs1. rewrite lookup_remove_tree. by destruct (decide _).
    - rewrite Hotw. tauto. }
  assert (Fs.wf fs2) as Hwf2.
  { split.
    - rewrite Hnot; [apply Hwf1|]. rewrite Hotw. tauto.
    - intros q n Hq Hne. destruct q as [|x q _] using rev_ind; [done|].
      rewrite dirname_snoc.
      destruct (decide (q = [])) as [->|Hqne].
      { rewrite Hnot; [apply Hwf1|]. rewrite Hotw. tauto. }
      destruct (decide ((q ++ [x]) `prefix_of` D)) as [Hp|Hp].
      + apply Hway, Hotw. split; [done|]. etrans; [|done]. by apply prefix_app_r.
      + rewrite Hnot in Hq by (rewrite Hotw; tauto).
        assert (fs1 !! q = Some Dir) as Hq1.
        { apply (wf_parent fs1 q x Hwf1). by rewrite Hq. }
        destruct (decide (q `prefix_of` D)) as [Hp'|Hp'].
        * apply Hway, Hotw. done.
        * rewrite Hnot; [done|]. rewrite Hotw. tauto. }
  (* the project's www *)
  destruct (cp_rf_star_run W D fs2) as (fs3 & E3 & Hin3 & Hout3); [done|done|..].
  { unfold Fs.is_file. rewrite <- (app_nil_r W), Hsrc2 by done.
    by rewrite app_nil_r. }
  { intros r Hr. rewrite Hin2 by (by destruct r). apply kinds_agree_None_r. }
  assert (Fs.wf fs3) as Hwf3.
  { apply (cp_rf_star_wf W D fs2 fs3); [done|done| |done|done].
    intros r Hr. rewrite Hin2 by (by destruct r). apply kinds_agree_None_r. }
  assert (∀ X r, apart D X → fs3 !! (X ++ r) = fs !! (X ++ r)) as Hsrc3.
  { intros X r HX. rewrite Hout3 by (by apply apart_below). by apply Hsrc2. }
  assert (fs3 !! D = Some Dir) as HD3.
  { rewrite <- (app_nil_r D), Hin3. simpl. by rewrite app_nil_r, HD2. }
  assert (∀ r, r ≠ [] →
            fs3 !! (D ++ r) = if shown r then fs !! (W ++ r) else None) as Hin3'.
  { intros r Hr. rewrite Hin3, Hin2 by done. rewrite Hsrc2 by done.
    destruct (shown r); [|done]. by destruct (fs !! (W ++ r)). }
  (* platform_www *)
  assert (∀ r, shown r = true →
            kinds_agree (fs3 !! (P ++ r)) (fs3 !! (D ++ r))) as Hag3.
  { intros r Hr. rewrite Hsrc3 by done. rewrite Hin3' by (by destruct r).
    rewrite Hr. by apply Hagree. }
  destruct (cp_rf_star_run P D fs3) as (fs4 & E4 & Hin4 & Hout4); [done|done| |done|].
  { unfold Fs.is_file. rewrite <- (app_nil_r P), Hsrc3 by done.
    by rewrite app_nil_r. }
  assert (Fs.wf fs4) as Hwf4.
  { by apply (cp_rf_star_wf P D fs3 fs4). }
  assert (∀ X r, apart D X → fs4 !! (X ++ r) = fs !! (X ++ r)) as Hsrc4.
  { intros X r HX. rewrite Hout4 by (by apply apart_below). by apply Hsrc3. }
  assert (fs4 !! D = Some Dir) as HD4.
  { rewrite <- (app_nil_r D), Hin4. simpl. by rewrite app_nil_r, HD3. }
  assert (∀ r, r ≠ [] →
            fs4 !! (D ++ r) =
              if shown r then fs !! (P ++ r) ∪ fs !! (W ++ r) else None) as Hin4'.
  { intros r Hr. rewrite Hin4, Hin3' by done. rewrite Hsrc3 by done.
    by destruct (shown r). }
  (* merges/android *)
  assert (Path.join (Path.join (project_root proj) "merges") "android" = Mg) as EMg.
  { rewrite !join_plain by done. by rewrite <- app_assoc. }
  assert (fs4 !! Mg = fs !! Mg) as HMg4.
  { rewrite <- (app_nil_r Mg), Hsrc4 by done. by rewrite app_nil_r. }
  assert (∀ fs5 : FS,
            (∀ r, fs5 !! (D ++ r) =
                    (if shown r then fs4 !! (Mg ++ r) else None) ∪ fs4 !! (D ++ r)) →
            (∀ q, ¬ D `prefix_of` q → fs5 !! q = fs4 !! q) →
            fs5 !! D = Some Dir
            ∧ (∀ r, r ≠ [] →
                 fs5 !! (D ++ r) =
                   if shown r
                   then fs !! (Mg ++ r) ∪ fs !! (P ++ r) ∪ fs !! (W ++ r)
                   else None)
            ∧ (∀ q, ¬ D `prefix_of` q → ¬ q `prefix_of` D → fs5 !! q = fs !! q)) as Hfin.
  { intros fs5 Hin5 Hout5. split; [|split].
    - rewrite <- (app_nil_r D), Hin5. simpl. by rewrite app_nil_r, HD4.
    - intros r Hr. rewrite Hin5, Hin4' by done. rewrite Hsrc4 by done.
      destruct (shown r); [|done].
      by destruct (fs !! (Mg ++ r)), (fs !! (P ++ r)), (fs !! (W ++ r)).
    - intros q H1 H2. rewrite Hout5, Hout4, Hout3 by done. by apply Hout2. }
  unfold updateWwwFrom. fold D W P. rewrite EMg. munfold. unfold Shell.rm_rf, modify.
  fold fs1. unfold Shell.mkdir_p.
  assert (Fs.existsSync fs1 D = false) as ->.
  { unfold Fs.existsSync, fs1. rewrite lookup_remove_tree.
    by destruct (decide _) as [|[]]. }
  rewrite E2, E3, E4. unfold Fs.existsSync. rewrite HMg4.
  destruct (fs !! Mg) as [n|] eqn:EM.
  - destruct (cp_rf_star_run Mg D fs4) as (fs5 & E5 & Hin5 & Hout5); [done|done|..].
    { unfold Fs.is_file in *. rewrite HMg4. by rewrite EM in HfM. }
    { intros r Hr. rewrite Hsrc4 by done. rewrite Hin4' by (by destruct r).
      rewrite Hr. apply kinds_agree_union; by apply Hagree. }
    exists fs5. split; [done|]. by apply Hfin.
  - exists fs4. split; [done|]. apply Hfin; [|done].
    intros r. destruct (shown r) eqn:Er; [|by destruct (fs4 !! (D ++ r))].
    rewrite (Hsrc4 Mg) by done. rewrite (wf_missing_below fs Mg r); [|done|done|by intros ->].
    by destruct (fs4 !! (D ++ r)).
Qed.

End Www.

(** ** The directory of a package *)

Lemma chars_app (a b : string) : chars (a +:+ b) = chars a ++ chars b.
Proof.
  unfold chars. induction a as [|c a IH]; [done|].
  rewrite append_cons. simpl. by rewrite IH.
Qed.

Lemma chars_srev (s : string) (a : ascii) : a ∈ chars (Js.srev s) ↔ a ∈ chars s.
Proof.
  induction s as [|c s IH]; [done|].
  rewrite srev_cons, chars_app, elem_of_app, IH.
  change (chars (String c "")) with [c].
  change (chars (String c s)) with (c :: chars s).
  rewrite !elem_of_cons, elem_of_nil. tauto.
Qed.

Lemma split_go_chars (c : ascii) (cur s seg : string) (a : ascii) :
  seg ∈ Js.split_go c cur s → a ∈ chars seg → a ∈ chars cur ∨ a ∈ chars s.
Proof.
  revert cur. induction s as [|b s IH]; intros cur Hseg Ha; simpl in Hseg.
  - apply list_elem_of_singleton in Hseg as ->. left. by apply chars_srev.
  - destruct (Ascii.eqb b c).
    + apply elem_of_cons in Hseg as [->|Hseg].
      * left. by apply chars_srev.
      * destruct (IH _ Hseg Ha) as [H|H]; [by apply elem_of_nil in H|]. right.
        unfold chars. simpl. apply elem_of_cons. by right.
    + destruct (IH _ Hseg Ha) as [H|H].
      * unfold chars in H. simpl in H. apply elem_of_cons in H as [->|H].
        -- right. unfold chars. simpl. apply elem_of_cons. by left.
        -- by left.
      * right. unfold chars. simpl. apply elem_of_cons. by right.
Qed.

Lemma replace_all_chars (c d : ascii) (s : string) (a : ascii) :
  c ≠ d → a ∈ chars (Js.replace_all c d s) → a ≠ c.
Proof.
  intros Hcd. induction s as [|b s IH]; unfold chars; simpl; intros Ha.
  - by apply elem_of_nil in Ha.
  - apply elem_of_cons in Ha as [->|Ha]; [|by apply IH].
    destruct (Ascii.eqb_spec b c); congruence.
Qed.

(** Joining segments none of which is ".." only appends. *)
Lemma fold_push_extends (l : list string) (base : Path.t) :
  (∀ seg, seg ∈ l → seg ≠ "..") →
  ∃ t, fold_left Path.push l base = base ++ t.
Proof.
  revert base. induction l as [|seg l IH]; intros base H.
  - exists []. by rewrite app_nil_r.
  - simpl. assert (seg ≠ "..") as Hseg by (apply H; by left).
    destruct (IH (Path.push base seg)) as [t Ht].
    { intros s Hs. apply H. by right. }
    rewrite Ht. unfold Path.push.
    destruct (_ || _); [by exists t|].
    destruct (String.eqb_spec seg ".."); [done|].
    exists (seg :: t). by rewrite <- app_assoc.
Qed.

Lemma package_dir_below (sources : Path.t) (pkg : string) :
  ∃ segs, package_dir sources pkg = sources ++ segs.
Proof.
  unfold package_dir, Path.join. apply fold_push_extends.
  intros seg Hseg ->.
  assert ("."%char ∈ chars "..") as Hdot by (by left).
  destruct (split_go_chars _ _ _ _ _ Hseg Hdot) as [H|H].
  - by apply elem_of_nil in H.
  - by apply replace_all_chars in H.
Qed.

(** ** Empty directories removed *)



Lemma removeEmptyDirs_eq (sourcesRoot : Path.t) (currentDir_rev : list string) :
  removeEmptyDirs sourcesRoot currentDir_rev =
    let currentDir := rev currentDir_rev in
    if decide (currentDir = sourcesRoot) then mret tt
    else
      fs ← get_fs;
      if Fs.existsSync fs currentDir then
        names ← NodeFs.readdirSync currentDir;
        match names with
        | [] =>
            NodeFs.rmdirSync currentDir;;
            match currentDir_rev with
            | [] => mret tt
            | _ :: up => removeEmptyDirs sourcesRoot up
            end
        | _ => mret tt
        end
      else mret tt.
Proof. by destruct currentDir_rev. Qed.


(** ** What a computation leaves in place *)

Section Changes.

Context (R : FS → FS → Prop) `{!PreOrder R}.

Lemma changes_ret {A : Type} (a : A) : changes R (mret a).
Proof. intros fs. reflexivity. Qed.

Lemma changes_throw {A : Type} (e : exn) : changes R (throw e : M A).
Proof. intros fs. reflexivity. Qed.

Lemma changes_bind {A B : Type} (m : M A) (f : A → M B) :
  changes R m → (∀ a, changes R (f a)) → changes R (m ≫= f).
Proof.
  intros Hm Hf fs. unfold mbind, St_bind. specialize (Hm fs).
  destruct (m fs) as [[a|e] fs1]; [|done].
  etrans; [exact Hm|]. apply Hf.
Qed.

Lemma changes_readonly {A : Type} (m : M A) :
  (∀ fs, (m fs).2 = fs) → changes R m.
Proof. intros H fs. rewrite H. reflexivity. Qed.

Lemma changes_forEach {A : Type} (f : A → M unit) (xs : list A) :
  (∀ x, changes R (f x)) → changes R (forEach f xs).
Proof.
  intros Hf. induction xs as [|x xs IH]; [apply changes_ret|].
  cbn [forEach]. apply changes_bind; [apply Hf|]. intros _. exact IH.
Qed.

Lemma changes_filterM {A : Type} (f : A → M bool) (xs : list A) :
  (∀ x, changes R (f x)) → changes R (filterM f xs).
Proof.
  intros Hf. induction xs as [|x xs IH]; [apply changes_ret|].
  cbn [filterM]. apply changes_bind; [apply Hf|]. intros b.
  apply changes_bind; [exact IH|]. intros r. apply changes_ret.
Qed.

End Changes.

Lemma ls_readonly (dir : Path.t) (pre suf : string) (fs : FS) :
  (Shell.ls dir pre suf fs).2 = fs.
Proof. unfold Shell.ls. by repeat case_match. Qed.

Lemma grep_readonly (re : string → bool) (file : Path.t) (fs : FS) :
  (Shell.grep re file fs).2 = fs.
Proof. unfold Shell.grep. by repeat case_match. Qed.

Lemma sed_package_readonly (repl : string) (file : Path.t) (fs : FS) :
  (Shell.sed_package repl file fs).2 = fs.
Proof. unfold Shell.sed_package. by repeat case_match. Qed.

Lemma parseElementtreeSync_readonly (p : Path.t) (fs : FS) :
  (parseElementtreeSync p fs).2 = fs.
Proof. unfold parseElementtreeSync. by repeat case_match. Qed.

Lemma new_AndroidManifest_readonly (p : Path.t) (fs : FS) :
  (new_AndroidManifest p fs).2 = fs.
Proof. unfold new_AndroidManifest. by repeat case_match. Qed.

(** [mkdirs] only fills paths that hold nothing. *)
Lemma mkdirs_keeps (base todo : Path.t) (fs : FS) (p : Path.t) :
  is_Some (fs !! p) → (Shell.mkdirs base todo fs).2 !! p = fs !! p.
Proof.
  revert base fs. induction todo as [|n rest IH]; intros base fs Hp; [done|].
  cbn [Shell.mkdirs]. destruct (fs !! (base ++ [n])) as [[c|]|] eqn:E.
  - done.
  - by apply IH.
  - rewrite IH.
    + apply lookup_insert_ne. intros <-. rewrite E in Hp. by destruct Hp.
    + rewrite lookup_insert_ne; [done|]. intros <-. rewrite E in Hp. by destruct Hp.
Qed.

Lemma mkdir_p_keeps (q : Path.t) (fs : FS) (p : Path.t) :
  is_Some (fs !! p) → (Shell.mkdir_p q fs).2 !! p = fs !! p.
Proof.
  intros Hp. unfold Shell.mkdir_p. destruct (Fs.existsSync fs q); [done|].
  by apply mkdirs_keeps.
Qed.

(** The loop that removes empty directories removes nothing else. *)
Lemma removeEmptyDirs_keeps (sourcesRoot : Path.t) (rcur : list string) (fs : FS) (p : Path.t) :
  fs !! p ≠ Some Dir → (removeEmptyDirs sourcesRoot rcur fs).2 !! p = fs !! p.
Proof.
  revert fs. induction rcur as [|x up IH]; intros fs Hp;
    rewrite removeEmptyDirs_eq; cbv zeta;
    (destruct (decide _); [done|]); munfold; cbv beta;
    (destruct (Fs.existsSync fs _); [|done]);
    unfold NodeFs.readdirSync;
    (destruct (fs !! rev _) as [[c|]|] eqn:E; [done| |done]);
    (destruct (Fs.readdir fs _) eqn:Er; [|done]);
    unfold NodeFs.rmdirSync; rewrite E, Er; cbn [fst snd].
  - apply lookup_delete_ne. intros <-. congruence.
  - rewrite IH.
    + apply lookup_delete_ne. intros <-. congruence.
    + rewrite lookup_delete_ne; [done|]. intros <-. congruence.
Qed.

Lemma to_outside (sources : Path.t) (s : string) (file : Path.t) :
  sources `prefix_of` file → changes (outside_kept sources) (Shell.to s file).
Proof.
  intros Hf fs p c Hp H. unfold Shell.to. repeat case_match; try done.
  cbn [snd]. rewrite lookup_insert_ne; [done|]. by intros <-.
Qed.


Lemma writeFileSync_files (q : Path.t) (d : data) :
  changes files_kept (NodeFs.writeFileSync q d).
Proof.
  intros fs p H. unfold NodeFs.writeFileSync. repeat case_match; try done.
  cbn [snd]. unfold Fs.is_file in *. destruct (decide (q = p)) as [->|Hne].
  - by rewrite lookup_insert_eq.
  - by rewrite lookup_insert_ne.
Qed.

Lemma mkdir_p_outside (sources q : Path.t) : changes (outside_kept sources) (Shell.mkdir_p q).
Proof. intros fs p c Hp H. rewrite mkdir_p_keeps; [done|by rewrite H]. Qed.


Lemma rm_rf_outside (sources q : Path.t) :
  sources `prefix_of` q → changes (outside_kept sources) (Shell.rm_rf q).
Proof.
  intros Hq fs p c Hp H. unfold Shell.rm_rf, modify. cbn [snd].
  rewrite lookup_remove_tree. destruct (decide _) as [Hpre|]; [|done].
  destruct Hp. by etrans.
Qed.

Lemma removeEmptyDirs_outside (sources sourcesRoot : Path.t) (rcur : list string) :
  changes (outside_kept sources) (removeEmptyDirs sourcesRoot rcur).
Proof.
  intros fs p c Hp H. rewrite removeEmptyDirs_keeps; [done|]. by rewrite H.
Qed.

(** ** The main activity found *)

Lemma concat_lines_truthy (ls : list string) :
  Js.truthy_str (String.concat "" ((λ l, l +:+ String "010"%char "") <$> ls))
  = match ls with [] => false | _ => true end.
Proof.
  destruct ls as [|l ls]; [done|]. cbn [fmap list_fmap String.concat].
  destruct ls as [|l' ls].
  - by destruct l.
  - destruct l; [done|]. by rewrite append_cons.
Qed.

Lemma existsb_filter_nil {A : Type} (f : A → bool) (l : list A) :
  existsb f l = match List.filter f l with [] => false | _ => true end.
Proof.
  induction l as [|x l IH]; [done|]. simpl. destruct (f x); [done|]. exact IH.
Qed.

Lemma is_activity_text (fs : FS) (p : Path.t) (s : string) :
  fs !! p = Some (File (Raw s)) →
  is_activity p fs = (Ok (extends_activity fs p), fs).
Proof.
  intros H. unfold is_activity, extends_activity, Shell.grep. munfold.
  rewrite H. by rewrite concat_lines_truthy, existsb_filter_nil.
Qed.

Lemma is_activity_readonly (p : Path.t) (fs : FS) : (is_activity p fs).2 = fs.
Proof.
  unfold is_activity. munfold. pose proof (grep_readonly Re.extends_CordovaActivity p fs).
  by destruct (Shell.grep _ _ _) as [[]]; simpl in *; subst.
Qed.

Lemma filterM_text (fs : FS) (xs : list Path.t) :
  (∀ p, p ∈ xs → ∃ s, fs !! p = Some (File (Raw s))) →
  filterM is_activity xs fs = (Ok (List.filter (extends_activity fs) xs), fs).
Proof.
  induction xs as [|x xs IH]; intros H; [done|].
  cbn [filterM List.filter]. munfold.
  destruct (H x) as [s Hs]; [by left|].
  rewrite (is_activity_text fs x s Hs). rewrite IH.
  - by destruct (extends_activity fs x).
  - intros p Hp. apply H. by right.
Qed.

Lemma filterM_readonly (xs : list Path.t) (fs : FS) :
  (filterM is_activity xs fs).2 = fs.
Proof.
  revert fs. induction xs as [|x xs IH]; intros fs; [done|].
  cbn [filterM]. munfold. pose proof (is_activity_readonly x fs) as H1.
  destruct (is_activity x fs) as [[b|e] fs1]; simpl in H1; subst; [|done].
  specialize (IH fs). by destruct (filterM is_activity xs fs) as [[r|e] fs2].
Qed.

Lemma filterM_sublist (xs r : list Path.t) (fs : FS) :
  (filterM is_activity xs fs).1 = Ok r → ∀ p, p ∈ r → p ∈ xs.
Proof.
  revert r fs. induction xs as [|x xs IH]; intros r fs.
  - intros [= <-]. done.
  - cbn [filterM]. munfold. pose proof (is_activity_readonly x fs) as H1.
    destruct (is_activity x fs) as [[b|e] fs1]; simpl in H1; subst; [|done].
    destruct (filterM is_activity xs fs) as [[r'|e] fs2] eqn:E; [|done].
    intros [= <-] p Hp. specialize (IH r' fs). rewrite E in IH.
    destruct b.
    + apply elem_of_cons in Hp as [->|Hp]; [by left|]. right. by apply IH.
    + right. by apply IH.
Qed.

Lemma ls_elem (dir : Path.t) (pre suf : string) (fs : FS) (l : list Path.t) (p : Path.t) :
  (Shell.ls dir pre suf fs).1 = Ok l → p ∈ l →
  ∃ x, p = dir ++ [x] ∧ is_Some (fs !! p) ∧ Shell.glob pre suf x = true.
Proof.
  unfold Shell.ls. destruct (fs !! dir) as [[c|]|]; [done| |].
  - intros [= <-] Hp. apply list_elem_of_In, filter_In in Hp as [Hp Hg].
    apply list_elem_of_In, elem_of_entries in Hp as [Hc Hs].
    apply child_of_snoc in Hc as [x ->]. exists x. by rewrite basename_snoc in Hg.
  - intros [= <-] Hp. by apply elem_of_nil in Hp.
Qed.

(** Whatever the second half of [updateProjectAccordingTo] does, the
    files outside the sources root stay as they are. *)
Lemma relocateMainActivity_outside (loc : Locations) (orig_pkg pkg : string) (fs : FS) :
  plain_names fs →
  outside_kept (root loc ++ ["src"]) fs (relocateMainActivity loc orig_pkg pkg fs).2.
Proof.
  intros Hnames. unfold relocateMainActivity.
  rewrite (join_plain (root loc) "src") by done.
  set (S := root loc ++ ["src"]).
  fold (package_dir S orig_pkg). fold (package_dir S pkg). fold is_activity.
  destruct (package_dir_below S orig_pkg) as [segs Hsegs].
  destruct (package_dir_below S pkg) as [segs' Hsegs'].
  unfold mbind at 1, St_bind at 1.
  pose proof (ls_readonly (package_dir S orig_pkg) "" ".java" fs) as Hls.
  pose proof (ls_elem (package_dir S orig_pkg) "" ".java" fs) as Hel.
  destruct (Shell.ls _ _ _ fs) as [[cands|e] fs1]; simpl in Hls; subst fs1;
    [|reflexivity].
  specialize (Hel cands). simpl in Hel.
  unfold mbind at 1, St_bind at 1.
  pose proof (filterM_readonly cands fs) as Hfm.
  pose proof (filterM_sublist cands) as Hsub.
  destruct (filterM is_activity cands fs) as [[java_files|e] fs1] eqn:Efm;
    simpl in Hfm; subst fs1; [|reflexivity].
  specialize (Hsub java_files fs). rewrite Efm in Hsub. specialize (Hsub eq_refl).
  destruct java_files as [|java_file rest]; [reflexivity|].
  destruct (Hel java_file eq_refl) as (x & -> & Hx & Hglob).
  { apply Hsub. by left. }
  rewrite basename_snoc.
  assert (plain x = true) as Hplain by (by apply (Hnames (package_dir S orig_pkg))).
  rewrite (join_plain _ x Hplain), dirname_snoc.
  assert (S `prefix_of` package_dir S pkg ++ [x]) as Hdest.
  { rewrite Hsegs', <- app_assoc. by apply prefix_app_r. }
  assert (S `prefix_of` package_dir S orig_pkg ++ [x]) as Hsrc.
  { rewrite Hsegs, <- app_assoc. by apply prefix_app_r. }
  clear Hnames Hx Hel Efm Hsub. revert fs.
  apply (changes_bind (outside_kept S)); [apply mkdir_p_outside|].
  intros _. apply (changes_bind (outside_kept S)).
  { apply changes_readonly; [apply _|]. apply sed_package_readonly. }
  intros sed. apply (changes_bind (outside_kept S)).
  { destruct sed as [s|]; [by apply to_outside|apply (changes_throw (outside_kept S))]. }
  intros _. destruct (negb _); [|apply (changes_ret (outside_kept S))].
  apply (changes_bind (outside_kept S)); [by apply rm_rf_outside|].
  intros _. apply removeEmptyDirs_outside.
Qed.

(** ** Directories created in a well-formed file system *)




Lemma insert_file_wf (fs : FS) (p : Path.t) (c : data) :
  Fs.wf fs → fs !! p ≠ Some Dir → fs !! Path.dirname p = Some Dir → p ≠ [] →
  Fs.wf (<[p := File c]> fs).
Proof.
  intros Hwf Hp Hpar Hne. split.
  - rewrite lookup_insert_ne by done. apply Hwf.
  - intros q n Hq Hqne. destruct (decide (Path.dirname q = p)) as [E|E].
    + exfalso. destruct q as [|x q _] using rev_ind; [done|].
      rewrite dirname_snoc in E. subst q.
      destruct (decide (p = p ++ [x])) as [E|E].
      { apply (f_equal length) in E. rewrite length_app in E. simpl in E. lia. }
      rewrite lookup_insert_ne in Hq by done.
      apply Hp. apply (wf_parent fs p x Hwf). by rewrite Hq.
    + rewrite lookup_insert_ne by done.
      destruct (decide (p = q)) as [<-|Hpq]; [done|].
      rewrite lookup_insert_ne in Hq by done. by apply (proj2 Hwf q n).
Qed.

(** ** The package identifier *)

Lemma replace_all_length (c d : ascii) (s : string) :
  String.length (Js.replace_all c d s) = String.length s.
Proof. induction s as [|a s IH]; simpl; congruence. Qed.

Lemma replace_all_get (c d : ascii) (s : string) (i : nat) :
  String.get i (Js.replace_all c d s) =
    (λ a, if Ascii.eqb a c then d else a) <$> String.get i s.
Proof.
  revert i. induction s as [|a s IH]; intros i; [done|].
  destruct i as [|i]; simpl; [done|]. apply IH.
Qed.

Lemma wf_file_parent (fs : FS) (p : Path.t) (c : data) :
  Fs.wf fs → fs !! p = Some (File c) → Fs.is_dir fs (Path.dirname p) = true.
Proof.
  intros Hwf Hp. apply is_dir_true. destruct Hwf as [Hroot Hpar].
  apply (Hpar p (File c) Hp). intros ->. congruence.
Qed.

Lemma plain_names_insert (fs : FS) (p : Path.t) (n : node) :
  is_Some (fs !! p) → plain_names fs → plain_names (<[p := n]> fs).
Proof.
  intros Hp H q x Hq. apply (H q). destruct (decide (p = q ++ [x])) as [<-|Hne].
  - done.
  - by rewrite lookup_insert_ne in Hq.
Qed.

Section Project.

Context {CC : CordovaCommon}.

Lemma updateProjectAccordingTo_head cfg loc fs pkg m :
  project_ready cfg loc fs pkg m →
  updateProjectAccordingTo cfg loc fs =
    relocateMainActivity loc (packageId m) pkg (manifest_written cfg loc fs pkg m).
Proof.
  intros [Hwf (sroot & Hs & [sroot' Hset]) Hpkg Hm Hne [vc Hvc]].
  unfold updateProjectAccordingTo, manifest_written. rewrite Hs, Hvc, Hset, Hpkg.
  munfold. unfold parseElementtreeSync. rewrite Hs. cbv beta iota.
  rewrite Hset. cbv beta iota. unfold NodeFs.writeFileSync.
  assert (Fs.is_dir fs (strings loc) = false) as ->.
  { apply is_dir_false. congruence. }
  rewrite (wf_file_parent fs _ _ Hwf Hs). cbv beta iota.
  unfold new_AndroidManifest. rewrite lookup_insert_ne, Hm by done.
  cbv beta iota. unfold AndroidManifest_write, NodeFs.writeFileSync.
  assert (Fs.is_dir (<[strings loc:=File (Xml sroot')]> fs) (manifest loc) = false) as ->.
  { apply is_dir_false. rewrite lookup_insert_ne by done. congruence. }
  assert (Fs.is_dir (<[strings loc:=File (Xml sroot')]> fs)
            (Path.dirname (manifest loc)) = true) as ->; [|done].
  pose proof (wf_file_parent fs _ _ Hwf Hm) as Hd. apply is_dir_true in Hd.
  apply is_dir_true. rewrite lookup_insert_ne; [done|]. intros E. congruence.
Qed.

Lemma manifest_written_names cfg loc fs pkg m :
  project_ready cfg loc fs pkg m → plain_names fs →
  plain_names (manifest_written cfg loc fs pkg m).
Proof.
  intros [Hwf (sroot & Hs & [sroot' Hset]) Hpkg Hm Hne [vc Hvc]] Hn.
  unfold manifest_written. rewrite Hs, Hvc, Hset.
  apply plain_names_insert.
  - rewrite lookup_insert_ne by done. by rewrite Hm.
  - apply plain_names_insert; [by rewrite Hs|done].
Qed.

Lemma manifest_written_lookup cfg loc fs pkg m :
  project_ready cfg loc fs pkg m →
  ∃ vc, versionCode_of cfg = Some vc ∧
    manifest_written cfg loc fs pkg m !! manifest loc =
      Some (File (Manifest (updateManifest cfg pkg vc m))).
Proof.
  intros [Hwf (sroot & Hs & [sroot' Hset]) Hpkg Hm Hne [vc Hvc]].
  exists vc. split; [done|]. unfold manifest_written. rewrite Hs, Hvc, Hset.
  by rewrite lookup_insert_eq.
Qed.

(** Claim C2.  The package identifier that [updateProjectAccordingTo]
    derives is the Android package name of the configuration when that is
    present (a non-empty string), else its package name, with every ['-']
    replaced by ['_'] and nothing else changed; and after the call the
    manifest file holds a manifest whose package id is this identifier. *)
Theorem updateProjectAccordingTo_package_id cfg loc fs pkg m name :
  project_ready cfg loc fs pkg m →
  plain_names fs →
  ¬ (root loc ++ ["src"]) `prefix_of` manifest loc →
  (if Js.truthy (android_packageName (doc cfg))
   then android_packageName (doc cfg)
   else packageName (doc cfg)) = Some name →
  pkg = Js.replace_all "-" "_" name
  ∧ String.length pkg = String.length name
  ∧ (∀ i, String.get i pkg =
            (λ c, if Ascii.eqb c "-" then "_"%char else c) <$> String.get i name)
  ∧ ∃ m', (updateProjectAccordingTo cfg loc fs).2 !! manifest loc
            = Some (File (Manifest m'))
          ∧ packageId m' = pkg.
Proof.
  intros Hready Hnames Hout Hname.
  assert (pkg = Js.replace_all "-" "_" name) as Hpkg.
  { pose proof (ready_pkg _ _ _ _ _ Hready) as H. unfold derived_pkg, Js.or_else in H.
    rewrite Hname in H. congruence. }
  split; [done|]. split; [by rewrite Hpkg, replace_all_length|].
  split; [intros i; by rewrite Hpkg, replace_all_get|].
  rewrite (updateProjectAccordingTo_head _ _ _ _ _ Hready).
  destruct (manifest_written_lookup _ _ _ _ _ Hready) as (vc & Hvc & Hl).
  eexists. split.
  - eapply relocateMainActivity_outside; [|done|exact Hl].
    by apply manifest_written_names.
  - done.
Qed.

End Project.

(** ** The main activity moved *)


Lemma ls_dir (dir : Path.t) (pre suf : string) (fs : FS) :
  fs !! dir = Some Dir →
  Shell.ls dir pre suf fs =
    (Ok (List.filter (λ p, Shell.glob pre suf (Path.basename p)) (Fs.entries fs dir)), fs).
Proof. intros H. unfold Shell.ls. by rewrite H. Qed.


(** ** The project after the move *)









Lemma entries_insert_other (fs : FS) (p d : Path.t) (n : node) :
  ¬ Fs.child_of d p → Fs.entries (<[p := n]> fs) d = Fs.entries fs d.
Proof.
  intros H. unfold Fs.entries. by rewrite map_filter_insert_not.
Qed.

Lemma child_of_prefix (sources d p : Path.t) :
  sources `prefix_of` d → Fs.child_of d p → sources `prefix_of` p.
Proof.
  intros Hd Hc. apply child_of_snoc in Hc as [x ->]. by apply prefix_app_r.
Qed.


Section Relocation.

Context {CC : CordovaCommon}.

Variables (cfg : ConfigParser) (loc : Locations) (fs : FS)
          (pkg : string) (m : AndroidManifest).

Local Abbreviation sources := (root loc ++ ["src"]).

Hypothesis ready : project_ready cfg loc fs pkg m.

Hypothesis strings_outside : ¬ sources `prefix_of` strings loc.

Hypothesis manifest_outside : ¬ sources `prefix_of` manifest loc.

Local Abbreviation fs2 := (manifest_written cfg loc fs pkg m).

Lemma manifest_written_other (q : Path.t) :
  q ≠ strings loc → q ≠ manifest loc → fs2 !! q = fs !! q.
Proof.
  intros H1 H2. unfold manifest_written.
  destruct (fs !! strings loc) as [[[| |]|]|]; try done.
  destruct (versionCode_of cfg); [|done].
  destruct (set_app_name _ _); [|done].
  by rewrite !lookup_insert_ne.
Qed.

Lemma manifest_written_inside (q : Path.t) :
  sources `prefix_of` q → fs2 !! q = fs !! q.
Proof. intros Hq. apply manifest_written_other; by intros ->. Qed.


Lemma manifest_written_is_file (q : Path.t) :
  Fs.is_file fs2 q = Fs.is_file fs q.
Proof.
  destruct ready as [Hwf (sroot & Hs & [sroot' Hset]) Hpkg Hm Hne [vc Hvc]].
  unfold manifest_written, Fs.is_file. rewrite Hs, Hvc, Hset.
  destruct (decide (manifest loc = q)) as [<-|H1].
  { by rewrite lookup_insert_eq, Hm. }
  rewrite lookup_insert_ne by done.
  destruct (decide (strings loc = q)) as [<-|H2].
  { by rewrite lookup_insert_eq, Hs. }
  by rewrite lookup_insert_ne.
Qed.

Lemma manifest_written_wf : Fs.wf fs2.
Proof.
  destruct ready as [Hwf (sroot & Hs & [sroot' Hset]) Hpkg Hm Hne [vc Hvc]].
  unfold manifest_written. rewrite Hs, Hvc, Hset.
  assert (∀ p c, fs !! p = Some (File c) → p ≠ []) as Hnr.
  { intros p c Hp ->. destruct Hwf as [Hr _]. congruence. }
  apply insert_file_wf.
  - apply insert_file_wf; [done|congruence| |by eapply Hnr].
    apply is_dir_true. by eapply wf_file_parent.
  - rewrite lookup_insert_ne by done. congruence.
  - rewrite lookup_insert_ne.
    + apply is_dir_true. by eapply wf_file_parent.
    + intros E. pose proof (wf_file_parent fs _ _ Hwf Hm) as Hd.
      apply is_dir_true in Hd. congruence.
  - by eapply Hnr.
Qed.

Lemma manifest_written_entries (d : Path.t) :
  sources `prefix_of` d → Fs.entries fs2 d = Fs.entries fs d.
Proof.
  intros Hd. destruct ready as [Hwf (sroot & Hs & [sroot' Hset]) Hpkg Hm Hne [vc Hvc]].
  unfold manifest_written. rewrite Hs, Hvc, Hset.
  rewrite !entries_insert_other; [done|..].
  - intros Hc. apply strings_outside. by eapply child_of_prefix.
  - intros Hc. apply manifest_outside. by eapply child_of_prefix.
Qed.

Lemma manifest_written_activity_files (orig : string) :
  activity_files fs2 (package_dir sources orig) =
  activity_files fs (package_dir sources orig).
Proof.
  destruct (package_dir_below sources orig) as [segs Hsegs].
  unfold activity_files. rewrite manifest_written_entries.
  2:{ rewrite Hsegs. by apply prefix_app_r. }
  apply filter_ext_in. intros p Hp. apply filter_In in Hp as [Hp _].
  apply list_elem_of_In, elem_of_entries in Hp as [Hc _].
  unfold extends_activity. rewrite manifest_written_inside; [done|].
  eapply child_of_prefix; [|done]. rewrite Hsegs. by apply prefix_app_r.
Qed.

Lemma manifest_written_text (orig : string) :
  java_sources_are_text fs (package_dir sources orig) →
  java_sources_are_text fs2 (package_dir sources orig).
Proof.
  destruct (package_dir_below sources orig) as [segs Hsegs].
  intros H p Hp Hg. rewrite manifest_written_entries in Hp.
  2:{ rewrite Hsegs. by apply prefix_app_r. }
  rewrite manifest_written_inside; [by apply H|].
  apply elem_of_entries in Hp as [Hc _].
  eapply child_of_prefix; [|done]. rewrite Hsegs. by apply prefix_app_r.
Qed.


End Relocation.

(** ** Relocation and its failure *)


Section Claims.

Context {CC : CordovaCommon}.



End Claims.

(** ** The icons copied *)


Lemma winner_density (d : string) (icons : list resource) (w : resource) :
  winner d icons = Some w → icon_density w = Some d ∧ w ∈ icons.
Proof.
  unfold winner. intros H.
  assert (w ∈ List.filter (has_density d) icons) as Hin.
  { destruct (List.find _ _) as [p|] eqn:E.
    - simplify_eq. apply find_some in E as [E _]. by apply list_elem_of_In.
    - destruct (List.filter _ _) as [|x l] using rev_ind; [done|].
      rewrite last_snoc in H. simplify_eq. apply elem_of_app. right. by left. }
  apply list_elem_of_In, filter_In in Hin as [Hin Hd]. split; [|by apply list_elem_of_In].
  unfold has_density in Hd. destruct (icon_density w) as [d'|]; [|done].
  apply String.eqb_eq in Hd. by subst.
Qed.




Section Icons.

Context {CC : CordovaCommon}.


End Icons.

(** ** The destination of an image *)

Lemma replace_suffix_app (suf new b : string) :
  Js.replace_suffix suf new (b +:+ suf) = b +:+ new.
Proof.
  unfold Js.replace_suffix. rewrite srev_app, strip_prefix_app.
  by rewrite srev_involutive.
Qed.

(** Claim C8.  [copyImage] stores the image in [res/drawable-<d>] when
    [d] is non-empty and in [res/drawable] when it is empty, a folder it
    creates when missing; the file is stored under [n], or, when the
    source path ends in [.9.png], under [n] with its [.png] suffix
    replaced by [.9.png]. *)
Theorem copyImage_destination (src resourcesDir : Path.t) (d n : string)
    (c : data) (fs : FS) :
  let destFolder :=
    resourcesDir ++ [if Js.truthy_str d then "drawable-" +:+ d else "drawable"] in
  let stored :=
    if Js.ends_with ".9.png" (Path.basename src)
    then Js.replace_suffix ".png" ".9.png" n else n in
  no_slash d = true →
  plain n = true →
  fs !! resourcesDir = Some Dir →
  (fs !! destFolder = None ∨ fs !! destFolder = Some Dir) →
  fs !! (destFolder ++ [stored]) ≠ Some Dir →
  fs !! src = Some (File c) →
  (∀ b, n = b +:+ ".png" → Js.replace_suffix ".png" ".9.png" n = b +:+ ".9.png")
  ∧ ∃ fs', copyImage src resourcesDir d n fs = (Ok tt, fs')
      ∧ fs' !! destFolder = Some Dir
      ∧ fs' !! (destFolder ++ [stored]) = Some (File c).
Proof.
  intros destFolder stored Hd Hn Hres Hfolder Htarget Hsrc.
  split; [intros b ->; apply replace_suffix_app|].
  assert (destFolder = drawable resourcesDir d) as Hf.
  { unfold destFolder, drawable, drawable_name. by destruct d. }
  assert (stored = stored_name src n) as Hs by done.
  rewrite Hf, Hs in *.
  rewrite (copyImage_run src resourcesDir d n fs Hd Hn Hres Hfolder Htarget), Hsrc.
  eexists. split; [done|]. split.
  - rewrite lookup_insert_ne by apply snoc_ne_self. by rewrite lookup_insert_eq.
  - by rewrite lookup_insert_eq.
Qed.

(** ** The default resource *)



Section Defaults.

Context {CC : CordovaCommon}.



End Defaults.

(** ** The phases of [prepare] and the configuration *)

Section Phases.

Variables (config : M ConfigParser) (wwwFrom : M unit)
          (projectAccordingTo : ConfigParser → M unit) (icons splashes : M unit).

Local Abbreviation observed_run :=
  (prepare_with (observed MergeConfig config) (observed CopyWww wwwFrom)
     (λ c, observed UpdateProject (projectAccordingTo c))
     (observed CopyIcons icons) (observed CopySplashes splashes)).



End Phases.

Section PreparePhases.

Context {CC : CordovaCommon}.



End PreparePhases.

(** ** The checks are sound *)

Lemma elem_of_paths (fs : FS) (p : Path.t) : p ∈ paths fs ↔ is_Some (fs !! p).
Proof.
  unfold paths. rewrite list_elem_of_fmap. split.
  - intros ([q n] & -> & H). apply elem_of_map_to_list in H. by eexists.
  - intros [n H]. exists (p, n). split; [done|]. by apply elem_of_map_to_list.
Qed.

Lemma forallb_paths (f : Path.t → bool) (fs : FS) (p : Path.t) :
  forallb f (paths fs) = true → is_Some (fs !! p) → f p = true.
Proof.
  intros H Hp. rewrite forallb_forall in H. apply H.
  by apply list_elem_of_In, elem_of_paths.
Qed.

Lemma wf_check_wf (fs : FS) : wf_check fs = true → Fs.wf fs.
Proof.
  unfold wf_check. intros [H0 H]%andb_true_iff. split; [by apply is_dir_true|].
  intros p n Hp Hne. apply (forallb_paths _ _ p) in H; [|by eexists].
  destruct p; [done|]. by apply is_dir_true.
Qed.

Lemma plain_names_check_ok (fs : FS) : plain_names_check fs = true → plain_names fs.
Proof.
  intros H p x Hp. apply (forallb_paths _ _ (p ++ [x])) in H; [|done].
  cbv beta in H. destruct (p ++ [x]) as [|y l] eqn:E; [by destruct p|].
  rewrite <- E in H. by rewrite basename_snoc in H.
Qed.

Lemma no_file_on_prefix (fs : FS) (p q : Path.t) :
  no_file_on fs p = true → q `prefix_of` p → Fs.is_file fs q = false.
Proof.
  unfold no_file_on. rewrite forallb_forall. intros H [k ->].
  specialize (H (length q)). rewrite take_app_length in H.
  apply negb_true_iff, H, in_seq. rewrite length_app. lia.
Qed.

Lemma text_check_ok (fs : FS) (javaDir : Path.t) :
  text_check fs javaDir = true → java_sources_are_text fs javaDir.
Proof.
  unfold text_check. rewrite forallb_forall. intros H p Hp Hg.
  apply list_elem_of_In, H in Hp. rewrite Hg in Hp. simpl in Hp.
  destruct (fs !! p) as [[[s| |]|]|]; try done. by exists s.
Qed.

Lemma kinds_agree_b_ok (a b : option node) : kinds_agree_b a b = true → kinds_agree a b.
Proof. by destruct a as [[|]|], b as [[|]|]. Qed.

Lemma layers_check_ok (fs : FS) (a b r : Path.t) :
  layers_check fs a b = true → kinds_agree (fs !! (a ++ r)) (fs !! (b ++ r)).
Proof.
  intros H. destruct (fs !! (a ++ r)) as [n|] eqn:E; [|done].
  apply (forallb_paths _ _ (a ++ r)) in H; [|by eexists].
  cbv beta in H. rewrite decide_True in H by (by apply prefix_app_r).
  rewrite drop_app_length, E in H. by apply kinds_agree_b_ok.
Qed.


(** ** The sample project satisfies the side conditions *)

Section HelloExamples.

#[local] Existing Instance Hello.common.

(** The sample project is in the state [updateProjectAccordingTo] expects,
    also after files have been added to it. *)
Lemma hello_ready (fs : FS) :
  wf_check fs = true →
  fs !! strings Hello.locs = Some (File (Xml Hello.string_resources)) →
  fs !! manifest Hello.locs = Some (File (Manifest Hello.android_manifest)) →
  project_ready Hello.config Hello.locs fs "io.cordova.hello_app" Hello.android_manifest.
Proof.
  intros Hwf Hs Hm. split.
  - by apply wf_check_wf.
  - exists Hello.string_resources. split; [done|]. eexists. vm_compute. reflexivity.
  - by vm_compute.
  - done.
  - by vm_compute.
  - eexists. vm_compute. reflexivity.
Qed.


(** The package of the sample project: its dashes become underscores. *)
Lemma updateProjectAccordingTo_package_id_witness :
  let pkg := "io.cordova.hello_app" in
  let name := "io.cordova.hello-app" in
  pkg = Js.replace_all "-" "_" name
  ∧ String.length pkg = String.length name
  ∧ (∀ i, String.get i pkg =
            (λ c, if Ascii.eqb c "-" then "_"%char else c) <$> String.get i name)
  ∧ ∃ m', (updateProjectAccordingTo Hello.config Hello.locs Hello.fs).2
            !! manifest Hello.locs = Some (File (Manifest m'))
          ∧ packageId m' = pkg.
Proof.
  apply (updateProjectAccordingTo_package_id Hello.config Hello.locs Hello.fs
           "io.cordova.hello_app" Hello.android_manifest "io.cordova.hello-app").
  - apply hello_ready; by vm_compute.
  - apply plain_names_check_ok. by vm_compute.
  - by_computation.
  - by vm_compute.
Defined.



(** The three layers of the sample project. *)
Lemma updateWwwFrom_layers_witness :
  let fs := Hello.fs in
  let proj := Hello.project in
  let loc := Hello.locs in
  ∃ fs', updateWwwFrom proj loc fs = (Ok tt, fs')
    ∧ fs' !! www loc = Some Dir
    ∧ (∀ r, r ≠ [] →
         fs' !! (www loc ++ r) =
           if shown r
           then fs !! (merges_android proj ++ r)
                ∪ fs !! (platformWww loc ++ r)
                ∪ fs !! (project_www proj ++ r)
           else None)
    ∧ (∀ q, ¬ www loc `prefix_of` q → ¬ q `prefix_of` www loc → fs' !! q = fs !! q).
Proof.
  apply (updateWwwFrom_layers Hello.project Hello.locs Hello.fs).
  - apply wf_check_wf. by vm_compute.
  - split; by_computation.
  - split; by_computation.
  - split; by_computation.
  - intros q Hq _. revert Hq. apply no_file_on_prefix. by vm_compute.
  - by vm_compute.
  - by vm_compute.
  - by vm_compute.
  - intros r _. split; [|split]; apply layers_check_ok; by vm_compute.
Defined.



End HelloExamples.

(** A nine-patch image copied for a density that has no folder yet. *)
Lemma copyImage_destination_witness :
  let src := Hello.app ++ ["res"; "logo.9.png"] in
  let res := Hello.platform_dir ++ ["res"] in
  (∀ b, "icon.png" = b +:+ ".png" →
        Js.replace_suffix ".png" ".9.png" "icon.png" = b +:+ ".9.png")
  ∧ ∃ fs', copyImage src res "xhdpi" "icon.png" Hello.fs = (Ok tt, fs')
      ∧ fs' !! (res ++ ["drawable-xhdpi"]) = Some Dir
      ∧ fs' !! (res ++ ["drawable-xhdpi"; "icon.9.png"])
          = Some (File (Raw "a nine-patch logo")).
Proof.
  pose proof (copyImage_destination (Hello.app ++ ["res"; "logo.9.png"])
                (Hello.platform_dir ++ ["res"]) "xhdpi" "icon.png"
                (Raw "a nine-patch logo") Hello.fs) as H.
  cbv zeta in H. cbv zeta.
  destruct H as [H1 (fs' & H2 & H3 & H4)].
  - by vm_compute.
  - by vm_compute.
  - by vm_compute.
  - left. by vm_compute.
  - by vm_compute.
  - by vm_compute.
  - split; [exact H1|]. exists fs'. split; [exact H2|]. split.
    + exact H3.
    + rewrite <- H4. by vm_compute.
Defined.

(** ** The version code: sign, suffix and further components *)

Lemma split_go_sep (c : ascii) (cur v s : string) :
  c ∉ chars v →
  Js.split_go c cur (v +:+ String c s) = (Js.srev cur +:+ v) :: Js.split_go c EmptyString s.
Proof.
  revert cur. induction v as [|a v IH]; intros cur Hv.
  - rewrite append_nil_l, append_nil_r. simpl. by rewrite Ascii.eqb_refl.
  - rewrite append_cons. simpl. unfold chars in Hv. simpl in Hv.
    apply not_elem_of_cons in Hv as [Hne Hv].
    destruct (Ascii.eqb_spec a c) as [->|_]; [done|].
    rewrite IH by done. f_equal. rewrite srev_cons, append_assoc. by rewrite append_cons.
Qed.

Lemma split_no_sep (c : ascii) (v : string) : c ∉ chars v → Js.split c v = [v].
Proof.
  intros Hv. unfold Js.split. rewrite split_go_no_sep; [done|].
  intros a Ha ->. by apply Hv.
Qed.

Lemma split_sep (c : ascii) (v s : string) :
  c ∉ chars v → Js.split c (v +:+ String c s) = v :: Js.split c s.
Proof. intros Hv. unfold Js.split. by rewrite split_go_sep. Qed.

Lemma digit_val_nonneg (base : Z) (c : ascii) (d : Z) :
  Js.digit_val base c = Some d → 0 ≤ d.
Proof.
  unfold Js.digit_val, Js.is_digit, Js.in_range. intros H.
  repeat case_match; simplify_eq;
    repeat match goal with
           | H : (_ && _)%bool = true |- _ => apply andb_true_iff in H as [? ?]
           | H : (_ <=? _)%N = true |- _ => apply N.leb_le in H
           end; lia.
Qed.

Lemma digits_go_nonneg (base : Z) (s : string) (acc z : Z) :
  0 ≤ base → 0 ≤ acc → Js.digits_go base acc s = Some z → 0 ≤ z.
Proof.
  intros Hb. revert acc. induction s as [|c s IH]; intros acc Hacc; simpl.
  - intros [= <-]. done.
  - destruct (Js.digit_val base c) as [d|] eqn:E; [|done].
    apply digit_val_nonneg in E. apply IH. nia.
Qed.

Lemma digits_nonneg (base : Z) (s : string) (z : Z) :
  0 ≤ base → Js.digits base s = Some z → 0 ≤ z.
Proof.
  intros Hb. unfold Js.digits. destruct s; [done|]. by apply digits_go_nonneg.
Qed.

Lemma of_digits_nonneg (base : Z) (s : string) (z : Z) :
  0 ≤ base → Js.of_digits (Js.digits base s) = Js.Fin z → 0 ≤ z.
Proof.
  intros Hb. destruct (Js.digits base s) as [v|] eqn:E; [|done].
  intros [= <-]. by eapply digits_nonneg.
Qed.

Lemma decimal_literal_nonneg (s : string) (z : Z) :
  Js.decimal_literal s = Js.Fin z → 0 ≤ z.
Proof.
  unfold Js.decimal_literal. destruct (Js.span_digits _ s) as [m rest].
  destruct (Js.digits 10 m) as [v|] eqn:Ev; [|done].
  apply digits_nonneg in Ev; [|done]. destruct rest as [|e r]; [by intros [= <-]|].
  destruct (_ || _); [|done].
  match goal with |- context [Js.digits 10 ?r'] => destruct (Js.digits 10 r') as [x|] eqn:Ex end;
    [|done].
  apply digits_nonneg in Ex; [|done]. intros [= <-].
  apply Z.mul_nonneg_nonneg; [done|]. by apply Z.pow_nonneg.
Qed.

Lemma to_number_nonneg (s : string) (z : Z) : Js.to_number s = Js.Fin z → 0 ≤ z.
Proof.
  unfold Js.to_number. intros H.
  repeat case_match; simplify_eq.
  all: try done.
  all: try (by eapply decimal_literal_nonneg).
  all: try (eapply of_digits_nonneg; [|eassumption]; done).
Qed.

Lemma contribution_not_negative (c : option string) : not_negative (contribution c).
Proof.
  destruct c as [s|]; simpl; [|lia].
  destruct (Js.to_number s) as [| |z] eqn:E; simpl; [lia|done|].
  by eapply to_number_nonneg.
Qed.

Lemma num_add_not_negative (a b : Js.number) :
  not_negative a → not_negative b → not_negative (Js.num_add a b).
Proof. destruct a, b; simpl; try done. lia. Qed.

Lemma num_mul_not_negative (a : Js.number) (k : Z) :
  0 < k → not_negative a → not_negative (Js.num_mul a (Js.Fin k)).
Proof.
  intros Hk. destruct a; simpl; try done.
  - intros _. destruct (Z.ltb_spec 0 k); [done|lia].
  - nia.
Qed.

(** The version code is a number: never [NaN], never negative. *)
Theorem default_versionCode_not_negative (version : string) :
  not_negative (default_versionCode version).
Proof.
  unfold default_versionCode.
  set (nums := Js.split "." _).
  destruct (contribution_cases (nums !! 0%nat)) as [[-> E0]|[-> _]],
           (contribution_cases (nums !! 1%nat)) as [[-> E1]|[-> _]],
           (contribution_cases (nums !! 2%nat)) as [[-> E2]|[-> _]];
    rewrite <- ?E0, <- ?E1, <- ?E2;
    repeat apply num_add_not_negative;
    try apply num_mul_not_negative; try done; apply contribution_not_negative.
Qed.

Lemma default_versionCode_components (v w : string) :
  take 3 (Js.split "." (hd EmptyString (Js.split "-" v)))
    = take 3 (Js.split "." (hd EmptyString (Js.split "-" w))) →
  default_versionCode v = default_versionCode w.
Proof.
  intros H. unfold default_versionCode.
  assert (∀ i, (i < 3)%nat →
            Js.split "." (hd EmptyString (Js.split "-" v)) !! i
              = Js.split "." (hd EmptyString (Js.split "-" w)) !! i) as Hi.
  { intros i Hi. rewrite <- (lookup_take_lt _ 3 i), H by done. by rewrite lookup_take_lt. }
  by rewrite !(Hi 0%nat), !(Hi 1%nat), !(Hi 2%nat) by lia.
Qed.

(** Whatever follows the first '-' of a version does not count. *)
Theorem default_versionCode_ignores_suffix (v s : string) :
  "-"%char ∉ chars v →
  default_versionCode (v +:+ "-" +:+ s) = default_versionCode v.
Proof.
  intros Hv. apply default_versionCode_components.
  change ("-" +:+ s) with (String "-" s).
  by rewrite (split_sep "-" v), (split_no_sep "-" v).
Qed.

(** A pre-release suffix that itself holds a dot. *)
Lemma default_versionCode_ignores_suffix_witness :
  default_versionCode ("1.2.3" +:+ "-" +:+ "beta.4") = default_versionCode "1.2.3".
Proof.
  apply (default_versionCode_ignores_suffix "1.2.3" "beta.4").
  apply (bool_decide_unpack _). vm_compute. exact I.
Defined.

(** Components after the third do not count. *)
Theorem default_versionCode_three_components (a b c rest : string) :
  "."%char ∉ chars a → "."%char ∉ chars b → "."%char ∉ chars c →
  "-"%char ∉ chars (a +:+ b +:+ c +:+ rest) →
  default_versionCode (a +:+ "." +:+ b +:+ "." +:+ c +:+ "." +:+ rest)
    = default_versionCode (a +:+ "." +:+ b +:+ "." +:+ c).
Proof.
  intros Ha Hb Hc Hd. rewrite !chars_app, !not_elem_of_app in Hd.
  destruct Hd as (Hda & Hdb & Hdc & Hdr).
  assert (∀ x y : string, "-"%char ∉ chars x → "-"%char ∉ chars y →
            "-"%char ∉ chars (x +:+ "." +:+ y)) as Hjoin.
  { intros x y Hx Hy. rewrite !chars_app, !not_elem_of_app. split; [done|].
    split; [|done]. by apply (bool_decide_unpack _). }
  apply default_versionCode_components.
  rewrite !(split_no_sep "-") by (repeat apply Hjoin; done). cbn [hd].
  change (a +:+ "." +:+ b +:+ "." +:+ c +:+ "." +:+ rest)
    with (a +:+ String "." (b +:+ String "." (c +:+ String "." rest))).
  change (a +:+ "." +:+ b +:+ "." +:+ c)
    with (a +:+ String "." (b +:+ String "." c)).
  rewrite !(split_sep ".") by done. by rewrite (split_no_sep "." c).
Qed.

(** A version of five components. *)
Lemma default_versionCode_three_components_witness :
  default_versionCode ("1" +:+ "." +:+ "2" +:+ "." +:+ "3" +:+ "." +:+ "4.5")
    = default_versionCode ("1" +:+ "." +:+ "2" +:+ "." +:+ "3").
Proof.
  apply (default_versionCode_three_components "1" "2" "3" "4.5");
    apply (bool_decide_unpack _); vm_compute; exact I.
Defined.

(** ** Orientation and launch modes *)

Section Preferences.

Context {CC : CordovaCommon}.

(** [findOrientationValue] returns an orientation that is supported up to
    the case of its letters: the preference as it is written when it is
    supported, and ["default"] in every other case. *)
Theorem findOrientationValue_supported (cfg : ConfigParser) :
  let orientation := getPreference (doc cfg) "orientation" None in
  includes (toLowerCase (findOrientationValue cfg)) GLOBAL_ORIENTATIONS = true
  ∧ (∀ o, orientation = Some o →
          includes (toLowerCase o) GLOBAL_ORIENTATIONS = true →
          findOrientationValue cfg = o)
  ∧ (∀ o, orientation = Some o →
          includes (toLowerCase o) GLOBAL_ORIENTATIONS = false →
          findOrientationValue cfg = "default")
  ∧ (orientation = None → findOrientationValue cfg = "default").
Proof.
  cbv zeta. unfold findOrientationValue, GLOBAL_ORIENTATIONS.
  destruct (getPreference (doc cfg) "orientation" None) as [o|].
  2:{ repeat split; intros; simplify_eq; reflexivity. }
  destruct o as [|c o].
  { repeat split; intros; simplify_eq; try reflexivity; try discriminate. }
  cbn [Js.truthy_str negb].
  destruct (includes (toLowerCase (String c o)) _) eqn:E;
    repeat split; intros; simplify_eq; try reflexivity; try congruence.
Qed.

(** The launch modes are never empty: a preference that is a non-empty
    string is returned as it is, recognised or not, and otherwise the
    default, ["singleTop"] and ["none"]. *)
Theorem launch_modes_kept (cfg : ConfigParser) :
  let launchMode := getPreference (doc cfg) "AndroidLaunchMode" None in
  let documentLaunchMode := getPreference (doc cfg) "AndroidDocumentLaunchMode" None in
  findAndroidLaunchModePreference cfg ≠ ""
  ∧ findAndroidDocumentLaunchModePreference cfg ≠ ""
  ∧ findAndroidLaunchModePreference cfg =
      (if Js.truthy launchMode then default "" launchMode else "singleTop")
  ∧ findAndroidDocumentLaunchModePreference cfg =
      (if Js.truthy documentLaunchMode then default "" documentLaunchMode else "none").
Proof.
  cbv zeta. unfold findAndroidLaunchModePreference, findAndroidDocumentLaunchModePreference.
  destruct (getPreference (doc cfg) "AndroidLaunchMode" None) as [[|c m]|],
           (getPreference (doc cfg) "AndroidDocumentLaunchMode" None) as [[|c' m']|];
    done.
Qed.

End Preferences.

(** ** The project: application name, version and failures *)

Lemma set_first_text_split (new : option string) (l1 : list element) (e : element)
    (l2 : list element) :
  existsb is_app_name l1 = false → is_app_name e = true →
  set_first_text new (l1 ++ e :: l2)
    = Some (l1 ++ Element (tag e) (attrib e) new (children e) :: l2).
Proof.
  intros H1 He. induction l1 as [|x l1 IH]; simpl.
  - by rewrite He.
  - simpl in H1. apply orb_false_iff in H1 as [Hx H1]. rewrite Hx, IH by done. done.
Qed.

Lemma set_first_text_none (new : option string) (es : list element) :
  existsb is_app_name es = false → set_first_text new es = None.
Proof.
  induction es as [|x es IH]; [done|]. simpl. intros H.
  apply orb_false_iff in H as [Hx H]. by rewrite Hx, IH.
Qed.





Section ProjectExtras.

Context {CC : CordovaCommon}.

(** The application name goes into the first [app_name] string of
    [strings.xml] and nowhere else, whatever happens afterwards. *)
Theorem updateProjectAccordingTo_app_name (cfg : ConfigParser) (loc : Locations)
    (fs : FS) (pkg : string) (m : AndroidManifest)
    (t : string) (a : list (string * string)) (x : option string)
    (l1 : list element) (e : element) (l2 : list element) :
  project_ready cfg loc fs pkg m →
  plain_names fs →
  ¬ (root loc ++ ["src"]) `prefix_of` strings loc →
  fs !! strings loc = Some (File (Xml (Element t a x (l1 ++ e :: l2)))) →
  existsb is_app_name l1 = false →
  is_app_name e = true →
  (updateProjectAccordingTo cfg loc fs).2 !! strings loc
    = Some (File (Xml (Element t a x
              (l1 ++ Element (tag e) (attrib e) (name (doc cfg)) (children e) :: l2)))).
Proof.
  intros Hready Hnames Hout Hs H1 He.
  rewrite (updateProjectAccordingTo_head _ _ _ _ _ Hready).
  eapply relocateMainActivity_outside; [|done|].
  { by apply manifest_written_names. }
  destruct Hready as [_ _ _ _ Hne [vc Hvc]].
  unfold manifest_written. rewrite Hs, Hvc. unfold set_app_name. cbn [children tag attrib text].
  rewrite set_first_text_split by done. cbn [fmap option_fmap option_map].
  rewrite lookup_insert_ne by done. by rewrite lookup_insert_eq.
Qed.

(** Without an [app_name] string in [strings.xml] the update stops with a
    [TypeError] before anything is written. *)
Theorem updateProjectAccordingTo_no_app_name (cfg : ConfigParser) (loc : Locations)
    (fs : FS) (sroot : element) :
  fs !! strings loc = Some (File (Xml sroot)) →
  existsb is_app_name (children sroot) = false →
  updateProjectAccordingTo cfg loc fs = (Throw TypeError, fs).
Proof.
  intros Hs Hno. unfold updateProjectAccordingTo, parseElementtreeSync. munfold.
  rewrite Hs. cbv beta iota. unfold set_app_name.
  by rewrite set_first_text_none.
Qed.

(** The manifest gets the version of the configuration as its version
    name, and as its version code the [android-versionCode] of the
    configuration when that is not empty, else the default version code
    of the version, whatever happens afterwards. *)
Theorem updateProjectAccordingTo_version (cfg : ConfigParser) (loc : Locations)
    (fs : FS) (pkg : string) (m : AndroidManifest) :
  project_ready cfg loc fs pkg m →
  plain_names fs →
  ¬ (root loc ++ ["src"]) `prefix_of` manifest loc →
  ∃ m', (updateProjectAccordingTo cfg loc fs).2 !! manifest loc
          = Some (File (Manifest m'))
    ∧ versionName m' = version (doc cfg)
    ∧ (∀ c, android_versionCode (doc cfg) = Some c → c ≠ "" →
            versionCode m' = Some (SStr c))
    ∧ (Js.truthy (android_versionCode (doc cfg)) = false →
       ∀ v, version (doc cfg) = Some v →
            versionCode m' = Some (SNum (default_versionCode v))).
Proof.
  intros Hready Hnames Hout.
  rewrite (updateProjectAccordingTo_head _ _ _ _ _ Hready).
  destruct (manifest_written_lookup _ _ _ _ _ Hready) as (vc & Hvc & Hl).
  eexists. split.
  { eapply relocateMainActivity_outside; [|done|exact Hl].
    by apply manifest_written_names. }
  split; [done|]. cbn [updateManifest versionCode setTargetSdkVersion setMaxSdkVersion
                       setMinSdkVersion setPackageId setVersionCode].
  unfold versionCode_of in Hvc. split.
  - intros c Hc Hne. rewrite Hc in Hvc. destruct c; [done|]. simpl in Hvc. congruence.
  - intros Hf v Hv. rewrite Hf, Hv in Hvc. simpl in Hvc. congruence.
Qed.

(** When no Java file of the package extends CordovaActivity, the
    [CordovaError] comes after [strings.xml] and the manifest have been
    written: they stay written, and nothing else has changed. *)
Theorem updateProjectAccordingTo_no_activity (cfg : ConfigParser) (loc : Locations)
    (fs : FS) (pkg : string) (m : AndroidManifest) :
  let sources := root loc ++ ["src"] in
  let javaDir := package_dir sources (packageId m) in
  project_ready cfg loc fs pkg m →
  ¬ sources `prefix_of` strings loc →
  ¬ sources `prefix_of` manifest loc →
  java_sources_are_text fs javaDir →
  Fs.is_file fs javaDir = false →
  activity_files fs javaDir = [] →
  updateProjectAccordingTo cfg loc fs =
    (Throw (CordovaError "No Java files found which extend CordovaActivity."),
     manifest_written cfg loc fs pkg m).
Proof.
  intros sources javaDir Hready Hs Hm Htext Hjava Hnone.
  rewrite (updateProjectAccordingTo_head _ _ _ _ _ Hready).
  set (fs2 := manifest_written cfg loc fs pkg m).
  pose proof (manifest_written_activity_files cfg loc fs pkg m Hready Hs Hm
                (packageId m)) as Hact. fold sources javaDir fs2 in Hact.
  pose proof (manifest_written_text cfg loc fs pkg m Hready Hs Hm
                (packageId m) Htext) as Htext2. fold sources javaDir fs2 in Htext2.
  pose proof (manifest_written_wf cfg loc fs pkg m Hready) as Hwf2. fold fs2 in Hwf2.
  unfold relocateMainActivity. cbv zeta.
  rewrite (join_plain (root loc) "src") by done.
  fold sources. fold (package_dir sources (packageId m)). fold javaDir is_activity.
  unfold mbind at 1, St_bind at 1.
  destruct (fs2 !! javaDir) as [[c|]|] eqn:Ej.
  - rewrite <- manifest_written_is_file with (cfg := cfg) (loc := loc)
      (pkg := pkg) (m := m) in Hjava by done.
    fold fs2 in Hjava. unfold Fs.is_file in Hjava. by rewrite Ej in Hjava.
  - rewrite (ls_dir javaDir) by done.
    unfold mbind at 1, St_bind at 1. rewrite filterM_text.
    2:{ intros p Hp. apply list_elem_of_In, filter_In in Hp as [Hp Hg].
        apply Htext2; [by apply list_elem_of_In|done]. }
    fold (activity_files fs2 javaDir). by rewrite Hact, Hnone.
  - unfold Shell.ls. rewrite Ej. cbn [filterM]. by munfold.
Qed.


End ProjectExtras.

(** ** Exceptions and rejections of [prepare] *)

(** A run is its result and the files it leaves. *)
Lemma run_split {A : Type} (r : res A * FS) (a : res A) : r.1 = a → r = (a, r.2).
Proof. intros <-. by destruct r. Qed.

Section PrepareExtras.

Context {CC : CordovaCommon}.

(** An exception of [updateConfigFilesFrom] leaves [prepare] as an
    exception: no promise is returned, and no later phase runs. *)
Theorem prepare_throws_config (self : Api) (cordovaProject : CordovaProject)
    (fs fs1 : FS) (e : exn) :
  updateConfigFilesFrom (projectConfig cordovaProject) (_munger self) (locations self) fs
    = (Throw e, fs1) →
  prepare self cordovaProject fs = (Throw e, fs1).
Proof.
  intros H. unfold prepare, prepare_with. munfold. by rewrite H.
Qed.

(** An exception of [updateProjectAccordingTo] rejects the promise that
    [prepare] returns: icons and splash screens are not handled, the
    files stay as the failed call left them, and the platform keeps the
    merged configuration. *)
Theorem prepare_rejected_by_project (self : Api) (cordovaProject : CordovaProject)
    (fs fs1 fs2 fs3 : FS) (c : ConfigParser) (e : exn) :
  updateConfigFilesFrom (projectConfig cordovaProject) (_munger self) (locations self) fs
    = (Ok c, fs1) →
  updateWwwFrom cordovaProject (locations self) fs1 = (Ok tt, fs2) →
  updateProjectAccordingTo c (locations self) fs2 = (Throw e, fs3) →
  caught e →
  prepare self cordovaProject fs =
    (Ok ({| _munger := _munger self; locations := locations self;
            api_root := api_root self; _config := Some c |},
         Rejected e), fs3).
Proof.
  intros H1 H2 H3 [He1 He2]. unfold prepare, prepare_with, then_, Q_when. munfold.
  rewrite H1, H2, H3. by destruct e.
Qed.

(** An exception of [handleIcons] rejects the promise as well, and
    [handleSplashes] does not run. *)
Theorem prepare_rejected_by_icons (self : Api) (cordovaProject : CordovaProject)
    (fs fs1 fs2 fs3 fs4 : FS) (c : ConfigParser) (e : exn) :
  updateConfigFilesFrom (projectConfig cordovaProject) (_munger self) (locations self) fs
    = (Ok c, fs1) →
  updateWwwFrom cordovaProject (locations self) fs1 = (Ok tt, fs2) →
  updateProjectAccordingTo c (locations self) fs2 = (Ok tt, fs3) →
  handleIcons (projectConfig cordovaProject) (api_root self) fs3 = (Throw e, fs4) →
  caught e →
  prepare self cordovaProject fs =
    (Ok ({| _munger := _munger self; locations := locations self;
            api_root := api_root self; _config := Some c |},
         Rejected e), fs4).
Proof.
  intros H1 H2 H3 H4 [He1 He2]. unfold prepare, prepare_with, then_, Q_when. munfold.
  rewrite H1, H2, H3, H4. by destruct e.
Qed.

End PrepareExtras.

(** ** Icons and splash screens stay below the resources *)

Lemma below_app (d r : Path.t) : r ≠ [] → below d (d ++ r).
Proof.
  intros Hr. split; [by apply prefix_app_r|]. intros H.
  rewrite <- (app_nil_r d) in H at 2. by apply app_inv_head in H.
Qed.

Lemma forEach_changes_elem {A : Type} (R : FS → FS → Prop) `{!PreOrder R}
    (f : A → M unit) (xs : list A) :
  (∀ x, x ∈ xs → changes R (f x)) → changes R (forEach f xs).
Proof.
  induction xs as [|x xs IH]; intros Hf; [by apply changes_ret|].
  cbn [forEach]. apply changes_bind; [done|apply Hf; by left|].
  intros _. apply IH. intros y Hy. apply Hf. by right.
Qed.

Lemma only_below_ret {A : Type} (d : Path.t) (a : A) : changes (only_below d) (mret a).
Proof. apply changes_ret, _. Qed.

Lemma only_below_bind {A B : Type} (d : Path.t) (m : M A) (f : A → M B) :
  changes (only_below d) m → (∀ a, changes (only_below d) (f a)) →
  changes (only_below d) (m ≫= f).
Proof. apply changes_bind, _. Qed.

Lemma only_below_readonly {A : Type} (d : Path.t) (m : M A) :
  (∀ fs, (m fs).2 = fs) → changes (only_below d) m.
Proof. apply changes_readonly, _. Qed.

Lemma only_below_forEach {A : Type} (d : Path.t) (f : A → M unit) (xs : list A) :
  (∀ x, x ∈ xs → changes (only_below d) (f x)) → changes (only_below d) (forEach f xs).
Proof. apply forEach_changes_elem, _. Qed.

Lemma mkdirSync_only_below (d p : Path.t) :
  below d p → changes (only_below d) (NodeFs.mkdirSync p).
Proof.
  intros Hp fs q Hq. unfold NodeFs.mkdirSync. repeat case_match; try done.
  cbn [snd]. rewrite lookup_insert_ne; [done|]. by intros <-.
Qed.

Lemma cp_f_only_below (d src dest : Path.t) :
  below d dest → changes (only_below d) (Shell.cp_f src dest).
Proof.
  intros Hp fs q Hq. unfold Shell.cp_f. repeat case_match; try done; cbn [snd].
  - rewrite lookup_insert_ne; [done|]. intros <-. apply Hq.
    destruct Hp as [[r ->] Hne]. rewrite <- app_assoc. apply below_app.
    by destruct r.
  - rewrite lookup_insert_ne; [done|]. by intros <-.
Qed.

Lemma rm_f1_only_below (d p : Path.t) :
  below d p → changes (only_below d) (Shell.rm_f1 p).
Proof.
  intros Hp fs q Hq. unfold Shell.rm_f1. destruct (Fs.is_file fs p); [|done].
  cbn [snd]. rewrite lookup_delete_ne; [done|]. by intros <-.
Qed.

Lemma copyImage_only_below (src res : Path.t) (d n : string) :
  no_slash d = true → plain n = true →
  changes (only_below res) (copyImage src res d n).
Proof.
  intros Hd Hn. unfold copyImage. cbv zeta.
  fold (drawable_name d). fold (stored_name src n).
  rewrite (join_plain res) by (by apply plain_drawable_name).
  rewrite (join_plain (res ++ _)) by (by apply plain_stored_name).
  apply only_below_bind; [by apply only_below_readonly|]. intros fs0.
  apply only_below_bind.
  - destruct (negb _); [|by apply only_below_ret].
    apply mkdirSync_only_below. by apply below_app.
  - intros _. apply cp_f_only_below. rewrite <- app_assoc. by apply below_app.
Qed.

Lemma deleteDefaultResourceAt_only_below (baseDir : Path.t) (name : string) :
  plain name = true →
  changes (only_below (baseDir ++ ["res"])) (deleteDefaultResourceAt baseDir name).
Proof.
  intros Hn fs. unfold deleteDefaultResourceAt.
  rewrite (join_plain baseDir "res") by done. unfold mbind at 1, St_bind at 1.
  destruct (Shell.ls _ _ _ fs) as [[l|e] fs1] eqn:El.
  2:{ pose proof (ls_readonly (baseDir ++ ["res"]) "drawable-" "" fs) as H.
      rewrite El in H. simpl in H. by subst. }
  assert (fs1 = fs) as ->.
  { pose proof (ls_readonly (baseDir ++ ["res"]) "drawable-" "" fs) as H.
    by rewrite El in H. }
  apply only_below_forEach. intros f Hf.
  destruct (ls_elem (baseDir ++ ["res"]) "drawable-" "" fs l f) as (x & -> & _ & _);
    [by rewrite El|done|].
  cbv zeta. rewrite !join_plain by (done || by apply plain_nine_patch).
  unfold Shell.rm_f. cbn [forEach].
  apply only_below_bind; [|intros _; apply only_below_bind; [|intros _; by apply only_below_ret]];
    apply rm_f1_only_below; rewrite <- app_assoc; by apply below_app.
Qed.

Lemma splashLoop_only_below (projectRoot res : Path.t) (rs : list resource) (h : bool) :
  (∀ r d, r ∈ rs → density r = Some d → no_slash d = true) →
  changes (only_below res) (splashLoop projectRoot res h rs).
Proof.
  revert h. induction rs as [|r rs IH]; intros h Hd.
  - by apply only_below_ret.
  - cbn [splashLoop]. apply only_below_bind.
    + unfold splashStep. destruct (density r) as [d|] eqn:Er; [|by apply only_below_ret].
      destruct (negb _); [by apply only_below_ret|].
      apply only_below_bind; [|intros _; by apply only_below_ret].
      apply copyImage_only_below; [|done]. apply (Hd r); [by left|done].
    + intros h'. apply IH. intros r' d' Hr'. apply Hd. by right.
Qed.

Section ResourcesExtras.

Context {CC : CordovaCommon}.

(** [handleIcons] changes nothing outside the resources directory of the
    platform, and not that directory itself, whether it returns or
    throws. *)
Theorem handleIcons_only_below_res (cfg : ConfigParser) (platformRoot : Path.t) (fs : FS) :
  (∀ i d, i ∈ items (getIcons (doc cfg) "android") → density i = Some d →
          no_slash d = true) →
  only_below (platformRoot ++ ["res"]) fs (handleIcons cfg platformRoot fs).2.
Proof.
  intros Hd. revert fs. change (changes (only_below (platformRoot ++ ["res"]))
                                  (handleIcons cfg platformRoot)).
  unfold handleIcons. set (icons := items _) in *.
  destruct icons as [|i0 icons0] eqn:Eicons; [by apply only_below_ret|].
  rewrite <- Eicons in *. rewrite (join_plain platformRoot "res") by done.
  apply only_below_bind; [by apply deleteDefaultResourceAt_only_below|]. intros _.
  destruct (scanIcons icons [] None) as [selected dflt] eqn:Escan.
  apply only_below_bind.
  - apply only_below_forEach. intros [d w] Hin.
    apply copyImage_only_below; [|done]. cbn [fst].
    rewrite for_in_perm in Hin. apply Obj_elem_get in Hin.
    2:{ pose proof (scanIcons_NoDup icons [] None (NoDup_nil_2)) as H.
        by rewrite Escan in H. }
    pose proof (scanIcons_winner d icons) as Hw. rewrite Escan in Hw. cbn [fst] in Hw.
    rewrite Hin in Hw. symmetry in Hw. apply winner_density in Hw as [Hw Hi].
    unfold icon_density in Hw. destruct (Js.truthy (density w)).
    + by eapply Hd.
    + unfold sizeToDensityMap in Hw. repeat case_match; by simplify_eq.
  - intros _. destruct dflt as [default_icon|]; [|by apply only_below_ret].
    destruct (Obj.get "mdpi" selected); [by apply only_below_ret|].
    by apply copyImage_only_below.
Qed.

(** [handleSplashes] changes nothing outside the resources directory of
    the platform either. *)
Theorem handleSplashes_only_below_res (cfg : ConfigParser) (platformRoot : Path.t)
    (fs : FS) :
  (∀ r d, r ∈ items (getSplashScreens (doc cfg) "android") → density r = Some d →
          no_slash d = true) →
  only_below (platformRoot ++ ["res"]) fs (handleSplashes cfg platformRoot fs).2.
Proof.
  intros Hd. revert fs. change (changes (only_below (platformRoot ++ ["res"]))
                                  (handleSplashes cfg platformRoot)).
  unfold handleSplashes. set (splashes := getSplashScreens _ _) in *.
  destruct (items splashes) as [|r0 rs0] eqn:Eitems; [by apply only_below_ret|].
  rewrite <- Eitems in *. rewrite (join_plain platformRoot "res") by done.
  apply only_below_bind; [by apply deleteDefaultResourceAt_only_below|]. intros _.
  apply only_below_bind.
  - by apply splashLoop_only_below.
  - intros h. destruct h; [by apply only_below_ret|].
    destruct (defaultResource splashes); [|by apply only_below_ret].
    by apply copyImage_only_below.
Qed.

End ResourcesExtras.

(** ** The default resource removed from every density *)

Lemma is_file_delete (fs : FS) (p q : Path.t) :
  Fs.is_file fs p = false → Fs.is_file (delete q fs) p = false.
Proof.
  unfold Fs.is_file. destruct (decide (p = q)) as [->|Hne].
  - by rewrite lookup_delete_eq.
  - by rewrite lookup_delete_ne.
Qed.

(** One drawable folder cleaned. *)
Lemma rm_f_pair_run (a b : Path.t) (fs : FS) :
  ∃ fs', Shell.rm_f [a; b] fs = (Ok tt, fs')
    ∧ Fs.is_file fs' a = false ∧ Fs.is_file fs' b = false
    ∧ (∀ p, p ≠ a → p ≠ b → fs' !! p = fs !! p)
    ∧ (∀ p, Fs.is_file fs p = false → Fs.is_file fs' p = false).
Proof.
  unfold Shell.rm_f. cbn [forEach]. munfold. rewrite !rm_f1_run.
  eexists. split; [reflexivity|].
  set (fs1 := if Fs.is_file fs a then delete a fs else fs).
  assert (Fs.is_file fs1 a = false) as Ha.
  { unfold fs1. destruct (Fs.is_file fs a) eqn:E; [|done].
    unfold Fs.is_file. by rewrite lookup_delete_eq. }
  assert (∀ p, Fs.is_file fs p = false → Fs.is_file fs1 p = false) as H1.
  { intros p Hp. unfold fs1. destruct (Fs.is_file fs a); [by apply is_file_delete|done]. }
  split; [|split; [|split]].
  - destruct (Fs.is_file fs1 b); [by apply is_file_delete|done].
  - destruct (Fs.is_file fs1 b) eqn:E; [|done].
    unfold Fs.is_file. by rewrite lookup_delete_eq.
  - intros p Hpa Hpb. unfold fs1.
    destruct (Fs.is_file fs a), (Fs.is_file _ b); rewrite ?lookup_delete_ne by done; done.
  - intros p Hp. apply H1 in Hp.
    destruct (Fs.is_file fs1 b); [by apply is_file_delete|done].
Qed.

(** The loop of [deleteDefaultResourceAt] over the folders it has found. *)
Lemma clean_folders_run (name : string) (folders : list Path.t) (fs : FS) :
  plain name = true →
  let nine := Js.replace_suffix ".png" ".9.png" name in
  ∃ fs',
    forEach (λ drawableFolder,
      let imagePath := Path.join drawableFolder name in
      Shell.rm_f [imagePath; Path.join drawableFolder nine]) folders fs = (Ok tt, fs')
    ∧ (∀ f, f ∈ folders →
         Fs.is_file fs' (f ++ [name]) = false ∧ Fs.is_file fs' (f ++ [nine]) = false)
    ∧ (∀ p, (∀ f, f ∈ folders → p ≠ f ++ [name] ∧ p ≠ f ++ [nine]) → fs' !! p = fs !! p)
    ∧ (∀ p, Fs.is_file fs p = false → Fs.is_file fs' p = false).
Proof.
  intros Hn nine. revert fs. induction folders as [|f folders IH]; intros fs.
  - exists fs. split; [done|]. split; [|done]. intros f Hf. by apply elem_of_nil in Hf.
  - cbn [forEach]. cbv zeta. rewrite !join_plain by (done || by apply plain_nine_patch).
    fold nine.
    destruct (rm_f_pair_run (f ++ [name]) (f ++ [nine]) fs)
      as (fs1 & E1 & Ha & Hb & Hother & Hmono).
    destruct (IH fs1) as (fs' & E & Hclean & Hframe & Hmono').
    exists fs'. split; [|split; [|split]].
    + munfold. rewrite E1. exact E.
    + intros g Hg. apply elem_of_cons in Hg as [->|Hg]; [|by apply Hclean].
      split; by apply Hmono'.
    + intros p Hp. rewrite Hframe.
      * destruct (Hp f) as [? ?]; [by left|]. by apply Hother.
      * intros g Hg. apply Hp. by right.
    + intros p Hp. by apply Hmono', Hmono.
Qed.

(** [deleteDefaultResourceAt] removes the resource and its nine-patch
    variant from every [drawable-*] folder and changes nothing else; the
    folder [drawable], which has no density, keeps its image. *)
Theorem deleteDefaultResourceAt_cleans (baseDir : Path.t) (name : string) (fs : FS) :
  let res := baseDir ++ ["res"] in
  let nine := Js.replace_suffix ".png" ".9.png" name in
  plain name = true →
  Fs.wf fs →
  fs !! res = Some Dir →
  ∃ fs', deleteDefaultResourceAt baseDir name fs = (Ok tt, fs')
    ∧ (∀ x, Shell.glob "drawable-" "" x = true →
         Fs.is_file fs' (res ++ [x; name]) = false
         ∧ Fs.is_file fs' (res ++ [x; nine]) = false)
    ∧ (∀ p, (∀ x, Shell.glob "drawable-" "" x = true →
                  p ≠ res ++ [x; name] ∧ p ≠ res ++ [x; nine]) →
            fs' !! p = fs !! p)
    ∧ fs' !! (res ++ ["drawable"; name]) = fs !! (res ++ ["drawable"; name]).
Proof.
  intros res nine Hn Hwf Hres. unfold deleteDefaultResourceAt.
  rewrite (join_plain baseDir "res") by done. fold res.
  unfold mbind at 1, St_bind at 1. rewrite (ls_dir res) by done.
  set (folders := List.filter _ _).
  assert (∀ f, f ∈ folders ↔
               ∃ x, f = res ++ [x] ∧ is_Some (fs !! f) ∧ Shell.glob "drawable-" "" x = true)
    as Hfolders.
  { intros f. unfold folders. rewrite list_elem_of_In, filter_In, <- list_elem_of_In.
    rewrite elem_of_entries, child_of_snoc. split.
    - intros [[[x ->] Hs] Hg]. rewrite basename_snoc in Hg. by exists x.
    - intros (x & -> & Hs & Hg). rewrite basename_snoc. eauto. }
  destruct (clean_folders_run name folders fs Hn) as (fs' & E & Hclean & Hframe & Hmono).
  fold nine in E, Hclean, Hframe.
  assert (∀ p, (∀ x, Shell.glob "drawable-" "" x = true →
                     p ≠ res ++ [x; name] ∧ p ≠ res ++ [x; nine]) →
               fs' !! p = fs !! p) as Hframe'.
  { intros p Hp. apply Hframe. intros f Hf. apply Hfolders in Hf as (x & -> & _ & Hg).
    rewrite <- !app_assoc. by apply Hp. }
  exists fs'. split; [exact E|]. split; [|split; [done|]].
  - intros x Hg. destruct (fs !! (res ++ [x])) as [n|] eqn:Ex.
    + destruct (Hclean (res ++ [x])) as [H1 H2].
      { apply Hfolders. exists x. by rewrite Ex. }
      by rewrite <- !app_assoc in H1, H2.
    + assert (∀ y, Fs.is_file fs (res ++ [x; y]) = false) as Hno.
      { intros y. unfold Fs.is_file.
        destruct (fs !! (res ++ [x; y])) as [n|] eqn:Ey; [|done].
        assert (fs !! (res ++ [x]) = Some Dir) as Hp; [|congruence].
        apply (wf_parent fs (res ++ [x]) y Hwf). rewrite <- app_assoc. simpl.
        by rewrite Ey. }
      split; apply Hmono, Hno.
  - apply Hframe'. intros x Hg.
    assert (x ≠ "drawable") as Hx by (by intros ->).
    split; intros H; apply app_inv_head in H; congruence.
Qed.

(** ** An image without its source or its resources *)





(** ** What the removal of the default images leaves in place *)







Section CopiesThenDefault.

Context (res : Path.t) (n : string) (source : resource → Path.t).

Hypothesis plain_n : plain n = true.


End CopiesThenDefault.

(** ** The default icon and the splash screens *)

Section DefaultImages.

Context {CC : CordovaCommon}.



End DefaultImages.

(** ** The configuration without a defaults file *)

Section ConfigExtras.

Context {CC : CordovaCommon}.

(** A missing defaults file is no error: the platform's [config.xml] is
    not reset, and the munge and the merge work on what it held, a
    document whose root is a [widget]. *)
Theorem updateConfigFilesFrom_without_defaults (sourceConfig : ConfigParser)
    (configMunger : ConfigChanges) (loc : Locations) (fs : FS) (munged : element) :
  let reapplied := reapply_global_munge_save_all configMunger fs in
  let merged := mergeXml (doc sourceConfig) munged "android" true in
  Fs.is_file fs (defaultConfigXml loc) = false →
  reapplied !! configXml loc = Some (File (Xml munged)) →
  tag munged = "widget" →
  Fs.is_dir reapplied (Path.dirname (configXml loc)) = true →
  updateConfigFilesFrom sourceConfig configMunger loc fs =
    (Ok {| path := configXml loc; doc := merged |},
     <[configXml loc := File (Xml merged)]> reapplied).
Proof.
  intros reapplied merged Hdef Hmunged _ Hpar.
  unfold updateConfigFilesFrom. munfold. unfold Shell.cp_f.
  assert (match fs !! defaultConfigXml loc with
          | Some (File d) => false | _ => true end = true) as Hno.
  { unfold Fs.is_file in Hdef. by destruct (fs !! defaultConfigXml loc) as [[|]|]. }
  destruct (fs !! defaultConfigXml loc) as [[d|]|]; [done|..];
    cbv beta iota; unfold modify; fold reapplied;
    unfold new_ConfigParser, parseElementtreeSync; munfold; rewrite Hmunged;
    cbv beta iota; unfold ConfigParser_write, NodeFs.writeFileSync; cbn [path doc];
    fold merged;
    (assert (Fs.is_dir reapplied (configXml loc) = false) as ->
       by (unfold Fs.is_dir; by rewrite Hmunged));
    by rewrite Hpar.
Qed.

End ConfigExtras.

(** ** The web assets updated twice *)

Section WwwExtras.

Context {CC : CordovaCommon}.

(** The run of [updateWwwFrom] in full: besides the contents of [www],
    the directories above it exist afterwards and the file system is
    well formed. *)
Lemma updateWwwFrom_result (proj : CordovaProject) (loc : Locations) (fs : FS) :
  Fs.wf fs →
  apart (www loc) (project_www proj) →
  apart (www loc) (platformWww loc) →
  apart (www loc) (merges_android proj) →
  (∀ q, q `prefix_of` www loc → q ≠ www loc → Fs.is_file fs q = false) →
  Fs.is_file fs (project_www proj) = false →
  Fs.is_file fs (platformWww loc) = false →
  Fs.is_file fs (merges_android proj) = false →
  (∀ r, shown r = true →
     kinds_agree (fs !! (platformWww loc ++ r)) (fs !! (project_www proj ++ r))
     ∧ kinds_agree (fs !! (merges_android proj ++ r)) (fs !! (platformWww loc ++ r))
     ∧ kinds_agree (fs !! (merges_android proj ++ r)) (fs !! (project_www proj ++ r))) →
  ∃ fs', updateWwwFrom proj loc fs = (Ok tt, fs')
    ∧ fs' !! www loc = Some Dir
    ∧ (∀ r, r ≠ [] →
         fs' !! (www loc ++ r) =
           if shown r
           then fs !! (merges_android proj ++ r)
                ∪ fs !! (platformWww loc ++ r)
                ∪ fs !! (project_www proj ++ r)
           else None)
    ∧ (∀ q, ¬ www loc `prefix_of` q → ¬ q `prefix_of` www loc → fs' !! q = fs !! q)
    ∧ (∀ q, q `prefix_of` www loc → fs' !! q = Some Dir)
    ∧ Fs.wf fs'.
Proof.
  set (D := www loc). set (W := project_www proj). set (P := platformWww loc).
  set (Mg := merges_android proj).
  intros Hwf HW HP HM Hanc HfW HfP HfM Hagree.
  assert (D ≠ []) as HD.
  { intros E. apply (proj1 HW). rewrite E. apply prefix_nil. }
  (* rm -rf *)
  set (fs1 := Fs.remove_tree D fs).
  assert (Fs.wf fs1) as Hwf1 by by apply remove_tree_wf.
  (* mkdir -p *)
  destruct (mkdirs_run [] D fs1) as (fs2 & E2 & Hway & Hnot).
  { intros q (s & -> & Hs & Hp). simpl. unfold Fs.is_file, fs1.
    rewrite lookup_remove_tree. destruct (decide _) as [|Hq]; [done|].
    apply Hanc; [done|]. intros ->. by apply Hq. }
  assert (∀ q, on_the_way [] D q ↔ q ≠ [] ∧ q `prefix_of` D) as Hotw.
  { intros q. unfold on_the_way. simpl. split.
    - by intros (s & -> & ? & ?).
    - intros [? ?]. by exists q. }
  assert (fs2 !! D = Some Dir) as HD2.
  { apply Hway, Hotw. done. }
  assert (∀ r, r ≠ [] → fs2 !! (D ++ r) = None) as Hin2.
  { intros r Hr. rewrite Hnot.
    - unfold fs1. rewrite lookup_remove_tree.
      destruct (decide _) as [|Hq]; [done|]. destruct Hq. by apply prefix_app_r.
    - rewrite Hotw. intros [_ Hp]. apply prefix_length in Hp.
      rewrite length_app in Hp. destruct r; [done|]. simpl in Hp. lia. }
  assert (∀ X r, apart D X → fs2 !! (X ++ r) = fs !! (X ++ r)) as Hsrc2.
  { intros X r HX. rewrite Hnot.
    - unfold fs1. rewrite lookup_remove_tree.
      destruct (decide _) as [Hq|]; [|done]. by apply apart_below in Hq.
    - rewrite Hotw. intros [_ Hp]. by eapply (apart_above D X r). }
  assert (∀ q, ¬ D `prefix_of` q → ¬ q `prefix_of` D → fs2 !! q = fs !! q) as Hout2.
  { intros q H1 H2. rewrite Hnot.
    - unfold fs1. rewrite lookup_remove_tree. by destruct (decide _).
    - rewrite Hotw. tauto. }
  assert (Fs.wf fs2) as Hwf2.
  { split.
    - rewrite Hnot; [apply Hwf1|]. rewrite Hotw. tauto.
    - intros q n Hq Hne. destruct q as [|x q _] using rev_ind; [done|].
      rewrite dirname_snoc.
      destruct (decide (q = [])) as [->|Hqne].
      { rewrite Hnot; [apply Hwf1|]. rewrite Hotw. tauto. }
      destruct (decide ((q ++ [x]) `prefix_of` D)) as [Hp|Hp].
      + apply Hway, Hotw. split; [done|]. etrans; [|done]. by apply prefix_app_r.
      + rewrite Hnot in Hq by (rewrite Hotw; tauto).
        assert (fs1 !! q = Some Dir) as Hq1.
        { apply (wf_parent fs1 q x Hwf1). by rewrite Hq. }
        destruct (decide (q `prefix_of` D)) as [Hp'|Hp'].
        * apply Hway, Hotw. done.
        * rewrite Hnot; [done|]. rewrite Hotw. tauto. }
  (* the project's www *)
  destruct (cp_rf_star_run W D fs2) as (fs3 & E3 & Hin3 & Hout3); [done|done|..].
  { unfold Fs.is_file. rewrite <- (app_nil_r W), Hsrc2 by done.
    by rewrite app_nil_r. }
  { intros r Hr. rewrite Hin2 by (by destruct r). apply kinds_agree_None_r. }
  assert (Fs.wf fs3) as Hwf3.
  { apply (cp_rf_star_wf W D fs2 fs3); [done|done| |done|done].
    intros r Hr. rewrite Hin2 by (by destruct r). apply kinds_agree_None_r. }
  assert (∀ X r, apart D X → fs3 !! (X ++ r) = fs !! (X ++ r)) as Hsrc3.
  { intros X r HX. rewrite Hout3 by (by apply apart_below). by apply Hsrc2. }
  assert (fs3 !! D = Some Dir) as HD3.
  { rewrite <- (app_nil_r D), Hin3. simpl. by rewrite app_nil_r, HD2. }
  assert (∀ r, r ≠ [] →
            fs3 !! (D ++ r) = if shown r then fs !! (W ++ r) else None) as Hin3'.
  { intros r Hr. rewrite Hin3, Hin2 by done. rewrite Hsrc2 by done.
    destruct (shown r); [|done]. by destruct (fs !! (W ++ r)). }
  (* platform_www *)
  assert (∀ r, shown r = true →
            kinds_agree (fs3 !! (P ++ r)) (fs3 !! (D ++ r))) as Hag3.
  { intros r Hr. rewrite Hsrc3 by done. rewrite Hin3' by (by destruct r).
    rewrite Hr. by apply Hagree. }
  destruct (cp_rf_star_run P D fs3) as (fs4 & E4 & Hin4 & Hout4); [done|done| |done|].
  { unfold Fs.is_file. rewrite <- (app_nil_r P), Hsrc3 by done.
    by rewrite app_nil_r. }
  assert (Fs.wf fs4) as Hwf4.
  { by apply (cp_rf_star_wf P D fs3 fs4). }
  assert (∀ X r, apart D X → fs4 !! (X ++ r) = fs !! (X ++ r)) as Hsrc4.
  { intros X r HX. rewrite Hout4 by (by apply apart_below). by apply Hsrc3. }
  assert (fs4 !! D = Some Dir) as HD4.
  { rewrite <- (app_nil_r D), Hin4. simpl. by rewrite app_nil_r, HD3. }
  assert (∀ r, r ≠ [] →
            fs4 !! (D ++ r) =
              if shown r then fs !! (P ++ r) ∪ fs !! (W ++ r) else None) as Hin4'.
  { intros r Hr. rewrite Hin4, Hin3' by done. rewrite Hsrc3 by done.
    by destruct (shown r). }
  (* merges/android *)
  assert (Path.join (Path.join (project_root proj) "merges") "android" = Mg) as EMg.
  { rewrite !join_plain by done. by rewrite <- app_assoc. }
  assert (fs4 !! Mg = fs !! Mg) as HMg4.
  { rewrite <- (app_nil_r Mg), Hsrc4 by done. by rewrite app_nil_r. }
  assert (∀ fs5 : FS,
            (∀ r, fs5 !! (D ++ r) =
                    (if shown r then fs4 !! (Mg ++ r) else None) ∪ fs4 !! (D ++ r)) →
            (∀ q, ¬ D `prefix_of` q → fs5 !! q = fs4 !! q) →
            Fs.wf fs5 →
            fs5 !! D = Some Dir
            ∧ (∀ r, r ≠ [] →
                 fs5 !! (D ++ r) =
                   if shown r
                   then fs !! (Mg ++ r) ∪ fs !! (P ++ r) ∪ fs !! (W ++ r)
                   else None)
            ∧ (∀ q, ¬ D `prefix_of` q → ¬ q `prefix_of` D → fs5 !! q = fs !! q)
            ∧ (∀ q, q `prefix_of` D → fs5 !! q = Some Dir)
            ∧ Fs.wf fs5) as Hfin.
  { intros fs5 Hin5 Hout5 Hwf5.
    assert (fs5 !! D = Some Dir) as HD5.
    { rewrite <- (app_nil_r D), Hin5. simpl. by rewrite app_nil_r, HD4. }
    split; [done|]. split; [|split; [|split; [|done]]].
    - intros r Hr. rewrite Hin5, Hin4' by done. rewrite Hsrc4 by done.
      destruct (shown r); [|done].
      by destruct (fs !! (Mg ++ r)), (fs !! (P ++ r)), (fs !! (W ++ r)).
    - intros q H1 H2. rewrite Hout5, Hout4, Hout3 by done. by apply Hout2.
    - intros q Hq. destruct (decide (q = D)) as [->|Hne]; [done|].
      assert (¬ D `prefix_of` q) as Hno.
      { intros Hp. apply Hne. by apply (anti_symm prefix). }
      rewrite Hout5, Hout4, Hout3 by done.
      destruct (decide (q = [])) as [->|Hq0]; [apply Hwf2|].
      apply Hway, Hotw. done. }
  unfold updateWwwFrom. fold D W P. rewrite EMg. munfold. unfold Shell.rm_rf, modify.
  fold fs1. unfold Shell.mkdir_p.
  assert (Fs.existsSync fs1 D = false) as ->.
  { unfold Fs.existsSync, fs1. rewrite lookup_remove_tree.
    by destruct (decide _) as [|[]]. }
  rewrite E2, E3, E4. unfold Fs.existsSync. rewrite HMg4.
  destruct (fs !! Mg) as [n|] eqn:EM.
  - destruct (cp_rf_star_run Mg D fs4) as (fs5 & E5 & Hin5 & Hout5); [done|done|..].
    { unfold Fs.is_file in *. rewrite HMg4. by rewrite EM in HfM. }
    { intros r Hr. rewrite Hsrc4 by done. rewrite Hin4' by (by destruct r).
      rewrite Hr. apply kinds_agree_union; by apply Hagree. }
    exists fs5. split; [done|]. apply Hfin; [done|done|].
    apply (cp_rf_star_wf Mg D fs4 fs5); [done|done| |done|done].
    intros r Hr. rewrite Hsrc4 by done. rewrite Hin4' by (by destruct r).
    rewrite Hr. apply kinds_agree_union; by apply Hagree.
  - exists fs4. split; [done|]. apply Hfin; [|done|done].
    intros r. destruct (shown r) eqn:Er; [|by destruct (fs4 !! (D ++ r))].
    rewrite (Hsrc4 Mg) by done. rewrite (wf_missing_below fs Mg r); [|done|done|by intros ->].
    by destruct (fs4 !! (D ++ r)).
Qed.

(** [updateWwwFrom] is idempotent: a second run, on the file system the
    first one leaves, returns that file system. *)
Theorem updateWwwFrom_idempotent (proj : CordovaProject) (loc : Locations) (fs : FS) :
  Fs.wf fs →
  apart (www loc) (project_www proj) →
  apart (www loc) (platformWww loc) →
  apart (www loc) (merges_android proj) →
  (∀ q, q `prefix_of` www loc → q ≠ www loc → Fs.is_file fs q = false) →
  Fs.is_file fs (project_www proj) = false →
  Fs.is_file fs (platformWww loc) = false →
  Fs.is_file fs (merges_android proj) = false →
  (∀ r, shown r = true →
     kinds_agree (fs !! (platformWww loc ++ r)) (fs !! (project_www proj ++ r))
     ∧ kinds_agree (fs !! (merges_android proj ++ r)) (fs !! (platformWww loc ++ r))
     ∧ kinds_agree (fs !! (merges_android proj ++ r)) (fs !! (project_www proj ++ r))) →
  ∃ fs', updateWwwFrom proj loc fs = (Ok tt, fs')
    ∧ updateWwwFrom proj loc fs' = (Ok tt, fs').
Proof.
  intros Hwf HW HP HM Hanc HfW HfP HfM Hagree.
  destruct (updateWwwFrom_result proj loc fs) as (fs1 & E1 & HD1 & Hin1 & Hout1 & Hup1 & Hwf1);
    [done..|].
  assert (∀ X r, apart (www loc) X → fs1 !! (X ++ r) = fs !! (X ++ r)) as Hsrc.
  { intros X r HX. apply Hout1; [by apply apart_below|].
    intros Hp. by eapply (apart_above (www loc) X r). }
  assert (∀ X, apart (www loc) X → fs1 !! X = fs !! X) as Hsrc0.
  { intros X HX. rewrite <- (app_nil_r X). by apply Hsrc. }
  destruct (updateWwwFrom_result proj loc fs1) as (fs2 & E2 & HD2 & Hin2 & Hout2 & Hup2 & Hwf2);
    [done..| | | | | |].
  - intros q Hq _. unfold Fs.is_file. by rewrite Hup1.
  - unfold Fs.is_file in *. by rewrite Hsrc0.
  - unfold Fs.is_file in *. by rewrite Hsrc0.
  - unfold Fs.is_file in *. by rewrite Hsrc0.
  - intros r Hr. rewrite !Hsrc by done. by apply Hagree.
  - exists fs1. split; [done|]. rewrite E2. f_equal. apply map_eq. intros q.
    destruct (decide (www loc `prefix_of` q)) as [[r ->]|Hq].
    + destruct (decide (r = [])) as [->|Hr].
      * by rewrite app_nil_r, HD1, HD2.
      * rewrite Hin2, Hin1 by done. by rewrite !Hsrc.
    + destruct (decide (q `prefix_of` www loc)) as [Hq'|Hq'].
      * by rewrite Hup1, Hup2.
      * by apply Hout2.
Qed.

End WwwExtras.

(** ** The further checks are sound *)

Lemma densities_check_ok (rs : list resource) :
  densities_check rs = true →
  ∀ r d, r ∈ rs → density r = Some d → no_slash d = true.
Proof.
  unfold densities_check. rewrite forallb_forall. intros H r d Hr Hd.
  apply list_elem_of_In, H in Hr. by rewrite Hd in Hr.
Qed.


(** ** The sample project satisfies the further side conditions *)

Section HelloExtras.

#[local] Existing Instance Hello.common.

(** The sample project is named Hello: its second string, [app_name], gets
    that text, and [launcher_name] before it keeps its own. *)
Lemma updateProjectAccordingTo_app_name_witness :
  let e := Element "string" [("name", "app_name")] (Some "Template") [] in
  let l1 := [Element "string" [("name", "launcher_name")] (Some "@string/app_name") []] in
  (updateProjectAccordingTo Hello.config Hello.locs Hello.fs).2 !! strings Hello.locs
    = Some (File (Xml (Element "resources" [] None
              (l1 ++ Element (tag e) (attrib e) (name (doc Hello.config)) (children e)
                  :: [])))).
Proof.
  apply (updateProjectAccordingTo_app_name Hello.config Hello.locs Hello.fs
           "io.cordova.hello_app" Hello.android_manifest).
  - apply hello_ready; by vm_compute.
  - apply plain_names_check_ok. by vm_compute.
  - by_computation.
  - by vm_compute.
  - by vm_compute.
  - by vm_compute.
Defined.

(** The sample project with string resources that hold no string at all. *)
Lemma updateProjectAccordingTo_no_app_name_witness :
  let fs := <[strings Hello.locs := File (Xml (Element "resources" [] None []))]> Hello.fs in
  updateProjectAccordingTo Hello.config Hello.locs fs = (Throw TypeError, fs).
Proof.
  apply (updateProjectAccordingTo_no_app_name Hello.config Hello.locs _
           (Element "resources" [] None [])).
  - by rewrite lookup_insert_eq.
  - done.
Defined.

(** The manifest of the sample project gets version 1.2.3. *)
Lemma updateProjectAccordingTo_version_witness :
  ∃ m', (updateProjectAccordingTo Hello.config Hello.locs Hello.fs).2
          !! manifest Hello.locs = Some (File (Manifest m'))
    ∧ versionName m' = version (doc Hello.config)
    ∧ (∀ c, android_versionCode (doc Hello.config) = Some c → c ≠ "" →
            versionCode m' = Some (SStr c))
    ∧ (Js.truthy (android_versionCode (doc Hello.config)) = false →
       ∀ v, version (doc Hello.config) = Some v →
            versionCode m' = Some (SNum (default_versionCode v))).
Proof.
  apply (updateProjectAccordingTo_version Hello.config Hello.locs Hello.fs
           "io.cordova.hello_app" Hello.android_manifest).
  - apply hello_ready; by vm_compute.
  - apply plain_names_check_ok. by vm_compute.
  - by_computation.
Defined.

(** The sample project without its main activity. *)
Lemma updateProjectAccordingTo_no_activity_witness :
  let fs := delete (Hello.java_dir ++ ["MainActivity.java"]) Hello.fs in
  updateProjectAccordingTo Hello.config Hello.locs fs =
    (Throw (CordovaError "No Java files found which extend CordovaActivity."),
     manifest_written Hello.config Hello.locs fs "io.cordova.hello_app"
       Hello.android_manifest).
Proof.
  apply (updateProjectAccordingTo_no_activity Hello.config Hello.locs
           (delete (Hello.java_dir ++ ["MainActivity.java"]) Hello.fs)
           "io.cordova.hello_app" Hello.android_manifest).
  - apply hello_ready; by vm_compute.
  - by_computation.
  - by_computation.
  - apply text_check_ok. by vm_compute.
  - by vm_compute.
  - by vm_compute.
Defined.


(** The sample project with neither a defaults file nor a [config.xml] in
    the platform: reading the configuration fails. *)
Lemma prepare_throws_config_witness :
  let fs := delete (configXml Hello.locs) (delete (defaultConfigXml Hello.locs) Hello.fs) in
  let config := updateConfigFilesFrom Hello.config Hello.munger Hello.locs fs in
  prepare Hello.api Hello.project fs = (Throw (Error "ENOENT"), config.2).
Proof.
  apply (prepare_throws_config Hello.api Hello.project
    (delete (configXml Hello.locs) (delete (defaultConfigXml Hello.locs) Hello.fs))
    (updateConfigFilesFrom Hello.config Hello.munger Hello.locs (delete (configXml Hello.locs) (delete (defaultConfigXml Hello.locs) Hello.fs))).2
    (Error "ENOENT")).
  apply run_split. vm_compute. reflexivity.
Defined.

(** The sample project without its main activity: the promise is rejected. *)
Lemma prepare_rejected_by_project_witness :
  let fs := delete (Hello.java_dir ++ ["MainActivity.java"]) Hello.fs in
  let config := updateConfigFilesFrom Hello.config Hello.munger Hello.locs fs in
  let www := updateWwwFrom Hello.project Hello.locs config.2 in
  let c := returned Hello.config config in
  prepare Hello.api Hello.project fs =
    (Ok ({| _munger := Hello.munger; locations := Hello.locs;
            api_root := Hello.platform_dir; _config := Some c |},
         Rejected (CordovaError "No Java files found which extend CordovaActivity.")),
     (updateProjectAccordingTo c Hello.locs www.2).2).
Proof.
  intros fs config www c.
  apply (prepare_rejected_by_project Hello.api Hello.project fs config.2 www.2
           (updateProjectAccordingTo c Hello.locs www.2).2 c
           (CordovaError "No Java files found which extend CordovaActivity.")).
  - apply run_split. vm_compute. reflexivity.
  - apply run_split. vm_compute. reflexivity.
  - apply run_split. vm_compute. reflexivity.
  - by split.
Defined.

(** A platform object whose root holds no resources: the first icon cannot
    be copied. *)
Lemma prepare_rejected_by_icons_witness :
  let self := HelloDefaults.misplaced in
  let config := updateConfigFilesFrom Hello.config Hello.munger Hello.locs Hello.fs in
  let www := updateWwwFrom Hello.project Hello.locs config.2 in
  let c := returned Hello.config config in
  let project := updateProjectAccordingTo c Hello.locs www.2 in
  prepare self Hello.project Hello.fs =
    (Ok ({| _munger := Hello.munger; locations := Hello.locs;
            api_root := ["elsewhere"]; _config := Some c |},
         Rejected (Error "ENOENT")),
     (handleIcons Hello.config ["elsewhere"] project.2).2).
Proof.
  intros self config www c project.
  apply (prepare_rejected_by_icons self Hello.project Hello.fs config.2 www.2 project.2
           (handleIcons Hello.config ["elsewhere"] project.2).2 c (Error "ENOENT")).
  - apply run_split. vm_compute. reflexivity.
  - apply run_split. vm_compute. reflexivity.
  - apply run_split. vm_compute. reflexivity.
  - apply run_split. vm_compute. reflexivity.
  - by split.
Defined.

(** The web assets of the sample project, updated twice. *)
Lemma updateWwwFrom_idempotent_witness :
  ∃ fs', updateWwwFrom Hello.project Hello.locs Hello.fs = (Ok tt, fs')
    ∧ updateWwwFrom Hello.project Hello.locs fs' = (Ok tt, fs').
Proof.
  apply (updateWwwFrom_idempotent Hello.project Hello.locs Hello.fs).
  - apply wf_check_wf. vm_compute. reflexivity.
  - split; by_computation.
  - split; by_computation.
  - split; by_computation.
  - intros q Hq _. revert Hq. apply no_file_on_prefix. vm_compute. reflexivity.
  - vm_compute. reflexivity.
  - vm_compute. reflexivity.
  - vm_compute. reflexivity.
  - intros r _. split; [|split]; apply layers_check_ok; vm_compute; reflexivity.
Defined.

(** The template icon of the sample project goes. *)
Lemma deleteDefaultResourceAt_cleans_witness :
  let res := Hello.platform_dir ++ ["res"] in
  ∃ fs', deleteDefaultResourceAt Hello.platform_dir "icon.png" Hello.fs = (Ok tt, fs')
    ∧ (∀ x, Shell.glob "drawable-" "" x = true →
         Fs.is_file fs' (res ++ [x; "icon.png"]) = false
         ∧ Fs.is_file fs' (res ++ [x; Js.replace_suffix ".png" ".9.png" "icon.png"]) = false)
    ∧ (∀ p, (∀ x, Shell.glob "drawable-" "" x = true →
                  p ≠ res ++ [x; "icon.png"]
                  ∧ p ≠ res ++ [x; Js.replace_suffix ".png" ".9.png" "icon.png"]) →
            fs' !! p = Hello.fs !! p)
    ∧ fs' !! (res ++ ["drawable"; "icon.png"]) = Hello.fs !! (res ++ ["drawable"; "icon.png"]).
Proof.
  apply (deleteDefaultResourceAt_cleans Hello.platform_dir "icon.png" Hello.fs).
  - reflexivity.
  - apply wf_check_wf. vm_compute. reflexivity.
  - vm_compute. reflexivity.
Defined.



(** The sample project without its defaults file: the platform's
    [config.xml] is munged and merged as it stands. *)
Lemma updateConfigFilesFrom_without_defaults_witness :
  let loc := Hello.locs in
  let fs := delete (defaultConfigXml loc) Hello.fs in
  let munged :=
    Element "widget" [("version", "1.0.0")] None
      [ Element "preference" [("name", "loglevel"); ("value", "DEBUG")] None [];
        Element "feature" [("name", "Device")] None [] ] in
  let merged := mergeXml (doc Hello.config) munged "android" true in
  updateConfigFilesFrom Hello.config Hello.munger loc fs =
    (Ok {| path := configXml loc; doc := merged |},
     <[configXml loc := File (Xml merged)]> (reapply_global_munge_save_all Hello.munger fs)).
Proof.
  apply (updateConfigFilesFrom_without_defaults Hello.config Hello.munger Hello.locs
           (delete (defaultConfigXml Hello.locs) Hello.fs)
           (Element "widget" [("version", "1.0.0")] None
              [ Element "preference" [("name", "loglevel"); ("value", "DEBUG")] None [];
                Element "feature" [("name", "Device")] None [] ])).
  - vm_compute. reflexivity.
  - vm_compute. reflexivity.
  - reflexivity.
  - vm_compute. reflexivity.
Defined.

(** The icons of the sample project. *)
Lemma handleIcons_only_below_res_witness :
  only_below (Hello.platform_dir ++ ["res"]) Hello.fs
    (handleIcons Hello.config Hello.platform_dir Hello.fs).2.
Proof.
  apply (handleIcons_only_below_res Hello.config Hello.platform_dir Hello.fs).
  apply densities_check_ok. vm_compute. reflexivity.
Defined.

(** The splash screen of the sample project. *)
Lemma handleSplashes_only_below_res_witness :
  only_below (Hello.platform_dir ++ ["res"]) Hello.fs
    (handleSplashes Hello.config Hello.platform_dir Hello.fs).2.
Proof.
  apply (handleSplashes_only_below_res Hello.config Hello.platform_dir Hello.fs).
  apply densities_check_ok. vm_compute. reflexivity.
Defined.



End HelloExtras.
